(** * The smoker process of the Cigarette Smokers simulation

    A shallow embedding of [semSharedMemSmoker.c] and the properties of
    its operations [waitForIngredients], [rollingCigarette], [smoke],
    [normalRand] and [main].

    The smoker is an interactive process: it blocks on System V
    semaphores, reads and writes a shared memory region that other
    processes change while it is blocked, and loops until it is told to
    close.  Each C function is therefore embedded as an interaction
    tree over the events below, and is given meaning by a handler that
    runs the events against a [world]: the shared region, the
    process's static variables, and an oracle for everything the
    environment decides (results of the IPC primitives, what the other
    processes did to the shared region while this one was blocked, the
    values drawn by [random()]). *)

From Stdlib Require Import ZArith List Bool String Ascii Lia.
From Stdlib Require Import Floats.SpecFloat.
From ITree Require Import ITree ITreeFacts.

Import ListNotations.
Import ITreeNotations.
Local Open Scope string_scope.
Local Open Scope list_scope.
Local Open Scope Z_scope.
Local Open Scope itree_scope.

Set Implicit Arguments.

(** ** Constants and data structures (probConst.h, probDataStruct.h) *)

(** Modelled from the spec: [probConst.h] is not among the sources.  The
    spec fixes three ingredient kinds ([ingredientCount[3]]) and its
    scenarios run three smokers; the loop of [waitForIngredients] uses
    the literal [3]. *)
Definition NUMINGREDIENTS : Z := 3.
Definition NUMSMOKERS : Z := 3.

(** Modelled from the spec: the four values of the smoker status
    enumeration, in the order the spec lists them. *)
Definition WAITING_2ING : Z := 0.
Definition ROLLING : Z := 1.
Definition SMOKING : Z := 2.
Definition CLOSING_S : Z := 3.

Definition EXIT_SUCCESS : Z := 0.
Definition EXIT_FAILURE : Z := 1.

(** C [int]: 32 bits, two's complement. *)
Definition INT_MIN : Z := - 2 ^ 31.
Definition INT_MAX : Z := 2 ^ 31 - 1.

(** An array of three [int] or [unsigned int] cells: [smokerStat] and
    [nCigarettes] have [NUMSMOKERS] cells, [ingredients] has
    [NUMINGREDIENTS]. *)
Record array3 : Type := mkArray3 { cell0 : Z; cell1 : Z; cell2 : Z }.

(** [a[i]]: reading or writing outside the array is undefined behaviour,
    which [None] stands for. *)
Definition load (a : array3) (i : Z) : option Z :=
  match i with
  | 0 => Some (cell0 a)
  | 1 => Some (cell1 a)
  | 2 => Some (cell2 a)
  | _ => None
  end.

Definition store (a : array3) (i : Z) (v : Z) : option array3 :=
  match i with
  | 0 => Some (mkArray3 v (cell1 a) (cell2 a))
  | 1 => Some (mkArray3 (cell0 a) v (cell2 a))
  | 2 => Some (mkArray3 (cell0 a) (cell1 a) v)
  | _ => None
  end.

(** Modelled from the spec: [probDataStruct.h] is not among the sources.
    The part of [FULL_STAT] the smoker touches: the per-smoker status
    ([unsigned int], as the casts in the source show), the ingredient
    counts and the cigarette counts (the spec's "integer", taken as C
    [int]) and the closing flag ([bool]). *)
Record FULL_STAT : Type := mkFullStat {
  smokerStat : array3;
  ingredients : array3;
  nCigarettes : array3;
  closing : bool
}.

(** The semaphores of the set, named by the field of [SHARED_DATA] that
    holds their index. *)
Inductive semaphore : Type :=
| mutex
| wait2Ings (id : Z)
| waitCigarette.

(** C [double]: IEEE 754 binary64, by its executable specification. *)
Definition double : Type := spec_float.
Definition prec : Z := 53.
Definition emax : Z := 1024.
Definition d_add : double -> double -> double := SFadd prec emax.
Definition d_sub : double -> double -> double := SFsub prec emax.
Definition d_mul : double -> double -> double := SFmul prec emax.
Definition d_div : double -> double -> double := SFdiv prec emax.
(** [a > b] on doubles *)
Definition d_gt (a b : double) : bool := SFltb b a.
(** Conversion of an integer to [double], and the literals of the source. *)
Definition of_long (x : Z) : double := binary_normalize prec emax x 0 false.
Definition d_zero : double := S754_zero false.
Definition RAND_MAX : Z := 2147483647.

(** ** Machine integers *)

(** Arithmetic on [int]: a result outside the range of the type is
    undefined behaviour. *)
Definition in_int (x : Z) : bool := (INT_MIN <=? x) && (x <=? INT_MAX).
Definition int_add (x y : Z) : option Z := if in_int (x + y) then Some (x + y) else None.
Definition int_sub (x y : Z) : option Z := if in_int (x - y) then Some (x - y) else None.

(** ** Events of the process *)

Variant smokerE : Type -> Type :=
(* semaphore.h: semDown (semgid, s) and semUp (semgid, s) *)
| SemDown (s : semaphore) : smokerE Z
| SemUp (s : semaphore) : smokerE Z
(* the shared region sh->fSt *)
| StoreSmokerStat (id v : Z) : smokerE unit
| LoadClosing : smokerE bool
| LoadIngredient (n : Z) : smokerE Z
| StoreIngredient (n v : Z) : smokerE unit
| LoadCigarettes (id : Z) : smokerE Z
| StoreCigarettes (id v : Z) : smokerE unit
(* logging.h: saveState (nFic, &sh->fSt) *)
| SaveState : smokerE unit
(* libc *)
| Random : smokerE Z
(* usleep (t), with the double the source passes: the call converts it to
   useconds_t, see to_useconds *)
| Usleep (t : double) : smokerE unit
| Perror (msg : string) : smokerE unit
| Freopen (path mode : string) : smokerE unit
| SetbufStderr : smokerE unit
| FprintfStderr (msg : string) : smokerE unit
| StrcpyNFic (s : string) : smokerE unit
| Srandom : smokerE unit
| Exit (status : Z) : smokerE void
(* sharedMemory.h and semaphore.h: connecting and attaching *)
| SemConnect (key : Z) : smokerE Z
| ShmemConnect (key : Z) : smokerE Z
| ShmemAttach : smokerE Z
| ShmemDettach : smokerE Z
(* undefined behaviour of the C program *)
| Undefined : smokerE void.

(** What an observer sees of one event: the event and its answer. *)
Inductive obs : Type :=
| OSemDown (s : semaphore) (rc : Z)
| OSemUp (s : semaphore) (rc : Z)
| OStoreSmokerStat (id v : Z)
| OLoadClosing (b : bool)
| OLoadIngredient (n v : Z)
| OStoreIngredient (n v : Z)
| OLoadCigarettes (id v : Z)
| OStoreCigarettes (id v : Z)
| OSaveState (file : string) (snapshot : FULL_STAT)
| ORandom (r : Z)
| OUsleep (t : double)
| OPerror (msg : string)
| OFreopen (path mode : string)
| OSetbufStderr
| OFprintfStderr (msg : string)
| OStrcpyNFic (s : string)
| OSrandom (seed : Z)
| OExit (status : Z)
| OSemConnect (key rc : Z)
| OShmemConnect (key rc : Z)
| OShmemAttach (rc : Z)
| OShmemDettach (rc : Z)
| OUndefined.

(** ** The world the process runs in *)

Record world : Type := mkWorld {
  (* the shared memory region *)
  fSt : FULL_STAT;
  (* the static variables of the process *)
  nFic : string;
  semgid : Z;
  shmid : Z;
  (* the environment: for each semDown to come, its result and what the
     other processes did to the region before it returned; the results
     of the semUp calls to come; the values random() will return; the
     results of semConnect, shmemConnect, shmemAttach and shmemDettach;
     the process id *)
  env_down : list (Z * (FULL_STAT -> FULL_STAT));
  env_up : list Z;
  env_random : list Z;
  env_semConnect : Z;
  env_shmemConnect : Z;
  env_shmemAttach : Z;
  env_shmemDettach : Z;
  env_pid : Z;
  (* everything the process did so far, latest first *)
  trace : list obs
}.

Definition set_fSt (s : FULL_STAT) (w : world) : world :=
  mkWorld s (nFic w) (semgid w) (shmid w) (env_down w) (env_up w) (env_random w)
          (env_semConnect w) (env_shmemConnect w) (env_shmemAttach w)
          (env_shmemDettach w) (env_pid w) (trace w).

Definition set_nFic (f : string) (w : world) : world :=
  mkWorld (fSt w) f (semgid w) (shmid w) (env_down w) (env_up w) (env_random w)
          (env_semConnect w) (env_shmemConnect w) (env_shmemAttach w)
          (env_shmemDettach w) (env_pid w) (trace w).

Definition set_semgid (g : Z) (w : world) : world :=
  mkWorld (fSt w) (nFic w) g (shmid w) (env_down w) (env_up w) (env_random w)
          (env_semConnect w) (env_shmemConnect w) (env_shmemAttach w)
          (env_shmemDettach w) (env_pid w) (trace w).

Definition set_shmid (g : Z) (w : world) : world :=
  mkWorld (fSt w) (nFic w) (semgid w) g (env_down w) (env_up w) (env_random w)
          (env_semConnect w) (env_shmemConnect w) (env_shmemAttach w)
          (env_shmemDettach w) (env_pid w) (trace w).

Definition set_env_down (d : list (Z * (FULL_STAT -> FULL_STAT))) (w : world) : world :=
  mkWorld (fSt w) (nFic w) (semgid w) (shmid w) d (env_up w) (env_random w)
          (env_semConnect w) (env_shmemConnect w) (env_shmemAttach w)
          (env_shmemDettach w) (env_pid w) (trace w).

Definition set_env_up (u : list Z) (w : world) : world :=
  mkWorld (fSt w) (nFic w) (semgid w) (shmid w) (env_down w) u (env_random w)
          (env_semConnect w) (env_shmemConnect w) (env_shmemAttach w)
          (env_shmemDettach w) (env_pid w) (trace w).

Definition set_env_random (r : list Z) (w : world) : world :=
  mkWorld (fSt w) (nFic w) (semgid w) (shmid w) (env_down w) (env_up w) r
          (env_semConnect w) (env_shmemConnect w) (env_shmemAttach w)
          (env_shmemDettach w) (env_pid w) (trace w).

Definition log (o : obs) (w : world) : world :=
  mkWorld (fSt w) (nFic w) (semgid w) (shmid w) (env_down w) (env_up w) (env_random w)
          (env_semConnect w) (env_shmemConnect w) (env_shmemAttach w)
          (env_shmemDettach w) (env_pid w) (o :: trace w).

(** Field updates of [FULL_STAT]. *)
Definition set_smokerStat (a : array3) (s : FULL_STAT) : FULL_STAT :=
  mkFullStat a (ingredients s) (nCigarettes s) (closing s).
Definition set_ingredients (a : array3) (s : FULL_STAT) : FULL_STAT :=
  mkFullStat (smokerStat s) a (nCigarettes s) (closing s).
Definition set_nCigarettes (a : array3) (s : FULL_STAT) : FULL_STAT :=
  mkFullStat (smokerStat s) (ingredients s) a (closing s).
Definition set_closing (b : bool) (s : FULL_STAT) : FULL_STAT :=
  mkFullStat (smokerStat s) (ingredients s) (nCigarettes s) b.

(** ** Meaning of the events *)

(** One event either answers and leaves a new world, or ends the
    process: by [exit], or by undefined behaviour. *)
Inductive halt : Type :=
| HExit (status : Z)
| HUndefined.

Inductive answer (X : Type) : Type :=
| Next (x : X) (w : world)
| Halt (h : halt) (w : world).
Arguments Next {X} x w.
Arguments Halt {X} h w.

Definition stored {A} (o : obs) (upd : A -> FULL_STAT -> FULL_STAT) (r : option A)
  (w : world) : answer unit :=
  match r with
  | Some a => Next tt (log o (set_fSt (upd a (fSt w)) w))
  | None => Halt HUndefined (log OUndefined w)
  end.

Definition loaded (o : Z -> obs) (r : option Z) (w : world) : answer Z :=
  match r with
  | Some v => Next v (log (o v) w)
  | None => Halt HUndefined (log OUndefined w)
  end.

Definition handle {X} (e : smokerE X) (w : world) : answer X :=
  match e in smokerE X return answer X with
  | SemDown s =>
      (* the answer listed for this call; a call beyond the list succeeds at
         once, see answered *)
      let d := hd (0, fun st => st) (env_down w) in
      Next (fst d) (log (OSemDown s (fst d))
                      (set_fSt (snd d (fSt w)) (set_env_down (tl (env_down w)) w)))
  | SemUp s =>
      let rc := hd 0 (env_up w) in
      Next rc (log (OSemUp s rc) (set_env_up (tl (env_up w)) w))
  | StoreSmokerStat id v =>
      stored (OStoreSmokerStat id v) set_smokerStat (store (smokerStat (fSt w)) id v) w
  | LoadClosing =>
      Next (closing (fSt w)) (log (OLoadClosing (closing (fSt w))) w)
  | LoadIngredient n =>
      loaded (OLoadIngredient n) (load (ingredients (fSt w)) n) w
  | StoreIngredient n v =>
      stored (OStoreIngredient n v) set_ingredients (store (ingredients (fSt w)) n v) w
  | LoadCigarettes id =>
      loaded (OLoadCigarettes id) (load (nCigarettes (fSt w)) id) w
  | StoreCigarettes id v =>
      stored (OStoreCigarettes id v) set_nCigarettes (store (nCigarettes (fSt w)) id v) w
  | SaveState => Next tt (log (OSaveState (nFic w) (fSt w)) w)
  | Random =>
      let r := hd 0 (env_random w) in
      Next r (log (ORandom r) (set_env_random (tl (env_random w)) w))
  | Usleep t => Next tt (log (OUsleep t) w)
  | Perror msg => Next tt (log (OPerror msg) w)
  | Freopen path mode => Next tt (log (OFreopen path mode) w)
  | SetbufStderr => Next tt (log OSetbufStderr w)
  | FprintfStderr msg => Next tt (log (OFprintfStderr msg) w)
  | StrcpyNFic s =>
      (* nFic is a char[51] *)
      if (Z.of_nat (String.length s) <? 51)
      then Next tt (log (OStrcpyNFic s) (set_nFic s w))
      else Halt HUndefined (log OUndefined w)
  | Srandom => Next tt (log (OSrandom (Z.modulo (env_pid w) (2 ^ 32))) w)
  | Exit status => Halt (HExit status) (log (OExit status) w)
  | SemConnect key =>
      (* semgid = semConnect (key) *)
      Next (env_semConnect w)
           (log (OSemConnect key (env_semConnect w)) (set_semgid (env_semConnect w) w))
  | ShmemConnect key =>
      (* shmid = shmemConnect (key) *)
      Next (env_shmemConnect w)
           (log (OShmemConnect key (env_shmemConnect w)) (set_shmid (env_shmemConnect w) w))
  | ShmemAttach => Next (env_shmemAttach w) (log (OShmemAttach (env_shmemAttach w)) w)
  | ShmemDettach => Next (env_shmemDettach w) (log (OShmemDettach (env_shmemDettach w)) w)
  | Undefined => Halt HUndefined (log OUndefined w)
  end.

(** ** Running a program *)

Inductive outcome (R : Type) : Type :=
| Returned (r : R) (w : world)
| Halted (h : halt) (w : world)
| Running (w : world).
Arguments Returned {R} r w.
Arguments Halted {R} h w.
Arguments Running {R} w.

(** [run n t w] runs [t] from [w] for at most [n] steps. *)
Fixpoint run {R} (n : nat) (t : itree smokerE R) (w : world) : outcome R :=
  match n with
  | O => Running w
  | S n' =>
      match observe t with
      | RetF r => Returned r w
      | TauF t' => run n' t' w
      | VisF e k =>
          match handle e w with
          | Next x w' => run n' (k x) w'
          | Halt h w' => Halted h w'
          end
      end
  end.

(** ** The operations of the smoker *)

Definition die {R} (msg : string) : itree smokerE R :=
  ITree.trigger (Perror msg);;
  v <- ITree.trigger (Exit EXIT_FAILURE);;
  match v : void with end.

Definition undefined {R} : itree smokerE R :=
  v <- ITree.trigger Undefined;;
  match v : void with end.

Definition msg_up : string := "error on the up operation for semaphore access (SM)".
Definition msg_down : string := "error on the down operation for semaphore access (SM)".

(** [sh->fSt.ingredients[n] -= 1] *)
Definition dec_ingredient (n : Z) : itree smokerE unit :=
  v <- ITree.trigger (LoadIngredient n);;
  match int_sub v 1 with
  | Some v' => ITree.trigger (StoreIngredient n v')
  | None => undefined
  end.

(** [for (; n < 3; n++) if (id != n) sh->fSt.ingredients[n] -= 1;]
    with [k] iterations left. *)
Fixpoint consume (id n : Z) (k : nat) : itree smokerE unit :=
  match k with
  | O => Ret tt
  | S k' =>
      (if negb (id =? n) then dec_ingredient n else Ret tt);;
      consume id (n + 1) k'
  end.

(** The second critical region of [waitForIngredients], entered after
    the wake-up (source lines 183-194). *)
Definition woken (id : Z) : itree smokerE bool :=
  c <- ITree.trigger LoadClosing;;
  ret <- (if c : bool
          then ITree.trigger (StoreSmokerStat id CLOSING_S);; Ret false
          else consume id 0 (Z.to_nat (3 - 0));; Ret true);;
  ITree.trigger SaveState;;
  Ret ret.

Definition waitForIngredients (id : Z) : itree smokerE bool :=
  rc <- ITree.trigger (SemDown mutex);;
  (if rc =? -1 then die msg_up else Ret tt);;
  ITree.trigger (StoreSmokerStat id WAITING_2ING);;
  ITree.trigger SaveState;;
  rc <- ITree.trigger (SemUp mutex);;
  (if rc =? -1 then die msg_down else Ret tt);;
  rc <- ITree.trigger (SemDown (wait2Ings id));;
  (if rc =? -1 then die msg_up else Ret tt);;
  rc <- ITree.trigger (SemDown mutex);;
  (if rc =? -1 then die msg_up else Ret tt);;
  ret <- woken id;;
  rc <- ITree.trigger (SemUp mutex);;
  (if rc =? -1 then die msg_down else Ret tt);;
  Ret ret.

(** One uniform sample: [x / (RAND_MAX + 1.0)] for a value [x] of [random()]. *)
Definition uniform (x : Z) : double :=
  d_div (of_long x) (d_add (of_long RAND_MAX) (of_long 1)).

(** [normalRand]: the loop [for (i = 0; i < 12; i++) r += random()/(RAND_MAX+1.0);]
    with [k] iterations left. *)
Fixpoint sum_uniform (k : nat) (r : double) : itree smokerE double :=
  match k with
  | O => Ret r
  | S k' =>
      x <- ITree.trigger Random;;
      sum_uniform k' (d_add r (uniform x))
  end.

Definition normalRand (stddev : double) : itree smokerE double :=
  r <- sum_uniform 12 d_zero;;
  let r := d_sub r (of_long 6) in
  Ret (d_mul r stddev).

Definition rollingCigarette (id : Z) : itree smokerE unit :=
  noise <- normalRand (of_long 30);;
  let rollingTime := d_add (of_long 100) noise in
  rc <- ITree.trigger (SemDown mutex);;
  (if rc =? -1 then die msg_up else Ret tt);;
  ITree.trigger (StoreSmokerStat id ROLLING);;
  ITree.trigger SaveState;;
  (if d_gt rollingTime d_zero then ITree.trigger (Usleep rollingTime) else Ret tt);;
  rc <- ITree.trigger (SemUp mutex);;
  (if rc =? -1 then die msg_down else Ret tt);;
  rc <- ITree.trigger (SemUp waitCigarette);;
  (if rc =? -1 then die msg_up else Ret tt).

(** [sh->fSt.nCigarettes[id] += 1] *)
Definition inc_cigarettes (id : Z) : itree smokerE unit :=
  v <- ITree.trigger (LoadCigarettes id);;
  match int_add v 1 with
  | Some v' => ITree.trigger (StoreCigarettes id v')
  | None => undefined
  end.

Definition smoke (id : Z) : itree smokerE unit :=
  rc <- ITree.trigger (SemDown mutex);;
  (if rc =? -1 then die msg_up else Ret tt);;
  ITree.trigger (StoreSmokerStat id SMOKING);;
  ITree.trigger SaveState;;
  noise <- normalRand (of_long 30);;
  let smokingTime := d_add (of_long 100) noise in
  (if d_gt smokingTime d_zero then ITree.trigger (Usleep smokingTime) else Ret tt);;
  inc_cigarettes id;;
  ITree.trigger SaveState;;
  rc <- ITree.trigger (SemUp mutex);;
  (if rc =? -1 then die msg_down else Ret tt).

(** The life cycle of the smoker:
    [while (waitForIngredients (n)) { rollingCigarette (n); smoke (n); }] *)
Definition life_cycle (n : Z) : itree smokerE unit :=
  ITree.iter
    (fun _ : unit =>
       b <- waitForIngredients n;;
       if b : bool
       then rollingCigarette n;; smoke n;; Ret (inl tt)
       else Ret (inr tt))
    tt.

(** ** Command line *)

(** [strtol (s, &tinp, 0)] of the C library: white space, an optional
    sign, the base taken from the prefix ([0x] sixteen, [0] eight, ten
    otherwise), the longest run of digits of that base; the result is
    clamped to the range of [long], and [tinp] is what follows the
    digits (the whole string when there is no digit). *)
Definition LONG_MIN : Z := - 2 ^ 63.
Definition LONG_MAX : Z := 2 ^ 63 - 1.

Definition isspace (c : ascii) : bool :=
  let n := nat_of_ascii c in
  (Nat.eqb n 32 || (Nat.leb 9 n && Nat.leb n 13))%bool.

Definition digit_value (c : ascii) : option Z :=
  let n := Z.of_nat (nat_of_ascii c) in
  if (48 <=? n) && (n <=? 57) then Some (n - 48)
  else if (97 <=? n) && (n <=? 122) then Some (n - 97 + 10)
  else if (65 <=? n) && (n <=? 90) then Some (n - 65 + 10)
  else None.

Definition digit_in (base : Z) (c : ascii) : option Z :=
  match digit_value c with
  | Some d => if d <? base then Some d else None
  | None => None
  end.

Fixpoint skip_space (s : string) : string :=
  match s with
  | String c s' => if isspace c then skip_space s' else s
  | EmptyString => s
  end.

(** The digits of [s] in [base], accumulated onto [acc]: the value, the
    rest, and whether a digit was read. *)
Fixpoint digits (base : Z) (s : string) (acc : Z) (any : bool) : Z * string * bool :=
  match s with
  | String c s' =>
      match digit_in base c with
      | Some d => digits base s' (acc * base + d) true
      | None => (acc, s, any)
      end
  | EmptyString => (acc, s, any)
  end.

Definition clamp_long (x : Z) : Z := Z.max LONG_MIN (Z.min LONG_MAX x).

Definition is_x (c : ascii) : bool :=
  (Nat.eqb (nat_of_ascii c) 120 || Nat.eqb (nat_of_ascii c) 88)%bool.

Definition strtol (nptr : string) : Z * string :=
  let s := skip_space nptr in
  let '(neg, s) :=
    match s with
    | String "-" s' => (true, s')
    | String "+" s' => (false, s')
    | _ => (false, s)
    end in
  let '(base, body) :=
    match s with
    | String "0" (String x (String h s')) =>
        if is_x x && (match digit_in 16 h with Some _ => true | None => false end)
        then (16, String h s') else (8, s)
    | String "0" _ => (8, s)
    | _ => (10, s)
    end in
  let '(v, rest, any) := digits base body 0 false in
  if any then (clamp_long (if neg : bool then - v else v), rest) else (0, nptr).

(** The conversions of [n = (unsigned int) strtol (...)], [n] an [int]. *)
Definition to_unsigned_int (x : Z) : Z := x mod 2 ^ 32.
Definition to_int (x : Z) : Z := (x + 2 ^ 31) mod 2 ^ 32 - 2 ^ 31.

Definition newline : string := String (ascii_of_nat 10) EmptyString.

Definition main (argv : list string) : itree smokerE Z :=
  let argc := Z.of_nat (List.length argv) in
  let arg i := nth i argv EmptyString in
  if negb (argc =? 5) then
    ITree.trigger (Freopen "error_SM" "a");;
    ITree.trigger (FprintfStderr ("Number of parameters is incorrect!" ++ newline)%string);;
    Ret EXIT_FAILURE
  else
    ITree.trigger (Freopen (arg 4%nat) "w");;
    ITree.trigger SetbufStderr;;
    let '(v, tinp) := strtol (arg 1%nat) in
    let n := to_int (to_unsigned_int v) in
    if negb (String.eqb tinp EmptyString) || (NUMSMOKERS <=? n) then
      ITree.trigger (FprintfStderr ("Smoker process identification is wrong!" ++ newline)%string);;
      Ret EXIT_FAILURE
    else
      ITree.trigger (StrcpyNFic (arg 2%nat));;
      let '(v, tinp) := strtol (arg 3%nat) in
      let key := to_int (to_unsigned_int v) in
      if negb (String.eqb tinp EmptyString) then
        ITree.trigger (FprintfStderr ("Error on the access key communication!" ++ newline)%string);;
        Ret EXIT_FAILURE
      else
        rc <- ITree.trigger (SemConnect key);;
        if rc =? -1 then
          ITree.trigger (Perror "error on connecting to the semaphore set");;
          Ret EXIT_FAILURE
        else
          rc <- ITree.trigger (ShmemConnect key);;
          if rc =? -1 then
            ITree.trigger (Perror "error on connecting to the shared memory region");;
            Ret EXIT_FAILURE
          else
            rc <- ITree.trigger ShmemAttach;;
            if rc =? -1 then
              ITree.trigger
                (Perror "error on mapping the shared region on the process address space");;
              Ret EXIT_FAILURE
            else
              ITree.trigger Srandom;;
              life_cycle n;;
              rc <- ITree.trigger ShmemDettach;;
              if rc =? -1 then
                ITree.trigger
                  (Perror "error on unmapping the shared region off the process address space");;
                Ret EXIT_FAILURE
              else Ret EXIT_SUCCESS.

(** ** Outcomes of runs *)

(** The program has come to an end: it returned, or the process ended. *)
Definition finished {R} (o : outcome R) : Prop :=
  match o with
  | Running _ => False
  | _ => True
  end.

(** [t] run from [w] ends with [o]: every run that is given enough
    steps does. *)
Definition runs_to {R} (t : itree smokerE R) (w : world) (o : outcome R) : Prop :=
  finished o /\ exists N, forall n, (N <= n)%nat -> run n t w = o.

Definition final_world {R} (o : outcome R) : world :=
  match o with
  | Returned _ w => w
  | Halted _ w => w
  | Running w => w
  end.

(** ** The environment of a call *)

(** The result of the [k]-th [semDown] and [semUp] still to come, and
    what the other processes do to the shared region during the [k]-th
    [semDown] to come. *)
Definition rc_down (k : nat) (w : world) : Z := fst (nth k (env_down w) (0, fun st => st)).
Definition rc_up (k : nat) (w : world) : Z := nth k (env_up w) 0.
Definition others (k : nat) (w : world) : FULL_STAT -> FULL_STAT :=
  snd (nth k (env_down w) (0, fun st => st)).

(** The semaphore operations to come all succeed. *)
Definition reliable (w : world) : bool :=
  forallb (fun d => negb (fst d =? -1)) (env_down w) &&
  forallb (fun rc => negb (rc =? -1)) (env_up w).

(** [sh->fSt.st.smokerStat[id] = v] on a state, for ids inside the array. *)
Definition set_status (id v : Z) (s : FULL_STAT) : FULL_STAT :=
  match store (smokerStat s) id v with
  | Some a => set_smokerStat a s
  | None => s
  end.

(** The shared region as [waitForIngredients] finds it when it enters
    the critical region after the wake-up: the others acted while it
    waited for the mutex, it stored its status, and the others acted
    again while it was blocked on its semaphore and on the mutex. *)
Definition at_wake_up (id : Z) (w : world) : FULL_STAT :=
  others 2 w (others 1 w (set_status id WAITING_2ING (others 0 w (fSt w)))).

(** The value of the [k]-th call of [random()] still to come. *)
Definition draw (k : nat) (w : world) : Z := nth k (env_random w) 0.
Definition draws (from n : nat) (w : world) : list Z :=
  List.map (fun k => draw k w) (List.seq from n).

(** The sum of the samples of [xs] added to [r] in the order of the
    draws. *)
Fixpoint sum_samples (xs : list Z) (r : double) : double :=
  match xs with
  | [] => r
  | x :: xs' => sum_samples xs' (d_add r (uniform x))
  end.

(** The sum of the samples minus six, multiplied by [stddev]. *)
Definition normal_of (xs : list Z) (stddev : double) : double :=
  d_mul (d_sub (sum_samples xs d_zero) (of_long 6)) stddev.

(** The time a smoker works for given twelve draws, [100.0 + normalRand (30.0)],
    and the call of [usleep] it makes: none unless the time is positive. *)
Definition work_time (xs : list Z) : double :=
  d_add (of_long 100) (normal_of xs (of_long 30)).

Definition sleep_event (t : double) : list obs :=
  if d_gt t d_zero then [OUsleep t] else [].

(** [sh->fSt.nCigarettes[id] = v] on a state, for ids inside the array. *)
Definition set_cigarettes (id v : Z) (s : FULL_STAT) : FULL_STAT :=
  match store (nCigarettes s) id v with
  | Some a => set_nCigarettes a s
  | None => s
  end.

(** The shared region as [rollingCigarette] leaves it, and as [smoke]
    finds it when it is called next and has acquired the mutex. *)
Definition after_rolling (id : Z) (w : world) : FULL_STAT :=
  set_status id ROLLING (others 0 w (fSt w)).

Definition at_smoke (id : Z) (w : world) : FULL_STAT :=
  others 1 w (after_rolling id w).

(** The world [main] leaves when it enters the life cycle: the start-up
    calls are logged and the static variables are set. *)
Definition started (argv : list string) (key : Z) (w : world) : world :=
  log (OSrandom (env_pid w mod 2 ^ 32))
    (log (OShmemAttach (env_shmemAttach w))
       (log (OShmemConnect key (env_shmemConnect w))
          (set_shmid (env_shmemConnect w)
             (log (OSemConnect key (env_semConnect w))
                (set_semgid (env_semConnect w)
                   (log (OStrcpyNFic (nth 2 argv EmptyString))
                      (set_nFic (nth 2 argv EmptyString)
                         (log OSetbufStderr
                            (log (OFreopen (nth 4 argv EmptyString) "w") w))))))))).

(** ** Reading the trace *)

(** The events of a call that took the world from [w] to [w'], in the
    order they happened. *)
Definition since (w w' : world) : list obs :=
  rev (firstn (List.length (trace w') - List.length (trace w)) (trace w')).

(** Whether the process holds the mutex after an event. *)
Definition mutex_after (held : bool) (o : obs) : bool :=
  match o with
  | OSemDown mutex rc => if rc =? -1 then held else true
  | OSemUp mutex rc => if rc =? -1 then held else false
  | _ => held
  end.

(** No [usleep] happens while the mutex is held; every [usleep] happens
    while the mutex is held. *)
Fixpoint sleeps_unlocked (held : bool) (evs : list obs) : bool :=
  match evs with
  | [] => true
  | o :: evs' =>
      match o with OUsleep _ => negb held | _ => true end
      && sleeps_unlocked (mutex_after held o) evs'
  end.

Fixpoint sleeps_locked (held : bool) (evs : list obs) : bool :=
  match evs with
  | [] => true
  | o :: evs' =>
      match o with OUsleep _ => held | _ => true end
      && sleeps_locked (mutex_after held o) evs'
  end.

Fixpoint holds_mutex (held : bool) (evs : list obs) : bool :=
  match evs with
  | [] => held
  | o :: evs' => holds_mutex (mutex_after held o) evs'
  end.

(** The stores to [nCigarettes], the status stores that come before the
    first of them, and the events that come before the first reading of
    the closing flag. *)
Fixpoint cigarette_stores (evs : list obs) : list (Z * Z) :=
  match evs with
  | [] => []
  | OStoreCigarettes id v :: evs' => (id, v) :: cigarette_stores evs'
  | _ :: evs' => cigarette_stores evs'
  end.

Fixpoint statuses_before_count (evs : list obs) : list (Z * Z) :=
  match evs with
  | [] => []
  | OStoreCigarettes _ _ :: _ => []
  | OStoreSmokerStat id v :: evs' => (id, v) :: statuses_before_count evs'
  | _ :: evs' => statuses_before_count evs'
  end.

Definition is_closing_read (o : obs) : bool :=
  match o with
  | OLoadClosing _ => true
  | _ => false
  end.

Fixpoint before_closing_read (evs : list obs) : list obs :=
  match evs with
  | [] => []
  | o :: evs' => if is_closing_read o then [] else o :: before_closing_read evs'
  end.

(** The two ingredient kinds a smoker takes, the value of a cell, and
    the stores to [ingredients] among some events. *)
Definition other_kinds (id : Z) : list Z :=
  filter (fun n => negb (id =? n)) [0; 1; 2].

Definition cell (a : array3) (j : Z) : Z :=
  match load a j with
  | Some v => v
  | None => 0
  end.

Fixpoint ingredient_stores (evs : list obs) : list (Z * Z) :=
  match evs with
  | [] => []
  | OStoreIngredient n v :: evs' => (n, v) :: ingredient_stores evs'
  | _ :: evs' => ingredient_stores evs'
  end.

(** ** Example worlds *)

Definition st_empty : FULL_STAT :=
  mkFullStat (mkArray3 0 0 0) (mkArray3 0 0 0) (mkArray3 0 0 0) false.

Definition idle (s : FULL_STAT) : FULL_STAT := s.

(** The agent supplies smoker 0 with one unit of ingredients 1 and 2. *)
Definition supply_smoker0 (s : FULL_STAT) : FULL_STAT :=
  set_ingredients
    (mkArray3 (cell0 (ingredients s)) (cell1 (ingredients s) + 1) (cell2 (ingredients s) + 1))
    s.

Definition world_of (s : FULL_STAT) (downs : list (Z * (FULL_STAT -> FULL_STAT)))
  (randoms : list Z) : world :=
  mkWorld s "smoker.log" 0 0 downs [] randoms 0 0 0 0 1 [].

(** Smoker 0 is supplied while it is blocked; the simulation closes
    while it is blocked; it is woken with nothing supplied. *)
Definition w_supplied : world :=
  world_of st_empty [(0, idle); (0, supply_smoker0); (0, idle)] [].
Definition w_closing : world :=
  world_of st_empty [(0, idle); (0, set_closing true); (0, idle)] [].
Definition w_unsupplied : world := world_of st_empty [] [].

(** Every draw of [random()] is half of [RAND_MAX + 1]: each sample is
    0.5, the noise is 0 and the work takes 100 time units. *)
Definition w_half : world := world_of st_empty [] (repeat (2 ^ 30) 24).
(** The same, with the simulation closing after the smoker has rolled,
    while it waits for the mutex in [smoke]. *)
Definition w_half_closing : world :=
  world_of st_empty [(0, idle); (0, set_closing true)] (repeat (2 ^ 30) 24).

(** The command line of smoker [id]. *)
Definition argv_of (id : string) : list string :=
  ["smoker"; id; "smoker.log"; "1234"; "smoker.err"].

(** ** The simulation *)

(** The shared region together with the semaphores on which the smokers
    wait: [ready] holds the value of each [wait2Ings[k]], and [woken_up]
    counts, for each smoker, the wake-ups it has taken from its
    semaphore and not yet acted on (it has passed [semDown] and waits
    for the mutex). *)
Record simulation : Type := mkSimulation {
  shared : FULL_STAT;
  ready : array3;
  woken_up : array3
}.

Definition add_at (k d : Z) (a : array3) : array3 :=
  mkArray3 (cell0 a + (if k =? 0 then d else 0))
           (cell1 a + (if k =? 1 then d else 0))
           (cell2 a + (if k =? 2 then d else 0)).

Definition add_others (k d : Z) (a : array3) : array3 :=
  mkArray3 (cell0 a + (if k =? 0 then 0 else d))
           (cell1 a + (if k =? 1 then 0 else d))
           (cell2 a + (if k =? 2 then 0 else d)).

Definition in_ints (a : array3) : Prop :=
  INT_MIN <= cell0 a <= INT_MAX /\ INT_MIN <= cell1 a <= INT_MAX /\
  INT_MIN <= cell2 a <= INT_MAX.

(** Modelled from the spec: the agent is not among the sources.  It
    "decides which ingredients become available, writes them into
    SharedState, and signals exactly one SmokerActor's ready semaphore":
    for a smoker [k] it adds one unit of each of the two ingredients
    other than [k] and signals [wait2Ings[k]]; and it "sets the closing
    flag and wakes all blocked smokers at shutdown". *)
Inductive agent_step : simulation -> simulation -> Prop :=
| agent_supplies (k : Z) (st : simulation) :
    0 <= k < NUMSMOKERS ->
    in_ints (add_others k 1 (ingredients (shared st))) ->
    agent_step st
      (mkSimulation (set_ingredients (add_others k 1 (ingredients (shared st))) (shared st))
                    (add_at k 1 (ready st)) (woken_up st))
| agent_closes (st : simulation) :
    agent_step st
      (mkSimulation (set_closing true (shared st))
                    (add_at 0 1 (add_at 1 1 (add_at 2 1 (ready st)))) (woken_up st)).

(** The steps of smoker [k], each one atomic: its critical regions, which
    the mutex keeps apart from everybody else's, and the [semDown] on
    its own semaphore, which returns only when the semaphore is
    positive.  The region entered after the wake-up is the program
    [woken k] itself. *)
Inductive smoker_step (k : Z) : simulation -> simulation -> Prop :=
| smoker_waits (st : simulation) :
    smoker_step k st
      (mkSimulation (set_status k WAITING_2ING (shared st)) (ready st) (woken_up st))
| smoker_wakes (st : simulation) (r : Z) :
    load (ready st) k = Some r -> 0 < r ->
    smoker_step k st
      (mkSimulation (shared st) (add_at k (-1) (ready st)) (add_at k 1 (woken_up st)))
| smoker_consumes (st : simulation) (p : Z) (w w' : world) (b : bool) :
    load (woken_up st) k = Some p -> 0 < p ->
    fSt w = shared st ->
    runs_to (woken k) w (Returned b w') ->
    smoker_step k st
      (mkSimulation (fSt w') (ready st) (add_at k (-1) (woken_up st)))
| smoker_rolls (st : simulation) :
    smoker_step k st
      (mkSimulation (set_status k ROLLING (shared st)) (ready st) (woken_up st))
| smoker_smokes (st : simulation) (v : Z) :
    load (nCigarettes (shared st)) k = Some v ->
    smoker_step k st
      (mkSimulation (set_cigarettes k (v + 1) (set_status k SMOKING (shared st)))
                    (ready st) (woken_up st)).

Inductive step (st st' : simulation) : Prop :=
| step_agent : agent_step st st' -> step st st'
| step_smoker (k : Z) : 0 <= k < NUMSMOKERS -> smoker_step k st st' -> step st st'.

(** Modelled from the spec: the initialiser is not among the sources.
    The region is "created by an external initializer before any actor
    starts": no smoker has been signalled, and the ingredient counts
    are [int]s that are not negative. *)
Definition initial (st : simulation) : Prop :=
  ready st = mkArray3 0 0 0 /\ woken_up st = mkArray3 0 0 0 /\
  in_ints (ingredients (shared st)) /\
  0 <= cell0 (ingredients (shared st)) /\
  0 <= cell1 (ingredients (shared st)) /\
  0 <= cell2 (ingredients (shared st)).

Inductive reachable : simulation -> Prop :=
| reachable_initial (st : simulation) : initial st -> reachable st
| reachable_step (st st' : simulation) : reachable st -> step st st' -> reachable st'.

(** What keeps the counts from going negative: while the simulation is
    not closing, every wake-up that is signalled or taken and not yet
    acted on is backed by one unit of each of the two ingredients its
    smoker will take. *)
Definition backed (st : simulation) : Prop :=
  let i := ingredients (shared st) in
  let r := ready st in
  let p := woken_up st in
  in_ints i /\
  0 <= cell0 i /\ 0 <= cell1 i /\ 0 <= cell2 i /\
  0 <= cell0 r /\ 0 <= cell1 r /\ 0 <= cell2 r /\
  0 <= cell0 p /\ 0 <= cell1 p /\ 0 <= cell2 p /\
  (closing (shared st) = false ->
   cell1 r + cell1 p + cell2 r + cell2 p <= cell0 i /\
   cell0 r + cell0 p + cell2 r + cell2 p <= cell1 i /\
   cell0 r + cell0 p + cell1 r + cell1 p <= cell2 i).

(** The simulation of the spec's first scenario: from the empty region
    the agent supplies smoker 0, smoker 0 is woken and takes the
    ingredients. *)
Definition sim_start : simulation :=
  mkSimulation st_empty (mkArray3 0 0 0) (mkArray3 0 0 0).
Definition sim_supplied : simulation :=
  mkSimulation (supply_smoker0 st_empty) (mkArray3 1 0 0) (mkArray3 0 0 0).
Definition sim_woken : simulation :=
  mkSimulation (supply_smoker0 st_empty) (mkArray3 0 0 0) (mkArray3 1 0 0).
Definition sim_consumed : simulation :=
  mkSimulation st_empty (mkArray3 0 0 0) (mkArray3 0 0 0).

(** ** Exact doubles *)

(** The double that is [k / 2^31]. *)
Definition dyadic (k : Z) : double := binary_normalize prec emax k (-31) false.

(** The least exponent of a double. *)
Definition d_emin : Z := 3 - emax - prec.

(** The double that holds [k * 2 ^ e] for a [k] of at most 53 digits:
    the mantissa is [k] brought to 53 digits. *)
Definition normal (s : bool) (k : positive) (e : Z) : double :=
  let d := Zpos (digits2_pos k) in
  S754_finite s (Z.to_pos (Zpos k * 2 ^ (53 - d))) (e + d - 53).

(** [RAND_MAX + 1.0] *)
Definition two_31 : double := S754_finite false 4503599627370496 (-21).

(** The sum of the draws, and draws that [random()] can return. *)
Fixpoint total (xs : list Z) : Z :=
  match xs with
  | [] => 0
  | x :: xs' => x + total xs'
  end.

Definition drawn (xs : list Z) : Prop := Forall (fun x => 0 <= x <= RAND_MAX) xs.

(** ** Worlds and command lines of the start-up *)

(** A world in which [semConnect], [shmemConnect] and [shmemAttach]
    answer [c1], [c2] and [c3], and [shmemDettach] answers [c4]. *)
Definition world_connecting (c1 c2 c3 c4 : Z) (downs : list (Z * (FULL_STAT -> FULL_STAT)))
  : world :=
  mkWorld st_empty EmptyString 0 0 downs [] [] c1 c2 c3 c4 1 [].

(** A name of 51 characters, one more than [nFic] holds with its
    terminator. *)
Definition long_name : string :=
  "123456789012345678901234567890123456789012345678901".

(** ** Failures of the semaphore operations *)

(** A semaphore operation that failed, and the message [perror] is given
    after it: the source reports a failed [semDown] as an error on the
    up operation, a failed [semUp] of the mutex as an error on the down
    operation, and a failed [semUp] of [waitCigarette] as an error on
    the up operation. *)
Definition failed (o : obs) : bool :=
  match o with
  | OSemDown _ rc | OSemUp _ rc => rc =? -1
  | _ => false
  end.

Definition complaint (o : obs) : string :=
  match o with
  | OSemUp mutex _ => msg_down
  | _ => msg_up
  end.

(** The process ended by [exit (EXIT_FAILURE)], called right after a
    semaphore operation failed and was reported. *)
Definition exits_on_failure {R} (o : outcome R) : Prop :=
  exists w' ev older,
    o = Halted (HExit EXIT_FAILURE) w' /\
    trace w' = OExit EXIT_FAILURE :: OPerror (complaint ev) :: ev :: older /\
    failed ev = true.

(** The events that read, write or save the shared region. *)
Definition touches_region (o : obs) : bool :=
  match o with
  | OStoreSmokerStat _ _ | OLoadClosing _ | OLoadIngredient _ _ | OStoreIngredient _ _
  | OLoadCigarettes _ _ | OStoreCigarettes _ _ | OSaveState _ _ => true
  | _ => false
  end.

(** The protocol of the mutex: the shared region is read, written and
    saved only while the mutex is held; the mutex is acquired only when
    it is not held and released only when it is held; the other
    semaphores are waited for and signalled only while the mutex is not
    held. *)
Fixpoint disciplined (held : bool) (evs : list obs) : bool :=
  match evs with
  | [] => true
  | o :: evs' =>
      match o with
      | OSemDown mutex _ => negb held
      | OSemUp mutex _ => held
      | OSemDown _ _ | OSemUp _ _ => negb held
      | _ => if touches_region o then held else true
      end
      && disciplined (mutex_after held o) evs'
  end.

(** The first [n] calls of [semDown] to come return: the environment
    lists their answers.  A [semDown] that blocks for ever (a smoker
    that is never signalled, a mutex that is never released) has no
    answer.  [handle] lets a call beyond the list succeed at once, so
    that a call comes to an end is said only of worlds that list the
    answers of its [semDown]s. *)
Definition answered (n : nat) (w : world) : Prop := (n <= List.length (env_down w))%nat.

(** Worlds in which a semaphore operation fails: the wait on
    [wait2Ings[id]], and the signal of [waitCigarette]. *)
Definition w_wait_fails : world := world_of st_empty [(0, idle); (-1, idle)] [].
Definition w_signal_fails : world :=
  mkWorld st_empty "smoker.log" 0 0 [(0, idle)] [0; -1] (repeat (2 ^ 30) 12) 0 0 0 0 1 [].

(** The same failure of the wait, the answers of three [semDown]s being
    listed; and a world in which the mutex is acquired and every draw
    is half of [RAND_MAX + 1]. *)
Definition w_wait_fails_answered : world :=
  world_of st_empty [(0, idle); (-1, idle); (0, idle)] [].
Definition w_half_answered : world := world_of st_empty [(0, idle)] (repeat (2 ^ 30) 24).

(** ** More readings of the trace *)

(** The calls of [usleep] among some events, each with the [double] the
    source passes, and the last snapshot given to [saveState]. *)
Fixpoint sleeps (evs : list obs) : list double :=
  match evs with
  | [] => []
  | OUsleep t :: evs' => t :: sleeps evs'
  | _ :: evs' => sleeps evs'
  end.

Fixpoint last_saved (evs : list obs) : option FULL_STAT :=
  match evs with
  | [] => None
  | OSaveState _ s :: evs' =>
      match last_saved evs' with
      | Some s' => Some s'
      | None => Some s
      end
  | _ :: evs' => last_saved evs'
  end.

(** The numerator of the working time for twelve draws [xs], in units
    of [2^-31]: [100 + 30 * (s - 6)] for the sum [s] of the samples. *)
Definition work_units (xs : list Z) : Z := 30 * total xs - 80 * 2 ^ 31.

(** The conversion of a [double] to [useconds_t] that the call
    [usleep (t)] makes: the fraction is discarded, and the conversion is
    undefined when the integral part is not a value of the type, an
    unsigned integer of 32 bits. *)
Definition truncate (t : double) : option Z :=
  match t with
  | S754_zero _ => Some 0
  | S754_finite s m e =>
      Some (cond_Zopp s (if 0 <=? e then Zpos m * 2 ^ e else Zpos m / 2 ^ (- e)))
  | _ => None
  end.

Definition to_useconds (t : double) : option Z :=
  match truncate t with
  | Some u => if (0 <=? u) && (u <? 2 ^ 32) then Some u else None
  | None => None
  end.

(** Every draw of [random()] is [RAND_MAX]: the working time is just
    below 280. *)
Definition w_most : world := world_of st_empty [] (repeat RAND_MAX 24).

(** ** Counting events *)

Definition count (p : obs -> bool) (evs : list obs) : nat := List.length (filter p evs).

Definition reads_closing (b : bool) (o : obs) : bool :=
  match o with
  | OLoadClosing c => Bool.eqb b c
  | _ => false
  end.

Definition is_ingredient_store (o : obs) : bool :=
  match o with
  | OStoreIngredient _ _ => true
  | _ => false
  end.

Definition is_cigarette_store (o : obs) : bool :=
  match o with
  | OStoreCigarettes _ _ => true
  | _ => false
  end.

Definition is_signal (o : obs) : bool :=
  match o with
  | OSemUp waitCigarette _ => true
  | _ => false
  end.

(** How often the closing flag was read as set and as clear, and the
    numbers of stores to [ingredients], of signals of [waitCigarette]
    and of stores to [nCigarettes]. *)
Definition tally (evs : list obs) : list nat :=
  [count (reads_closing true) evs; count (reads_closing false) evs;
   count is_ingredient_store evs; count is_signal evs; count is_cigarette_store evs].

(** What a finished call did, whatever the world it ran in: when it
    returned [r], its events tally to [expected r]; when the process
    exited, it did so on a failed semaphore operation. *)
Definition accounted {R} (w : world) (expected : R -> list nat) (o : outcome R) : Prop :=
  match o with
  | Returned r w' => exists new, trace w' = new ++ trace w /\ tally (rev new) = expected r
  | Halted (HExit _) _ => exits_on_failure o
  | _ => True
  end.

(** Smoker 0 is supplied once, rolls and smokes, and finds the
    simulation closing when it is woken again. *)
Definition w_one_cycle : world :=
  world_of st_empty
    [(0, idle); (0, supply_smoker0); (0, idle); (0, idle); (0, idle);
     (0, idle); (0, set_closing true); (0, idle)]
    (repeat (2 ^ 30) 24).

(** ** The conduct of a smoker *)

(** What smoker [id] may store: its own status, its own count of
    cigarettes, and the counts of the ingredients other than its own. *)
Definition writes_own (id : Z) (o : obs) : bool :=
  match o with
  | OStoreSmokerStat i _ | OStoreCigarettes i _ => i =? id
  | OStoreIngredient n _ => negb (n =? id)
  | _ => true
  end.

(** A snapshot is saved in the file [f]. *)
Definition saved_under (f : string) (o : obs) : Prop :=
  match o with
  | OSaveState g _ => g = f
  | _ => True
  end.

(** A finished call kept to the protocol of the mutex, stored only what
    smoker [id] may store, left the name of the log file alone and
    saved every snapshot under it; and when it returned, it had
    released the mutex. *)
Definition conducted {R} (id : Z) (w : world) (o : outcome R) : Prop :=
  exists new,
    trace (final_world o) = new ++ trace w /\
    disciplined false (rev new) = true /\
    forallb (writes_own id) (rev new) = true /\
    nFic (final_world o) = nFic w /\
    Forall (saved_under (nFic w)) (rev new) /\
    match o with
    | Returned _ _ => holds_mutex false (rev new) = false
    | _ => True
    end.

(** * Properties *)

(** ** Arithmetic of [double] *)

Unset Implicit Arguments.

(** ** Binary digits *)

Lemma digits_bounds (p : positive) :
  2 ^ (Zpos (digits2_pos p) - 1) <= Zpos p < 2 ^ Zpos (digits2_pos p).
Proof.
  induction p as [p IH|p IH|]; cbn [digits2_pos].
  - rewrite Pos2Z.inj_succ. replace (Z.succ (Zpos (digits2_pos p)) - 1) with (Zpos (digits2_pos p)) by lia.
    rewrite Z.pow_succ_r by lia.
    replace (2 ^ Zpos (digits2_pos p)) with (2 * 2 ^ (Zpos (digits2_pos p) - 1)) in *
      by (rewrite <- Z.pow_succ_r by lia; f_equal; lia).
    lia.
  - rewrite Pos2Z.inj_succ. replace (Z.succ (Zpos (digits2_pos p)) - 1) with (Zpos (digits2_pos p)) by lia.
    rewrite Z.pow_succ_r by lia.
    replace (2 ^ Zpos (digits2_pos p)) with (2 * 2 ^ (Zpos (digits2_pos p) - 1)) in *
      by (rewrite <- Z.pow_succ_r by lia; f_equal; lia).
    lia.
  - cbn. lia.
Qed.

Lemma digits_unique (p : positive) (n : Z) :
  2 ^ (n - 1) <= Zpos p < 2 ^ n -> Zpos (digits2_pos p) = n.
Proof.
  intros [Hlo Hhi]. pose proof (digits_bounds p) as [Hlo' Hhi'].
  assert (0 < n).
  { destruct (Z.ltb_spec 0 n); [assumption|]. exfalso.
    destruct n as [|n|n]; cbn in Hhi; lia. }
  destruct (Z.lt_trichotomy (Zpos (digits2_pos p)) n) as [Hlt|[Heq|Hgt]]; [|assumption|].
  - exfalso. assert (2 ^ Zpos (digits2_pos p) <= 2 ^ (n - 1)) by (apply Z.pow_le_mono_r; lia). lia.
  - exfalso. assert (2 ^ n <= 2 ^ (Zpos (digits2_pos p) - 1)) by (apply Z.pow_le_mono_r; lia). lia.
Qed.

Lemma iter_xO (m n : positive) : Zpos (Pos.iter xO m n) = Zpos m * 2 ^ Zpos n.
Proof.
  induction n as [|n IH] using Pos.peano_ind.
  - cbn. lia.
  - rewrite Pos.iter_succ, Pos2Z.inj_succ, Z.pow_succ_r by lia.
    rewrite Pos2Z.inj_xO, IH. lia.
Qed.

Lemma digits_scaled (p q : positive) (t : Z) :
  0 <= t -> Zpos q = Zpos p * 2 ^ t ->
  Zpos (digits2_pos q) = Zpos (digits2_pos p) + t.
Proof.
  intros Ht Hq. apply digits_unique. rewrite Hq.
  pose proof (digits_bounds p) as [Hlo Hhi].
  replace (Zpos (digits2_pos p) + t - 1) with ((Zpos (digits2_pos p) - 1) + t) by lia.
  rewrite !Z.pow_add_r by lia.
  assert (0 < 2 ^ t) by (apply Z.pow_pos_nonneg; lia).
  split; [apply Z.mul_le_mono_nonneg_r; lia | apply Z.mul_lt_mono_pos_r; lia].
Qed.

(** ** Shifting out zero bits is exact *)

Lemma shr_1_double (q : Z) :
  0 <= q ->
  shr_1 {| shr_m := q * 2; shr_r := false; shr_s := false |}
  = {| shr_m := q; shr_r := false; shr_s := false |}.
Proof.
  intros Hq. destruct q as [|p|p]; [reflexivity| |lia].
  replace (Zpos p * 2) with (Zpos p~0) by lia. reflexivity.
Qed.

Lemma iter_shr_1 (n : positive) :
  forall q, 0 <= q ->
  iter_pos shr_1 n {| shr_m := q * 2 ^ Zpos n; shr_r := false; shr_s := false |}
  = {| shr_m := q; shr_r := false; shr_s := false |}.
Proof.
  induction n as [n IH|n IH|]; intros q Hq; cbn [iter_pos].
  - replace (q * 2 ^ Zpos n~1) with (q * 2 ^ Zpos n * 2 ^ Zpos n * 2).
    + rewrite shr_1_double by (apply Z.mul_nonneg_nonneg; [apply Z.mul_nonneg_nonneg|]; lia).
      rewrite IH by (apply Z.mul_nonneg_nonneg; lia). apply IH. exact Hq.
    + replace (Zpos n~1) with (Zpos n + Zpos n + 1) by lia.
      rewrite !Z.pow_add_r, Z.pow_1_r by lia. lia.
  - replace (q * 2 ^ Zpos n~0) with (q * 2 ^ Zpos n * 2 ^ Zpos n).
    + rewrite IH by (apply Z.mul_nonneg_nonneg; lia). apply IH. exact Hq.
    + replace (Zpos n~0) with (Zpos n + Zpos n) by lia.
      rewrite !Z.pow_add_r by lia. lia.
  - apply shr_1_double. exact Hq.
Qed.

(** A mantissa whose low [n] bits are zero and that has [53 + n] digits
    is brought to 53 digits without loss. *)
Lemma shr_fexp_exact (m M : positive) (e n : Z) :
  0 <= n ->
  Zpos m = Zpos M * 2 ^ n ->
  Zpos (digits2_pos m) = 53 + n ->
  d_emin <= e + n ->
  shr_fexp prec emax (Zpos m) e loc_Exact
  = ({| shr_m := Zpos M; shr_r := false; shr_s := false |}, e + n).
Proof.
  intros Hn Hm Hd He. unfold shr_fexp, fexp, Zdigits2. rewrite Hd.
  replace (Z.max (53 + n + e - prec) (SpecFloat.emin prec emax) - e) with n
    by (unfold SpecFloat.emin, d_emin, emax, prec in *; lia).
  cbn [shr_record_of_loc]. destruct n as [|p|p]; [|cbn [shr]|lia].
  - cbn [shr]. f_equal; [|lia]. f_equal. rewrite Hm. cbn. lia.
  - rewrite Hm, iter_shr_1 by lia. reflexivity.
Qed.

Lemma binary_round_aux_exact (s : bool) (m M : positive) (e n : Z) :
  0 <= n ->
  Zpos m = Zpos M * 2 ^ n ->
  Zpos (digits2_pos m) = 53 + n ->
  d_emin <= e + n <= emax - prec ->
  binary_round_aux prec emax s (Zpos m) e loc_Exact = S754_finite s M (e + n).
Proof.
  intros Hn Hm Hd He. unfold binary_round_aux.
  rewrite (shr_fexp_exact m M e n) by (assumption || lia).
  cbn [shr_m loc_of_shr_record round_nearest_even].
  assert (Zpos (digits2_pos M) = 53) as HdM.
  { pose proof (digits_scaled M m n Hn Hm). lia. }
  rewrite (shr_fexp_exact M M (e + n) 0); try lia.
  - cbn [shr_m]. rewrite Z.add_0_r.
    replace (e + n <=? emax - prec) with true by (symmetry; apply Z.leb_le; lia).
    reflexivity.
Qed.

Lemma binary_round_exact (s : bool) (m k : positive) (e t : Z) :
  0 <= t ->
  Zpos m = Zpos k * 2 ^ t ->
  Zpos (digits2_pos k) <= 53 ->
  d_emin <= e + t + Zpos (digits2_pos k) - 53 <= emax - prec ->
  binary_round prec emax s m e = normal s k (e + t).
Proof.
  intros Ht Hm Hk He. unfold binary_round, normal.
  set (d := Zpos (digits2_pos k)) in *.
  pose proof (digits_scaled k m t Ht Hm) as Hdm. fold d in Hdm.
  assert (0 < Zpos k * 2 ^ (53 - d)) as Hpos.
  { apply Z.mul_pos_pos; [lia|]. apply Z.pow_pos_nonneg; lia. }
  unfold fexp. rewrite Hdm.
  replace (Z.max (d + t + e - prec) (SpecFloat.emin prec emax)) with (d + t + e - 53)
    by (unfold SpecFloat.emin, d_emin, emax, prec in *; lia).
  unfold shl_align.
  destruct (d + t + e - 53 - e) as [|p|p] eqn:Hsh.
  - (* already 53 digits *)
    rewrite (binary_round_aux_exact s m m e 0); try lia.
    + f_equal; [|lia]. replace (53 - d) with t by lia. rewrite <- Hm. reflexivity.
  - (* more than 53 digits: the low bits are shifted out *)
    rewrite (binary_round_aux_exact s m (Z.to_pos (Zpos k * 2 ^ (53 - d))) e (Zpos p)); try lia.
    + f_equal. lia.
    + rewrite Z2Pos.id by exact Hpos. rewrite Hm, <- Z.mul_assoc, <- Z.pow_add_r by lia.
      do 2 f_equal. lia.
  - (* fewer than 53 digits: zero bits are shifted in *)
    rewrite (binary_round_aux_exact s (Pos.iter xO m p) (Pos.iter xO m p) (d + t + e - 53) 0);
      try lia.
    + f_equal; [|lia]. apply Pos2Z.inj. rewrite Z2Pos.id by exact Hpos.
      rewrite iter_xO, Hm, <- Z.mul_assoc, <- Z.pow_add_r by lia. do 2 f_equal. lia.
    + rewrite (digits_scaled m (Pos.iter xO m p) (Zpos p)); [lia|lia|apply iter_xO].
Qed.

(** ** Doubles that are multiples of [2^-31] *)

Lemma dyadic_pos (k : positive) :
  Zpos (digits2_pos k) <= 53 -> dyadic (Zpos k) = normal false k (-31).
Proof.
  intros Hk. unfold dyadic, binary_normalize.
  pose proof (digits_bounds k) as _. assert (0 < Zpos (digits2_pos k)) by lia.
  rewrite (binary_round_exact false k k (-31) 0); try lia.
  - reflexivity.
  - unfold d_emin, emax, prec. lia.
Qed.

Lemma dyadic_neg (k : positive) :
  Zpos (digits2_pos k) <= 53 -> dyadic (Zneg k) = normal true k (-31).
Proof.
  intros Hk. unfold dyadic, binary_normalize.
  assert (0 < Zpos (digits2_pos k)) by lia.
  rewrite (binary_round_exact true k k (-31) 0); try lia.
  - reflexivity.
  - unfold d_emin, emax, prec. lia.
Qed.

Lemma digits_le (k : positive) (n : Z) :
  Zpos k < 2 ^ n -> Zpos (digits2_pos k) <= n.
Proof.
  intros Hk. pose proof (digits_bounds k) as [Hlo _].
  destruct (Z.leb_spec (Zpos (digits2_pos k)) n) as [|Hgt]; [assumption|]. exfalso.
  assert (2 ^ n <= 2 ^ (Zpos (digits2_pos k) - 1)).
  { apply Z.pow_le_mono_r; [lia|]. lia. }
  lia.
Qed.

Lemma shl_align_value (m : positive) (e ez : Z) :
  ez <= e -> Zpos (fst (shl_align m e ez)) = Zpos m * 2 ^ (e - ez).
Proof.
  intros He. unfold shl_align.
  destruct (ez - e) as [|p|p] eqn:Hd; cbn [fst].
  - replace (e - ez) with 0 by lia. cbn. lia.
  - lia.
  - rewrite iter_xO. do 2 f_equal. lia.
Qed.

(** The mantissa of [normal s k e], in terms of [k]. *)
Lemma normal_mantissa (k : positive) :
  Zpos (digits2_pos k) <= 53 ->
  Zpos (Z.to_pos (Zpos k * 2 ^ (53 - Zpos (digits2_pos k))))
  = Zpos k * 2 ^ (53 - Zpos (digits2_pos k)).
Proof.
  intros Hk. apply Z2Pos.id. apply Z.mul_pos_pos; [lia|]. apply Z.pow_pos_nonneg; lia.
Qed.

Lemma aligned (k : positive) (ez : Z) :
  Zpos (digits2_pos k) <= 53 ->
  ez <= -31 + Zpos (digits2_pos k) - 53 ->
  Zpos (fst (shl_align (Z.to_pos (Zpos k * 2 ^ (53 - Zpos (digits2_pos k))))
                       (-31 + Zpos (digits2_pos k) - 53) ez))
  = Zpos k * 2 ^ (-31 - ez).
Proof.
  intros Hk He. rewrite shl_align_value by exact He.
  rewrite normal_mantissa by exact Hk.
  rewrite <- Z.mul_assoc, <- Z.pow_add_r by lia. do 2 f_equal. lia.
Qed.

Lemma dyadic_add (a b : Z) :
  0 <= a -> 0 <= b -> a + b < 2 ^ 53 ->
  d_add (dyadic a) (dyadic b) = dyadic (a + b).
Proof.
  intros Ha Hb Hab.
  destruct a as [|ka|ka]; [|destruct b as [|kb|kb]|]; try lia.
  - destruct b as [|kb|kb]; [reflexivity| |lia].
    rewrite Z.add_0_l, dyadic_pos by (apply digits_le; lia). reflexivity.
  - rewrite Z.add_0_r, dyadic_pos by (apply digits_le; lia). reflexivity.
  - assert (Zpos (digits2_pos ka) <= 53) as Hda by (apply digits_le; lia).
    assert (Zpos (digits2_pos kb) <= 53) as Hdb by (apply digits_le; lia).
    rewrite !dyadic_pos by assumption.
    unfold d_add, normal, SFadd. cbv zeta. cbn [cond_Zopp].
    set (ea := -31 + Zpos (digits2_pos ka) - 53).
    set (eb := -31 + Zpos (digits2_pos kb) - 53).
    assert (0 < Zpos (digits2_pos ka)) by lia. assert (0 < Zpos (digits2_pos kb)) by lia.
    pose proof (aligned ka (Z.min ea eb) Hda ltac:(lia)) as Aa.
    pose proof (aligned kb (Z.min ea eb) Hdb ltac:(lia)) as Ab.
    fold ea in Aa. fold eb in Ab. rewrite Aa, Ab.
    rewrite <- Z.mul_add_distr_r.
    change (Zpos ka + Zpos kb) with (Zpos (ka + kb)).
    assert (0 < 2 ^ (-31 - Z.min ea eb)) as Hpow by (apply Z.pow_pos_nonneg; lia).
    destruct (Zpos (ka + kb) * 2 ^ (-31 - Z.min ea eb)) as [|M|M] eqn:HM; try lia.
    cbn [binary_normalize].
    assert (Zpos (digits2_pos (ka + kb)) <= 53) as Hd by (apply digits_le; lia).
    assert (0 < Zpos (digits2_pos (ka + kb))) by lia.
    rewrite (binary_round_exact false M (ka + kb) (Z.min ea eb) (-31 - Z.min ea eb));
      try lia.
    + rewrite dyadic_pos by exact Hd. f_equal. lia.
    + unfold d_emin, emax, prec. lia.
Qed.

Lemma dyadic_sub (a b : Z) :
  0 <= a < 2 ^ 53 -> 0 < b < 2 ^ 53 ->
  d_sub (dyadic a) (dyadic b) = dyadic (a - b).
Proof.
  intros Ha Hb.
  destruct b as [|kb|kb]; try lia.
  assert (Zpos (digits2_pos kb) <= 53) as Hdb by (apply digits_le; lia).
  assert (0 < Zpos (digits2_pos kb)) by lia.
  destruct a as [|ka|ka]; try lia.
  - rewrite Z.sub_0_l. change (- Zpos kb) with (Zneg kb).
    rewrite dyadic_pos, dyadic_neg by assumption. reflexivity.
  - assert (Zpos (digits2_pos ka) <= 53) as Hda by (apply digits_le; lia).
    assert (0 < Zpos (digits2_pos ka)) by lia.
    rewrite !dyadic_pos by assumption.
    unfold d_sub, normal, SFsub. cbv zeta. cbn [cond_Zopp].
    set (ea := -31 + Zpos (digits2_pos ka) - 53).
    set (eb := -31 + Zpos (digits2_pos kb) - 53).
    pose proof (aligned ka (Z.min ea eb) Hda ltac:(lia)) as Aa.
    pose proof (aligned kb (Z.min ea eb) Hdb ltac:(lia)) as Ab.
    fold ea in Aa. fold eb in Ab. rewrite Aa, Ab.
    rewrite <- Z.mul_sub_distr_r.
    assert (0 < 2 ^ (-31 - Z.min ea eb)) as Hpow by (apply Z.pow_pos_nonneg; lia).
    destruct (Zpos ka - Zpos kb) as [|k|k] eqn:Hk.
    + reflexivity.
    + assert (Zpos (digits2_pos k) <= 53) as Hd by (apply digits_le; lia).
      assert (0 < Zpos (digits2_pos k)) by lia.
      destruct (Zpos k * 2 ^ (-31 - Z.min ea eb)) as [|M|M] eqn:HM; try lia.
      cbn [binary_normalize].
      rewrite (binary_round_exact false M k (Z.min ea eb) (-31 - Z.min ea eb)); try lia.
      * rewrite dyadic_pos by exact Hd. f_equal. lia.
      * unfold d_emin, emax, prec. lia.
    + assert (Zpos (digits2_pos k) <= 53) as Hd by (apply digits_le; lia).
      assert (0 < Zpos (digits2_pos k)) by lia.
      destruct (Zneg k * 2 ^ (-31 - Z.min ea eb)) as [|M|M] eqn:HM; try lia.
      cbn [binary_normalize].
      rewrite (binary_round_exact true M k (Z.min ea eb) (-31 - Z.min ea eb)); try lia.
      * rewrite dyadic_neg by exact Hd. f_equal. lia.
      * unfold d_emin, emax, prec. lia.
Qed.

(** ** The uniform samples *)

Lemma rand_max_plus_one : d_add (of_long RAND_MAX) (of_long 1) = two_31.
Proof. vm_compute. reflexivity. Qed.

Lemma of_long_pos (k : positive) :
  Zpos (digits2_pos k) <= 53 -> of_long (Zpos k) = normal false k 0.
Proof.
  intros Hk. unfold of_long, binary_normalize.
  assert (0 < Zpos (digits2_pos k)) by lia.
  rewrite (binary_round_exact false k k 0 0); try lia.
  - reflexivity.
  - unfold d_emin, emax, prec. lia.
Qed.

Lemma normal_digits (k : positive) :
  Zpos (digits2_pos k) <= 53 ->
  Zpos (digits2_pos (Z.to_pos (Zpos k * 2 ^ (53 - Zpos (digits2_pos k))))) = 53.
Proof.
  intros Hk.
  rewrite (digits_scaled k _ (53 - Zpos (digits2_pos k))); [lia|lia|].
  apply normal_mantissa. exact Hk.
Qed.

(** Dividing a normal double by [2^31] lowers its exponent by 31. *)
Lemma div_two_31 (m : positive) (e : Z) :
  Zpos (digits2_pos m) = 53 ->
  -900 <= e <= 900 ->
  d_div (S754_finite false m e) two_31 = S754_finite false m (e - 31).
Proof.
  intros Hm He. unfold d_div, two_31, SFdiv, SFdiv_core_binary. cbv zeta.
  unfold Zdigits2. rewrite Hm.
  change (Zpos (digits2_pos 4503599627370496)) with 53.
  unfold fexp.
  replace (Z.min (Z.max (53 + e - (53 + -21) - prec) (SpecFloat.emin prec emax)) (e - -21))
    with (e - 32) by (unfold SpecFloat.emin, emax, prec; lia).
  replace (e - -21 - (e - 32)) with 53 by lia.
  rewrite Z.shiftl_mul_pow2 by lia.
  replace (Z.div_eucl (Zpos m * 2 ^ 53) 4503599627370496) with (Zpos m~0, 0).
  - cbn [xorb]. change (new_location 4503599627370496 0) with loc_Exact.
    rewrite (binary_round_aux_exact false m~0 m (e - 32) 1); try lia.
    + f_equal. lia.
    + cbn [digits2_pos]. rewrite Pos2Z.inj_succ. lia.
    + unfold d_emin, emax, prec. lia.
  - pose proof (Z.div_eucl_eq (Zpos m * 2 ^ 53) 4503599627370496 ltac:(lia)) as Heq.
    pose proof (Z.mod_pos_bound (Zpos m * 2 ^ 53) 4503599627370496 ltac:(lia)) as Hmod.
    unfold Z.modulo in Hmod.
    destruct (Z.div_eucl (Zpos m * 2 ^ 53) 4503599627370496) as [q r].
    change (2 ^ 53) with (2 * 4503599627370496) in Heq.
    assert (r = 0) by lia. assert (q = Zpos m~0) by lia. subst. reflexivity.
Qed.

Lemma uniform_dyadic (x : Z) : 0 <= x < 2 ^ 53 -> uniform x = dyadic x.
Proof.
  intros Hx. unfold uniform. rewrite rand_max_plus_one.
  destruct x as [|k|k]; [reflexivity| |lia].
  assert (Zpos (digits2_pos k) <= 53) as Hk by (apply digits_le; lia).
  assert (0 < Zpos (digits2_pos k)) by lia.
  rewrite of_long_pos, dyadic_pos by exact Hk. unfold normal.
  rewrite div_two_31; [f_equal; lia|apply normal_digits; exact Hk|lia].
Qed.

(** The samples lie in [[0, 1)]. *)
Lemma uniform_range (x : Z) :
  0 <= x <= RAND_MAX ->
  SFleb d_zero (uniform x) = true /\ SFltb (uniform x) (of_long 1) = true.
Proof.
  intros Hx. unfold RAND_MAX in Hx. rewrite uniform_dyadic by lia.
  destruct x as [|k|k]; [split; reflexivity| |lia].
  assert (Zpos (digits2_pos k) <= 31) as Hk by (apply digits_le; lia).
  rewrite dyadic_pos by lia. unfold normal. split; [reflexivity|].
  change (of_long 1) with (S754_finite false 4503599627370496 (-52)).
  unfold SFltb, SFcompare.
  replace (-31 + Zpos (digits2_pos k) - 53 ?= -52) with Lt
    by (symmetry; apply Z.compare_lt_iff; lia).
  reflexivity.
Qed.

(** ** The sum of the samples and [normalRand] *)

Lemma total_bounds (xs : list Z) :
  drawn xs -> 0 <= total xs <= Z.of_nat (List.length xs) * RAND_MAX.
Proof.
  induction 1 as [|x xs Hx _ IH]; cbn [total List.length]; [lia|].
  rewrite Nat2Z.inj_succ. unfold RAND_MAX in *. lia.
Qed.

Lemma sum_samples_dyadic (xs : list Z) :
  forall a, drawn xs -> 0 <= a -> a + Z.of_nat (List.length xs) * RAND_MAX < 2 ^ 53 ->
  sum_samples xs (dyadic a) = dyadic (a + total xs).
Proof.
  induction xs as [|x xs IH]; intros a Hxs Ha Hb; cbn [sum_samples total].
  - rewrite Z.add_0_r. reflexivity.
  - inversion Hxs as [|y ys Hx Hxs']; subst.
    pose proof (total_bounds xs Hxs') as Ht.
    cbn [List.length] in Hb. rewrite Nat2Z.inj_succ in Hb. unfold RAND_MAX in *.
    rewrite uniform_dyadic by lia.
    rewrite dyadic_add by lia.
    rewrite IH by (assumption || lia). f_equal. lia.
Qed.

(** [normalRand]'s value is exact up to the last product: the sum of the
    twelve samples and the subtraction of 6 are not rounded. *)
Lemma normal_of_dyadic (xs : list Z) (stddev : double) :
  drawn xs -> List.length xs = 12%nat ->
  normal_of xs stddev = d_mul (dyadic (total xs - 6 * 2 ^ 31)) stddev.
Proof.
  intros Hxs Hlen. unfold normal_of.
  change d_zero with (dyadic 0).
  rewrite sum_samples_dyadic; [|assumption|lia|rewrite Hlen; unfold RAND_MAX; lia].
  change (of_long 6) with (dyadic (6 * 2 ^ 31)).
  pose proof (total_bounds xs Hxs) as Ht. rewrite Hlen in Ht. unfold RAND_MAX in Ht.
  rewrite Z.add_0_l, dyadic_sub by lia. reflexivity.
Qed.

Lemma dyadic_times_zero (k : Z) :
  - 2 ^ 53 < k < 2 ^ 53 ->
  d_mul (dyadic k) d_zero = S754_zero (k <? 0).
Proof.
  intros Hk. destruct k as [|p|p].
  - reflexivity.
  - rewrite dyadic_pos by (apply digits_le; lia). reflexivity.
  - rewrite dyadic_neg by (apply digits_le; lia). reflexivity.
Qed.

Lemma normal_of_zero (xs : list Z) :
  drawn xs -> List.length xs = 12%nat ->
  normal_of xs d_zero = S754_zero (total xs <? 6 * 2 ^ 31) /\
  SFeqb (normal_of xs d_zero) d_zero = true.
Proof.
  intros Hxs Hlen. rewrite normal_of_dyadic by assumption.
  pose proof (total_bounds xs Hxs) as Ht. rewrite Hlen in Ht. unfold RAND_MAX in Ht.
  rewrite dyadic_times_zero by lia. split; [|reflexivity].
  f_equal. destruct (Z.ltb_spec (total xs) (6 * 2 ^ 31)); destruct (Z.ltb_spec (total xs - 6 * 2 ^ 31) 0); lia || reflexivity.
Qed.

(** ** The working time *)

Lemma digits_mul (k b : positive) :
  Zpos (digits2_pos k) + Zpos (digits2_pos b) - 1 <= Zpos (digits2_pos (k * b)).
Proof.
  pose proof (digits_bounds k) as [Hk _]. pose proof (digits_bounds b) as [Hb _].
  pose proof (digits_bounds (k * b)) as [_ Hkb].
  assert (0 < Zpos (digits2_pos k)) by lia. assert (0 < Zpos (digits2_pos b)) by lia.
  destruct (Z.leb_spec (Zpos (digits2_pos k) + Zpos (digits2_pos b) - 1)
                       (Zpos (digits2_pos (k * b)))) as [|Hlt]; [assumption|exfalso].
  assert (2 ^ (Zpos (digits2_pos k) - 1) * 2 ^ (Zpos (digits2_pos b) - 1) <= Zpos k * Zpos b)
    as Hprod.
  { apply Z.mul_le_mono_nonneg; try assumption; apply Z.pow_nonneg; lia. }
  rewrite <- Z.pow_add_r in Hprod by lia.
  assert (2 ^ Zpos (digits2_pos (k * b))
          <= 2 ^ (Zpos (digits2_pos k) - 1 + (Zpos (digits2_pos b) - 1))).
  { apply Z.pow_le_mono_r; lia. }
  rewrite Pos2Z.inj_mul in Hkb. lia.
Qed.

(** The product of a multiple of [2^-31] and an integer is exact when
    it fits in 53 digits. *)
Lemma normal_mul (s : bool) (k b : positive) :
  Zpos k * Zpos b < 2 ^ 53 ->
  d_mul (normal s k (-31)) (normal false b 0) = normal s (k * b) (-31).
Proof.
  intros Hkb.
  assert (Zpos (digits2_pos (k * b)) <= 53) as Hd by (apply digits_le; lia).
  pose proof (digits_mul k b) as Hm.
  pose proof (digits_bounds k) as _. pose proof (digits_bounds b) as _.
  assert (0 < Zpos (digits2_pos k)) as Hk0 by lia.
  assert (0 < Zpos (digits2_pos b)) as Hb0 by lia.
  assert (Zpos (digits2_pos k) <= 53) as Hdk by lia.
  assert (Zpos (digits2_pos b) <= 53) as Hdb by lia.
  unfold d_mul, normal, SFmul.
  set (dk := Zpos (digits2_pos k)) in *. set (db := Zpos (digits2_pos b)) in *.
  set (dkb := Zpos (digits2_pos (k * b))) in *.
  replace (xorb s false) with s by (destruct s; reflexivity).
  rewrite (binary_round_aux_exact s _ (Z.to_pos (Zpos (k * b) * 2 ^ (53 - dkb)))
             _ (53 - dk - db + dkb)).
  - f_equal. lia.
  - lia.
  - rewrite Pos2Z.inj_mul.
    pose proof (normal_mantissa k Hdk) as Ek. pose proof (normal_mantissa b Hdb) as Eb.
    pose proof (normal_mantissa (k * b) Hd) as Ekb.
    fold dk in Ek. fold db in Eb. fold dkb in Ekb. rewrite Ek, Eb, Ekb.
    rewrite Pos2Z.inj_mul.
    replace (2 ^ (53 - dk)) with (2 ^ (53 - dkb) * 2 ^ (dkb - dk))
      by (rewrite <- Z.pow_add_r by lia; f_equal; lia).
    replace (2 ^ (53 - dk - db + dkb)) with (2 ^ (dkb - dk) * 2 ^ (53 - db))
      by (rewrite <- Z.pow_add_r by lia; f_equal; lia).
    ring.
  - pose proof (normal_digits (k * b) Hd) as HdM. fold dkb in HdM.
    rewrite (digits_scaled (Z.to_pos (Zpos (k * b) * 2 ^ (53 - dkb))) _ (53 - dk - db + dkb)).
    + lia.
    + lia.
    + rewrite Pos2Z.inj_mul.
      pose proof (normal_mantissa k Hdk) as Ek. pose proof (normal_mantissa b Hdb) as Eb.
      pose proof (normal_mantissa (k * b) Hd) as Ekb.
      fold dk in Ek. fold db in Eb. fold dkb in Ekb. rewrite Ek, Eb, Ekb.
      rewrite Pos2Z.inj_mul.
      replace (2 ^ (53 - dk)) with (2 ^ (53 - dkb) * 2 ^ (dkb - dk))
        by (rewrite <- Z.pow_add_r by lia; f_equal; lia).
      replace (2 ^ (53 - dk - db + dkb)) with (2 ^ (dkb - dk) * 2 ^ (53 - db))
        by (rewrite <- Z.pow_add_r by lia; f_equal; lia).
      ring.
  - unfold d_emin, emax, prec. lia.
Qed.

Lemma dyadic_mul_long (a : Z) (b : positive) :
  Zpos b < 2 ^ 53 -> - 2 ^ 53 < a * Zpos b < 2 ^ 53 ->
  d_mul (dyadic a) (of_long (Zpos b)) = dyadic (a * Zpos b).
Proof.
  intros Hb Hab.
  rewrite of_long_pos by (apply digits_le; lia).
  destruct a as [|k|k].
  - reflexivity.
  - change (Zpos k * Zpos b) with (Zpos (k * b)).
    rewrite !dyadic_pos by (apply digits_le; lia).
    apply normal_mul. lia.
  - change (Zneg k * Zpos b) with (Zneg (k * b)).
    rewrite !dyadic_neg by (apply digits_le; lia).
    apply normal_mul. lia.
Qed.

Lemma dyadic_add_neg (a b : Z) :
  0 <= a < 2 ^ 53 -> 0 < b < 2 ^ 53 ->
  d_add (dyadic a) (dyadic (- b)) = dyadic (a - b).
Proof.
  intros Ha Hb. rewrite <- dyadic_sub by assumption.
  destruct b as [|kb|kb]; try lia.
  change (- Zpos kb) with (Zneg kb).
  rewrite dyadic_pos, dyadic_neg by (apply digits_le; lia).
  destruct a as [|ka|ka]; try lia.
  - reflexivity.
  - rewrite dyadic_pos by (apply digits_le; lia). reflexivity.
Qed.

(** A multiple of [2^-31] is greater than zero when its numerator is. *)
Lemma dyadic_gt_zero (k : Z) :
  - 2 ^ 53 < k < 2 ^ 53 -> d_gt (dyadic k) d_zero = (0 <? k).
Proof.
  intros Hk. destruct k as [|p|p].
  - reflexivity.
  - rewrite dyadic_pos by (apply digits_le; lia). reflexivity.
  - rewrite dyadic_neg by (apply digits_le; lia). reflexivity.
Qed.

(** [100.0 + normalRand (30.0)] is not rounded: it is
    [100 + 30 * (s - 6)] for the sum [s] of the twelve samples. *)
Lemma work_time_exact (xs : list Z) :
  drawn xs -> List.length xs = 12%nat ->
  work_time xs = dyadic (30 * total xs - 80 * 2 ^ 31).
Proof.
  intros Hxs Hlen. unfold work_time. rewrite normal_of_dyadic by assumption.
  pose proof (total_bounds xs Hxs) as Ht. rewrite Hlen in Ht. unfold RAND_MAX in Ht.
  change (of_long 30) with (of_long (Zpos 30)).
  rewrite dyadic_mul_long by lia.
  change (of_long 100) with (dyadic (100 * 2 ^ 31)).
  destruct (Z.leb_spec 0 ((total xs - 6 * 2 ^ 31) * 30)) as [Hs|Hs].
  - rewrite dyadic_add by lia. f_equal. lia.
  - replace ((total xs - 6 * 2 ^ 31) * 30) with (- ((6 * 2 ^ 31 - total xs) * 30)) by lia.
    rewrite dyadic_add_neg by lia. f_equal. lia.
Qed.

Set Implicit Arguments.

(** ** Reasoning about runs *)

Lemma run_S {R} n (t : itree smokerE R) w :
  run (S n) t w =
  match observe t with
  | RetF r => Returned r w
  | TauF t' => run n t' w
  | VisF e k =>
      match handle e w with
      | Next x w' => run n (k x) w'
      | Halt h w' => Halted h w'
      end
  end.
Proof. reflexivity. Qed.

Lemma run_observe {R} (t t' : itree smokerE R) n w :
  observe t = observe t' -> run n t w = run n t' w.
Proof.
  intros H. destruct n as [|n]; simpl; [reflexivity|]. now rewrite H.
Qed.

Lemma run_more {R} n : forall (t : itree smokerE R) w o k,
  run n t w = o -> finished o -> run (n + k) t w = o.
Proof.
  induction n as [|n IH]; intros t w o k Hrun Hfin.
  - simpl in Hrun. subst o. destruct Hfin.
  - simpl in *. destruct (observe t) as [r|t'|X e h]; auto.
    destruct (handle e w); auto.
Qed.

Lemma run_le {R} n m (t : itree smokerE R) w o :
  run n t w = o -> finished o -> (n <= m)%nat -> run m t w = o.
Proof.
  intros Hrun Hfin Hle. replace m with (n + (m - n))%nat by lia.
  now apply run_more.
Qed.

Lemma run_runs_to {R} n (t : itree smokerE R) w o :
  run n t w = o -> finished o -> runs_to t w o.
Proof.
  intros Hrun Hfin. split; [assumption|].
  exists n. intros m Hm. eapply run_le; eauto.
Qed.

Lemma runs_to_run {R} (t : itree smokerE R) w o :
  runs_to t w o -> exists n, run n t w = o /\ finished o.
Proof.
  intros [Hfin [N H]]. exists N. split; auto.
Qed.

Lemma runs_to_unique {R} (t : itree smokerE R) w o o' :
  runs_to t w o -> runs_to t w o' -> o = o'.
Proof.
  intros [_ [N H]] [_ [N' H']].
  rewrite <- (H (Nat.max N N')), <- (H' (Nat.max N N')) by lia. reflexivity.
Qed.

(** Sequencing: [x <- t;; k x] runs [t], then [k] on its result. *)
Lemma run_bind_returned {A B} (k : A -> itree smokerE B) n :
  forall (t : itree smokerE A) w x w1 m o,
    run n t w = Returned x w1 -> run m (k x) w1 = o -> finished o ->
    run (n + m) (ITree.bind t k) w = o.
Proof.
  induction n as [|n IH]; intros t w x w1 m o Ht Hk Hfin; [discriminate|].
  rewrite run_S in Ht. change (S n + m)%nat with (S (n + m)).
  rewrite run_S, observe_bind.
  destruct (observe t) as [r|t'|X e h].
  - injection Ht as -> ->.
    rewrite <- run_S.
    eapply run_le; eauto. lia.
  - cbn. eapply IH; eauto.
  - cbn. destruct (handle e w) as [y w'|hh w']; [|discriminate].
    eapply IH; eauto.
Qed.

Lemma run_bind_halted {A B} (k : A -> itree smokerE B) n :
  forall (t : itree smokerE A) w h w1,
    run n t w = Halted h w1 -> run n (ITree.bind t k) w = Halted h w1.
Proof.
  induction n as [|n IH]; intros t w h w1 Ht; [discriminate|].
  rewrite run_S in Ht. rewrite run_S, observe_bind.
  destruct (observe t) as [r|t'|X e g]; [discriminate| |].
  - cbn. auto.
  - cbn. destruct (handle e w) as [y w'|hh w']; [apply IH; exact Ht|].
    injection Ht as -> ->. reflexivity.
Qed.

Lemma runs_to_bind {A B} (t : itree smokerE A) (k : A -> itree smokerE B) w x w1 o :
  runs_to t w (Returned x w1) -> runs_to (k x) w1 o ->
  runs_to (ITree.bind t k) w o.
Proof.
  intros Ht Hk.
  destruct (runs_to_run Ht) as [n [Hn _]].
  destruct (runs_to_run Hk) as [m [Hm Hfin]].
  eapply run_runs_to; [|exact Hfin].
  eapply run_bind_returned; eauto.
Qed.

Lemma runs_to_bind_halted {A B} (t : itree smokerE A) (k : A -> itree smokerE B) w h w1 :
  runs_to t w (Halted h w1) -> runs_to (ITree.bind t k) w (Halted h w1).
Proof.
  intros Ht. destruct (runs_to_run Ht) as [n [Hn _]].
  eapply run_runs_to; [|exact I]. eapply run_bind_halted; eauto.
Qed.

(** Every finished run of [x <- t;; k x] is one of the two above. *)
Lemma run_bind_inv {A B} (k : A -> itree smokerE B) n :
  forall (t : itree smokerE A) w o,
    run n (ITree.bind t k) w = o -> finished o ->
    (exists x w1, run n t w = Returned x w1 /\ run n (k x) w1 = o) \/
    (exists h w1, run n t w = Halted h w1 /\ o = Halted h w1).
Proof.
  induction n as [|n IH]; intros t w o Hrun Hfin.
  - simpl in Hrun. subst o. destruct Hfin.
  - rewrite run_S, observe_bind in Hrun. rewrite run_S.
    destruct (observe t) as [r|t'|X e g].
    + left. exists r, w. split; [reflexivity|]. rewrite run_S. exact Hrun.
    + cbn in Hrun. destruct (IH _ _ _ Hrun Hfin) as [[x [w1 [H1 H2]]]|[h [w1 [H1 H2]]]].
      * left. exists x, w1. split; [exact H1|].
        eapply run_le; eauto.
      * right. exists h, w1. auto.
    + cbn in Hrun. destruct (handle e w) as [y w'|hh w'].
      * destruct (IH _ _ _ Hrun Hfin) as [[x [w1 [H1 H2]]]|[h [w1 [H1 H2]]]].
        -- left. exists x, w1. split; [exact H1|]. eapply run_le; eauto.
        -- right. exists h, w1. auto.
      * right. exists hh, w'. auto.
Qed.

Lemma run_bind_ret {A B} n (x : A) (k : A -> itree smokerE B) w :
  run n (ITree.bind (Ret x) k) w = run n (k x) w.
Proof. apply run_observe. reflexivity. Qed.

Lemma run_bind_trigger {X B} n (e : smokerE X) (k : X -> itree smokerE B) w :
  run (S n) (ITree.bind (ITree.trigger e) k) w =
  match handle e w with
  | Next x w' => run n (k x) w'
  | Halt h w' => Halted h w'
  end.
Proof.
  rewrite run_S, observe_bind. cbn.
  destruct (handle e w); [apply run_bind_ret | reflexivity].
Qed.

Lemma run_bind_bind {A B C} n :
  forall (t : itree smokerE A) (k : A -> itree smokerE B) (h : B -> itree smokerE C) w,
    run n (ITree.bind (ITree.bind t k) h) w =
    run n (ITree.bind t (fun x => ITree.bind (k x) h)) w.
Proof.
  induction n as [|n IH]; intros t k h w; [reflexivity|].
  rewrite !run_S, !observe_bind.
  destruct (observe t) as [r|t'|X e g]; cbn.
  - rewrite <- !run_S. reflexivity.
  - apply IH.
  - destruct (handle e w); [apply IH | reflexivity].
Qed.

Lemma run_trigger {X} n (e : smokerE X) w :
  run (S (S n)) (ITree.trigger e) w =
  match handle e w with
  | Next x w' => Returned x w'
  | Halt h w' => Halted h w'
  end.
Proof. rewrite run_S. cbn. destruct (handle e w); reflexivity. Qed.

Lemma run_ret {A} n (x : A) w : run (S n) (Ret x : itree smokerE A) w = Returned x w.
Proof. reflexivity. Qed.

Lemma hd_nth {A} (d : A) l : hd d l = nth 0 l d.
Proof. destruct l; reflexivity. Qed.

Lemma nth_tl {A} (d : A) k l : nth k (tl l) d = nth (S k) l d.
Proof. destruct l; [destruct k|]; reflexivity. Qed.

Lemma forallb_nth {A} (p : A -> bool) (d : A) l :
  forallb p l = true -> p d = true -> forall k, p (nth k l d) = true.
Proof.
  intros Hl Hd. induction l as [|x l IH]; intros [|k]; simpl in *; auto;
    apply andb_prop in Hl as [Hx Hl]; auto.
Qed.

Lemma reliable_down w : reliable w = true -> forall k, rc_down k w <> -1.
Proof.
  intros H k. apply andb_prop in H as [H _].
  pose proof (forallb_nth (fun d => negb (fst d =? -1)) (0, fun st => st) _ H eq_refl k) as Hk.
  apply negb_true_iff, Z.eqb_neq in Hk. exact Hk.
Qed.

Lemma reliable_up w : reliable w = true -> forall k, rc_up k w <> -1.
Proof.
  intros H k. apply andb_prop in H as [_ H].
  pose proof (forallb_nth (fun rc => negb (rc =? -1)) 0 _ H eq_refl k) as Hk.
  apply negb_true_iff, Z.eqb_neq in Hk. exact Hk.
Qed.

(** ** Stepping through a run *)

Ltac world_simpl :=
  cbn [fSt nFic semgid shmid env_down env_up env_random env_semConnect env_shmemConnect
       env_shmemAttach env_shmemDettach env_pid trace
       set_fSt set_nFic set_semgid set_shmid set_env_down set_env_up set_env_random log
       smokerStat ingredients nCigarettes closing
       set_smokerStat set_ingredients set_nCigarettes set_closing
       handle stored loaded load store cell0 cell1 cell2] in *;
  rewrite ?hd_nth, ?nth_tl in *;
  repeat match goal with
  | |- context [fst (nth ?k (env_down ?w) _)] =>
      change (fst (nth k (env_down w) (0, fun st => st))) with (rc_down k w)
  | |- context [snd (nth ?k (env_down ?w) _)] =>
      change (snd (nth k (env_down w) (0, fun st => st))) with (others k w)
  | |- context [nth ?k (env_up ?w) 0] =>
      change (nth k (env_up w) 0) with (rc_up k w)
  | |- context [nth ?k (env_random ?w) 0] =>
      change (nth k (env_random w) 0) with (draw k w)
  end.

(** A test on the smoker's id computes; any other test is split. *)
Ltac known_test c :=
  match goal with
  | H : ?c' = _ |- _ => constr_eq c c'; rewrite H; cbv iota
  end.

Ltac decide_test c :=
  first
    [ known_test c
    | lazymatch c with
      | negb (Z.eqb _ _) =>
          first [ change c with true; cbv iota
                | change c with false; cbv iota
                | destruct c eqn:? ]
      | _ => destruct c eqn:?
      end ].

Ltac run_step :=
  match goal with
  | |- context [run _ (ITree.bind (ITree.bind _ _) _) _] => rewrite run_bind_bind
  | |- context [run _ (ITree.bind (Ret _) _) _] => rewrite run_bind_ret
  | |- context [run (S _) (ITree.bind (ITree.trigger _) _) _] =>
      rewrite run_bind_trigger; world_simpl
  | |- context [run (S _) (ITree.trigger _) _] => rewrite run_trigger; world_simpl
  | |- context [run (S _) (Ret _) _] => rewrite run_ret
  | |- context [run _ (ITree.bind (if ?c then _ else _) _) _] => decide_test c
  | |- context [run _ (if ?c then _ else _) _] => decide_test c
  | |- context [run _ (ITree.bind (match ?c with Some _ => _ | None => _ end) _) _] =>
      destruct c eqn:?
  | |- context [run _ (match ?c with Some _ => _ | None => _ end) _] =>
      destruct c eqn:?
  end.

Ltac unreliable :=
  match goal with
  | H : (rc_down ?k ?w =? -1) = true, R : forall k, rc_down k ?w <> -1 |- _ =>
      exfalso; apply Z.eqb_eq in H; exact (R k H)
  | H : (rc_up ?k ?w =? -1) = true, R : forall k, rc_up k ?w <> -1 |- _ =>
      exfalso; apply Z.eqb_eq in H; exact (R k H)
  end.

Ltac run_steps := repeat (run_step; try unreliable).

Ltac three_ids id H :=
  unfold NUMSMOKERS in H;
  assert (id = 0 \/ id = 1 \/ id = 2) as [-> | [-> | ->]] by lia.

Ltac open_calls :=
  unfold waitForIngredients, woken, dec_ingredient, rollingCigarette, smoke,
    inc_cigarettes, normalRand, die, undefined;
  change (Z.to_nat (3 - 0)) with 3%nat; cbn [consume sum_uniform Z.add Pos.add Pos.succ];
  unfold dec_ingredient, undefined.

Lemma int_sub_1 v : INT_MIN < v <= INT_MAX -> int_sub v 1 = Some (v - 1).
Proof.
  intros H. unfold int_sub, in_int.
  replace (INT_MIN <=? v - 1) with true by (symmetry; apply Z.leb_le; lia).
  replace (v - 1 <=? INT_MAX) with true by (symmetry; apply Z.leb_le; lia).
  reflexivity.
Qed.

Lemma int_add_1 v : INT_MIN <= v < INT_MAX -> int_add v 1 = Some (v + 1).
Proof.
  intros H. unfold int_add, in_int.
  replace (INT_MIN <=? v + 1) with true by (symmetry; apply Z.leb_le; lia).
  replace (v + 1 <=? INT_MAX) with true by (symmetry; apply Z.leb_le; lia).
  reflexivity.
Qed.

Lemma since_app (w w' : world) (new : list obs) :
  trace w' = new ++ trace w -> since w w' = rev new.
Proof.
  intros H. unfold since. rewrite H, length_app.
  replace (List.length new + List.length (trace w) - List.length (trace w))%nat
    with (List.length new + 0)%nat by lia.
  rewrite firstn_app_2. cbn [firstn]. rewrite app_nil_r. reflexivity.
Qed.

(** ** [waitForIngredients] *)

Lemma load_cases a j v :
  load a j = Some v ->
  (j = 0 /\ v = cell0 a) \/ (j = 1 /\ v = cell1 a) \/ (j = 2 /\ v = cell2 a).
Proof.
  unfold load. intros H.
  destruct j as [|p|p]; [|destruct p as [p|p|]; [destruct p|destruct p|]|];
    try discriminate; injection H as <-; auto.
Qed.

Ltac int_facts :=
  repeat match goal with
  | H : int_sub ?v 1 = _ |- _ =>
      rewrite int_sub_1 in H by (assumption || lia);
      first [ discriminate H | injection H as <- ]
  | H : int_add ?v 1 = _ |- _ =>
      rewrite int_add_1 in H by (assumption || lia);
      first [ discriminate H | injection H as <- ]
  end.

(** Woken with the closing flag set: the smoker records [CLOSING_S] and
    returns [false]; nothing else of the shared region changes. *)
Lemma wait_run_closing (id : Z) (w : world) :
  0 <= id < NUMSMOKERS ->
  reliable w = true ->
  closing (at_wake_up id w) = true ->
  exists w',
    runs_to (waitForIngredients id) w (Returned false w') /\
    fSt w' = set_status id CLOSING_S (at_wake_up id w) /\
    trace w' =
      rev [OSemDown mutex (rc_down 0 w);
           OStoreSmokerStat id WAITING_2ING;
           OSaveState (nFic w) (set_status id WAITING_2ING (others 0 w (fSt w)));
           OSemUp mutex (rc_up 0 w);
           OSemDown (wait2Ings id) (rc_down 1 w);
           OSemDown mutex (rc_down 2 w);
           OLoadClosing true;
           OStoreSmokerStat id CLOSING_S;
           OSaveState (nFic w) (set_status id CLOSING_S (at_wake_up id w));
           OSemUp mutex (rc_up 1 w)]
      ++ trace w.
Proof.
  intros Hid Hrel Hc.
  pose proof (reliable_down w Hrel) as Hd. pose proof (reliable_up w Hrel) as Hu.
  unfold at_wake_up, set_status in *.
  three_ids id Hid; world_simpl.
  all: eexists; split;
    [apply (run_runs_to 40); [|exact I]; open_calls; run_steps;
     try discriminate; reflexivity|].
  all: world_simpl; split; reflexivity.
Qed.

(** Woken with the closing flag clear: the smoker takes one unit of each
    of the two ingredients it does not hold, whatever the counts are, and
    returns [true]. *)
Lemma wait_run_proceeds (id : Z) (w : world) :
  0 <= id < NUMSMOKERS ->
  reliable w = true ->
  closing (at_wake_up id w) = false ->
  (forall j v, j <> id -> load (ingredients (at_wake_up id w)) j = Some v ->
               INT_MIN < v <= INT_MAX) ->
  exists w',
    runs_to (waitForIngredients id) w (Returned true w') /\
    (forall j v, load (ingredients (at_wake_up id w)) j = Some v ->
                 load (ingredients (fSt w')) j = Some (if j =? id then v else v - 1)) /\
    smokerStat (fSt w') = smokerStat (at_wake_up id w) /\
    nCigarettes (fSt w') = nCigarettes (at_wake_up id w) /\
    closing (fSt w') = false /\
    trace w' =
      rev ([OSemDown mutex (rc_down 0 w);
            OStoreSmokerStat id WAITING_2ING;
            OSaveState (nFic w) (set_status id WAITING_2ING (others 0 w (fSt w)));
            OSemUp mutex (rc_up 0 w);
            OSemDown (wait2Ings id) (rc_down 1 w);
            OSemDown mutex (rc_down 2 w);
            OLoadClosing false]
           ++ flat_map
                (fun j =>
                   [OLoadIngredient j (cell (ingredients (at_wake_up id w)) j);
                    OStoreIngredient j (cell (ingredients (at_wake_up id w)) j - 1)])
                (other_kinds id)
           ++ [OSaveState (nFic w) (fSt w'); OSemUp mutex (rc_up 1 w)])
      ++ trace w.
Proof.
  intros Hid Hrel Hc Hr.
  pose proof (reliable_down w Hrel) as Hd. pose proof (reliable_up w Hrel) as Hu.
  unfold at_wake_up, set_status, cell in *.
  three_ids id Hid; world_simpl.
  - pose proof (Hr 1 _ ltac:(lia) eq_refl) as H1.
    pose proof (Hr 2 _ ltac:(lia) eq_refl) as H2.
    eexists; split;
      [apply (run_runs_to 40); [|exact I]; open_calls; run_steps; int_facts;
       try discriminate; reflexivity|].
    world_simpl. split; [|repeat split; auto].
    intros j v Hj. apply load_cases in Hj as [[-> ->]|[[-> ->]|[-> ->]]]; reflexivity.
  - pose proof (Hr 0 _ ltac:(lia) eq_refl) as H1.
    pose proof (Hr 2 _ ltac:(lia) eq_refl) as H2.
    eexists; split;
      [apply (run_runs_to 40); [|exact I]; open_calls; run_steps; int_facts;
       try discriminate; reflexivity|].
    world_simpl. split; [|repeat split; auto].
    intros j v Hj. apply load_cases in Hj as [[-> ->]|[[-> ->]|[-> ->]]]; reflexivity.
  - pose proof (Hr 0 _ ltac:(lia) eq_refl) as H1.
    pose proof (Hr 1 _ ltac:(lia) eq_refl) as H2.
    eexists; split;
      [apply (run_runs_to 40); [|exact I]; open_calls; run_steps; int_facts;
       try discriminate; reflexivity|].
    world_simpl. split; [|repeat split; auto].
    intros j v Hj. apply load_cases in Hj as [[-> ->]|[[-> ->]|[-> ->]]]; reflexivity.
Qed.

(** ** [rollingCigarette] and [smoke] *)

(** The arithmetic of [double] plays no part in what follows. *)
#[local] Opaque d_add d_sub d_mul d_div d_gt of_long uniform.

Ltac open_times H :=
  unfold work_time, normal_of, draws in H; cbn [List.map List.seq sum_samples] in H.

Lemma rolling_run (id : Z) (w : world) :
  0 <= id < NUMSMOKERS ->
  reliable w = true ->
  exists w',
    runs_to (rollingCigarette id) w (Returned tt w') /\
    fSt w' = after_rolling id w /\
    trace w' =
      OSemUp waitCigarette (rc_up 1 w)
      :: OSemUp mutex (rc_up 0 w)
      :: sleep_event (work_time (draws 0 12 w))
      ++ OSaveState (nFic w) (after_rolling id w)
      :: OStoreSmokerStat id ROLLING
      :: OSemDown mutex (rc_down 0 w)
      :: rev (List.map ORandom (draws 0 12 w)) ++ trace w.
Proof.
  intros Hid Hrel.
  pose proof (reliable_down w Hrel) as Hd. pose proof (reliable_up w Hrel) as Hu.
  unfold after_rolling, set_status, sleep_event.
  destruct (d_gt (work_time (draws 0 12 w)) d_zero) eqn:Ht; open_times Ht.
  all: three_ids id Hid; world_simpl.
  all: eexists; split;
    [apply (run_runs_to 60); [|exact I]; open_calls; run_steps; reflexivity|].
  all: world_simpl.
  all: unfold work_time, normal_of, draws; cbn [List.map List.seq sum_samples rev app].
  all: split; reflexivity.
Qed.

Lemma smoke_run (id : Z) (w : world) (v : Z) :
  0 <= id < NUMSMOKERS ->
  reliable w = true ->
  load (nCigarettes (others 0 w (fSt w))) id = Some v ->
  INT_MIN <= v < INT_MAX ->
  exists w',
    runs_to (smoke id) w (Returned tt w') /\
    fSt w' = set_cigarettes id (v + 1) (set_status id SMOKING (others 0 w (fSt w))) /\
    trace w' =
      rev ([OSemDown mutex (rc_down 0 w);
            OStoreSmokerStat id SMOKING;
            OSaveState (nFic w) (set_status id SMOKING (others 0 w (fSt w)))]
           ++ List.map ORandom (draws 0 12 w)
           ++ sleep_event (work_time (draws 0 12 w))
           ++ [OLoadCigarettes id v;
               OStoreCigarettes id (v + 1);
               OSaveState (nFic w)
                 (set_cigarettes id (v + 1)
                    (set_status id SMOKING (others 0 w (fSt w))));
               OSemUp mutex (rc_up 0 w)])
      ++ trace w.
Proof.
  intros Hid Hrel Hv Hr.
  pose proof (reliable_down w Hrel) as Hd. pose proof (reliable_up w Hrel) as Hu.
  unfold set_cigarettes, set_status, sleep_event.
  destruct (d_gt (work_time (draws 0 12 w)) d_zero) eqn:Ht; open_times Ht.
  all: three_ids id Hid; world_simpl; injection Hv as <-.
  all: eexists; split;
    [apply (run_runs_to 60); [|exact I]; open_calls; run_steps; int_facts; reflexivity|].
  all: world_simpl.
  all: unfold work_time, normal_of, draws; cbn [List.map List.seq sum_samples rev app].
  all: split; reflexivity.
Qed.

(** One cycle, [rollingCigarette (id); smoke (id);]: what it leaves in
    the shared region and everything it does, in order. *)
Lemma cycle_run (id : Z) (w : world) (v : Z) :
  0 <= id < NUMSMOKERS ->
  reliable w = true ->
  load (nCigarettes (at_smoke id w)) id = Some v ->
  INT_MIN <= v < INT_MAX ->
  exists w',
    runs_to (rollingCigarette id;; smoke id) w (Returned tt w') /\
    fSt w' = set_cigarettes id (v + 1) (set_status id SMOKING (at_smoke id w)) /\
    trace w' =
      rev (List.map ORandom (draws 0 12 w)
           ++ [OSemDown mutex (rc_down 0 w);
               OStoreSmokerStat id ROLLING;
               OSaveState (nFic w) (after_rolling id w)]
           ++ sleep_event (work_time (draws 0 12 w))
           ++ [OSemUp mutex (rc_up 0 w);
               OSemUp waitCigarette (rc_up 1 w);
               OSemDown mutex (rc_down 1 w);
               OStoreSmokerStat id SMOKING;
               OSaveState (nFic w) (set_status id SMOKING (at_smoke id w))]
           ++ List.map ORandom (draws 12 12 w)
           ++ sleep_event (work_time (draws 12 12 w))
           ++ [OLoadCigarettes id v;
               OStoreCigarettes id (v + 1);
               OSaveState (nFic w)
                 (set_cigarettes id (v + 1) (set_status id SMOKING (at_smoke id w)));
               OSemUp mutex (rc_up 2 w)])
      ++ trace w /\
    env_down w' = tl (tl (env_down w)) /\
    env_up w' = tl (tl (tl (env_up w))) /\
    nFic w' = nFic w.
Proof.
  intros Hid Hrel Hv Hr.
  pose proof (reliable_down w Hrel) as Hd. pose proof (reliable_up w Hrel) as Hu.
  unfold set_cigarettes, at_smoke, after_rolling, set_status, sleep_event in *.
  destruct (d_gt (work_time (draws 0 12 w)) d_zero) eqn:Ht; open_times Ht.
  all: destruct (d_gt (work_time (draws 12 12 w)) d_zero) eqn:Ht'; open_times Ht'.
  all: three_ids id Hid; world_simpl; injection Hv as <-.
  all: eexists; split;
    [apply (run_runs_to 100); [|exact I]; open_calls; run_steps; int_facts; reflexivity|].
  all: world_simpl.
  all: unfold work_time, normal_of, draws; cbn [List.map List.seq sum_samples rev app].
  all: repeat split; reflexivity.
Qed.

(** ** The life cycle *)

Lemma run_bind_ext {A B} (k k' : A -> itree smokerE B) :
  (forall x n w, run n (k x) w = run n (k' x) w) ->
  forall n (t : itree smokerE A) w,
    run n (ITree.bind t k) w = run n (ITree.bind t k') w.
Proof.
  intros Hk. induction n as [|n IH]; intros t w; [reflexivity|].
  rewrite !run_S, !observe_bind.
  destruct (observe t) as [r|t'|X e g]; cbn.
  - rewrite <- !run_S. apply Hk.
  - apply IH.
  - destruct (handle e w); [apply IH | reflexivity].
Qed.

Lemma run_tau {A} n (t : itree smokerE A) w : run (S n) (Tau t) w = run n t w.
Proof. reflexivity. Qed.

(** One turn of the loop: [life_cycle] waits; on [false] it is over, on
    [true] it rolls, smokes and starts again. *)
Lemma life_cycle_turn (id : Z) n w :
  run n (life_cycle id) w =
  run n (b <- waitForIngredients id;;
         if b : bool
         then rollingCigarette id;; smoke id;; Tau (life_cycle id)
         else Ret tt) w.
Proof.
  unfold life_cycle at 1.
  rewrite (run_observe (ITree.iter _ tt)
             (ITree.bind
                (b <- waitForIngredients id;;
                 if b : bool
                 then rollingCigarette id;; smoke id;; Ret (inl tt)
                 else Ret (inr tt))
                (fun lr : unit + unit =>
                   match lr with
                   | inl l =>
                       Tau (ITree.iter
                              (fun _ : unit =>
                                 b <- waitForIngredients id;;
                                 if b : bool
                                 then rollingCigarette id;; smoke id;; Ret (inl tt)
                                 else Ret (inr tt)) l)
                   | inr r => Ret r
                   end))) by reflexivity.
  rewrite run_bind_bind. apply run_bind_ext. intros [|] m w1.
  - rewrite run_bind_bind. apply run_bind_ext. intros _ m' w2.
    rewrite run_bind_bind. apply run_bind_ext. intros _ m'' w3.
    rewrite run_bind_ret. reflexivity.
  - rewrite run_bind_ret. reflexivity.
Qed.

Lemma runs_to_tau {A} (t : itree smokerE A) w o :
  runs_to t w o -> runs_to (Tau t) w o.
Proof.
  intros H. destruct (runs_to_run H) as [n [Hn Hfin]].
  apply (run_runs_to (S n)); assumption.
Qed.

Lemma runs_to_ret {A} (x : A) w : runs_to (Ret x : itree smokerE A) w (Returned x w).
Proof. apply (run_runs_to 1); [reflexivity | exact I]. Qed.

Lemma runs_to_ext {A} (t t' : itree smokerE A) w o :
  (forall n, run n t w = run n t' w) -> runs_to t' w o -> runs_to t w o.
Proof.
  intros Heq [Hfin [N H]]. split; [assumption|].
  exists N. intros n Hn. rewrite Heq. auto.
Qed.

(** The loop is over when [waitForIngredients] returns [false]. *)
Lemma life_cycle_exit (id : Z) w w1 :
  runs_to (waitForIngredients id) w (Returned false w1) ->
  runs_to (life_cycle id) w (Returned tt w1).
Proof.
  intros Hw. eapply runs_to_ext; [intros n; apply life_cycle_turn|].
  eapply runs_to_bind; [exact Hw|]. apply runs_to_ret.
Qed.

(** When [waitForIngredients] returns [true] the smoker rolls, then
    smokes, then starts again. *)
Lemma life_cycle_again (id : Z) w w1 w2 w3 o :
  runs_to (waitForIngredients id) w (Returned true w1) ->
  runs_to (rollingCigarette id) w1 (Returned tt w2) ->
  runs_to (smoke id) w2 (Returned tt w3) ->
  runs_to (life_cycle id) w3 o ->
  runs_to (life_cycle id) w o.
Proof.
  intros Hw Hr Hs Hl. eapply runs_to_ext; [intros n; apply life_cycle_turn|].
  eapply runs_to_bind; [exact Hw|]. cbv iota.
  eapply runs_to_bind; [exact Hr|].
  eapply runs_to_bind; [exact Hs|].
  apply runs_to_tau. exact Hl.
Qed.

(** A loop that is over was left through [waitForIngredients]
    returning [false]. *)
Lemma life_cycle_left (id : Z) n :
  forall w w', run n (life_cycle id) w = Returned tt w' ->
  exists w0, runs_to (waitForIngredients id) w0 (Returned false w').
Proof.
  induction n as [n IH] using lt_wf_ind. intros w w' Hrun.
  rewrite life_cycle_turn in Hrun.
  destruct (run_bind_inv _ _ _ _ Hrun I) as [[b [w1 [Hw Hk]]]|[h [w1 [_ Habs]]]];
    [|discriminate].
  destruct b.
  - destruct (run_bind_inv _ _ _ _ Hk I) as [[[] [w2 [Hr Hk2]]]|[h [w2 [_ Habs]]]];
      [|discriminate].
    destruct (run_bind_inv _ _ _ _ Hk2 I) as [[[] [w3 [Hs Hk3]]]|[h [w3 [_ Habs]]]];
      [|discriminate].
    destruct n as [|n]; [discriminate|].
    rewrite run_tau in Hk3. eapply IH; [|exact Hk3]. lia.
  - destruct n as [|n]; [discriminate|].
    rewrite run_ret in Hk. injection Hk as <-.
    exists w. eapply run_runs_to; [exact Hw | exact I].
Qed.

Lemma store_cases a id v :
  (0 <= id < 3) \/ store a id v = None.
Proof.
  destruct id as [|p|p]; [left; lia| |right; reflexivity].
  destruct p as [p|p|]; [destruct p|destruct p|]; try (right; reflexivity); left; lia.
Qed.

(** [waitForIngredients] returns [false] only after it has read the
    closing flag as set. *)
Lemma wait_false_closing (id : Z) (w w' : world) :
  runs_to (waitForIngredients id) w (Returned false w') ->
  exists rc file snapshot older,
    trace w' =
      OSemUp mutex rc :: OSaveState file snapshot
      :: OStoreSmokerStat id CLOSING_S :: OLoadClosing true :: older.
Proof.
  intros H. destruct (runs_to_run H) as [n [Hn _]].
  apply (run_le (m := n + 40)) in Hn; [|exact I|lia].
  rewrite Nat.add_comm in Hn. 
  destruct (store_cases (smokerStat (others 0 w (fSt w))) id WAITING_2ING) as [Hid|Hid].
  - revert Hn. 
    assert (id = 0 \/ id = 1 \/ id = 2) as [-> | [-> | ->]] by lia.
    all: cbn [Nat.add]; open_calls; repeat run_step; intros Hn; try discriminate Hn.
    all: injection Hn as <-; world_simpl; repeat eexists.
  - revert Hn. cbn [Nat.add]. open_calls. run_step. run_step.
    + repeat run_step. discriminate.
    + run_step. rewrite run_bind_trigger.
      cbn [handle stored fSt log set_fSt set_env_down smokerStat].
      rewrite Hid. discriminate.
Qed.

(** ** [main] *)

Lemma runs_to_trigger_bind {X B} (e : smokerE X) (k : X -> itree smokerE B) w x w1 o :
  handle e w = Next x w1 -> runs_to (k x) w1 o ->
  runs_to (ITree.bind (ITree.trigger e) k) w o.
Proof.
  intros He Hk. eapply runs_to_bind; [|exact Hk].
  apply (run_runs_to 2); [|exact I]. rewrite run_trigger, He. reflexivity.
Qed.

(** With well-formed arguments and the shared resources connected,
    [main] runs the life cycle of smoker [n], detaches the shared
    region when the life cycle is over, and returns. *)
Lemma main_run (argv : list string) (w : world) (v1 v3 : Z) (w1 : world) :
  List.length argv = 5%nat ->
  strtol (nth 1 argv EmptyString) = (v1, EmptyString) ->
  to_int (to_unsigned_int v1) < NUMSMOKERS ->
  (String.length (nth 2 argv EmptyString) < 51)%nat ->
  strtol (nth 3 argv EmptyString) = (v3, EmptyString) ->
  env_semConnect w <> -1 -> env_shmemConnect w <> -1 -> env_shmemAttach w <> -1 ->
  runs_to (life_cycle (to_int (to_unsigned_int v1)))
          (started argv (to_int (to_unsigned_int v3)) w) (Returned tt w1) ->
  env_shmemDettach w1 <> -1 ->
  runs_to (main argv) w
          (Returned EXIT_SUCCESS (log (OShmemDettach (env_shmemDettach w1)) w1)).
Proof.
  intros Hlen H1 Hn H2 H3 Hc1 Hc2 Hc3 Hlife Hd.
  unfold main. rewrite Hlen. change (negb (Z.of_nat 5 =? 5)) with false. cbv iota.
  eapply runs_to_trigger_bind; [reflexivity|].
  eapply runs_to_trigger_bind; [reflexivity|].
  rewrite H1. cbv iota beta.
  replace (NUMSMOKERS <=? to_int (to_unsigned_int v1)) with false
    by (symmetry; apply Z.leb_gt; exact Hn).
  change (negb (EmptyString =? EmptyString)%string || false) with false. cbv iota.
  eapply runs_to_trigger_bind.
  { cbn [handle]. replace (Z.of_nat (String.length (nth 2 argv EmptyString)) <? 51) with true
      by (symmetry; apply Z.ltb_lt; lia). reflexivity. }
  rewrite H3. cbv iota beta.
  change (negb (EmptyString =? EmptyString)%string) with false. cbv iota.
  eapply runs_to_trigger_bind; [reflexivity|]. world_simpl.
  replace (env_semConnect w =? -1) with false by (symmetry; apply Z.eqb_neq; exact Hc1).
  eapply runs_to_trigger_bind; [reflexivity|]. world_simpl.
  replace (env_shmemConnect w =? -1) with false by (symmetry; apply Z.eqb_neq; exact Hc2).
  eapply runs_to_trigger_bind; [reflexivity|]. world_simpl.
  replace (env_shmemAttach w =? -1) with false by (symmetry; apply Z.eqb_neq; exact Hc3).
  eapply runs_to_trigger_bind; [reflexivity|]. world_simpl.
  eapply runs_to_bind; [exact Hlife|].
  eapply runs_to_trigger_bind; [reflexivity|].
  replace (env_shmemDettach w1 =? -1) with false by (symmetry; apply Z.eqb_neq; exact Hd).
  apply runs_to_ret.
Qed.

(** What [main] does with an identifier it refuses: a diagnostic, and
    [EXIT_FAILURE], before any IPC operation. *)
Lemma main_rejects (argv : list string) (w : world) (v1 : Z) (tinp : string) :
  List.length argv = 5%nat ->
  strtol (nth 1 argv EmptyString) = (v1, tinp) ->
  tinp <> EmptyString \/ NUMSMOKERS <= to_int (to_unsigned_int v1) ->
  runs_to (main argv) w
    (Returned EXIT_FAILURE
       (log (OFprintfStderr ("Smoker process identification is wrong!" ++ newline)%string)
          (log OSetbufStderr (log (OFreopen (nth 4 argv EmptyString) "w") w)))).
Proof.
  intros Hlen H1 Hbad.
  unfold main. rewrite Hlen. change (negb (Z.of_nat 5 =? 5)) with false. cbv iota.
  eapply runs_to_trigger_bind; [reflexivity|].
  eapply runs_to_trigger_bind; [reflexivity|].
  rewrite H1. cbv iota beta.
  replace (negb (tinp =? EmptyString)%string
           || (NUMSMOKERS <=? to_int (to_unsigned_int v1))) with true.
  - eapply runs_to_trigger_bind; [reflexivity|]. apply runs_to_ret.
  - symmetry. apply orb_true_iff. destruct Hbad as [Ht|Hn].
    + left. apply negb_true_iff. apply String.eqb_neq. exact Ht.
    + right. apply Z.leb_le. exact Hn.
Qed.

(** ** The claims about [waitForIngredients] *)

(** C1: for every smoker id, when [waitForIngredients (id)] is woken and
    the closing flag is false, it decrements [ingredients[j]] by exactly
    one for each of the two kinds [j <> id], leaves [ingredients[id]]
    unchanged, and returns [true]: the stores to [ingredients] are two,
    one for each of the other kinds.  The semaphore operations are taken
    to succeed and the two counts to be [int]s above [INT_MIN]. *)
Theorem waitForIngredients_proceeds (id : Z) (w : world) :
  0 <= id < NUMSMOKERS ->
  reliable w = true ->
  closing (at_wake_up id w) = false ->
  (forall j v, j <> id -> load (ingredients (at_wake_up id w)) j = Some v ->
               INT_MIN < v <= INT_MAX) ->
  exists w',
    runs_to (waitForIngredients id) w (Returned true w') /\
    (forall j v, load (ingredients (at_wake_up id w)) j = Some v ->
                 load (ingredients (fSt w')) j = Some (if j =? id then v else v - 1)) /\
    smokerStat (fSt w') = smokerStat (at_wake_up id w) /\
    nCigarettes (fSt w') = nCigarettes (at_wake_up id w) /\
    closing (fSt w') = false /\
    ingredient_stores (since w w')
    = List.map (fun j => (j, cell (ingredients (at_wake_up id w)) j - 1)) (other_kinds id).
Proof.
  intros Hid Hrel Hc Hr.
  destruct (@wait_run_proceeds id w Hid Hrel Hc Hr)
    as [w' [Hrun [Hing [Hst [Hcig [Hcl Htr]]]]]].
  exists w'. repeat (split; [assumption|]).
  rewrite (@since_app w w' _ Htr), rev_involutive.
  three_ids id Hid; reflexivity.
Qed.

Lemma waitForIngredients_proceeds_witness :
  exists w',
    runs_to (waitForIngredients 0) w_supplied (Returned true w') /\
    (forall j v, load (ingredients (at_wake_up 0 w_supplied)) j = Some v ->
                 load (ingredients (fSt w')) j = Some (if j =? 0 then v else v - 1)) /\
    smokerStat (fSt w') = smokerStat (at_wake_up 0 w_supplied) /\
    nCigarettes (fSt w') = nCigarettes (at_wake_up 0 w_supplied) /\
    closing (fSt w') = false /\
    ingredient_stores (since w_supplied w')
    = List.map (fun j => (j, cell (ingredients (at_wake_up 0 w_supplied)) j - 1))
               (other_kinds 0).
Proof.
  apply (@waitForIngredients_proceeds 0 w_supplied).
  - unfold NUMSMOKERS. lia.
  - reflexivity.
  - reflexivity.
  - intros j v _ Hj. apply load_cases in Hj as [[_ ->]|[[_ ->]|[_ ->]]];
      vm_compute; split; congruence.
Defined.

Lemma load_set_status_same (id v : Z) (s : FULL_STAT) :
  0 <= id < NUMSMOKERS -> load (smokerStat (set_status id v s)) id = Some v.
Proof. intros Hid. three_ids id Hid; reflexivity. Qed.

Lemma load_set_status_other (id v : Z) (s : FULL_STAT) (j : Z) :
  j <> id -> load (smokerStat (set_status id v s)) j = load (smokerStat s) j.
Proof.
  intros Hj. unfold set_status, store.
  destruct id as [|p|p]; [|destruct p as [p|p|]; [destruct p|destruct p|]|];
    try reflexivity; cbn [smokerStat set_smokerStat];
    (destruct j as [|q|q]; [|destruct q as [q|q|]; [destruct q|destruct q|]|]);
    try reflexivity; congruence.
Qed.

(** C2: for every smoker id, when [waitForIngredients (id)] is woken and
    the closing flag is true, it sets [smokerStat[id]] to [CLOSING_S]
    and returns [false]: the status read back from the region is
    [CLOSING_S], the statuses of the other smokers, the ingredients, the
    counts of cigarettes and the flag are as they were at the wake-up,
    and between acquiring and releasing the mutex it reads the flag,
    stores the status and saves the state. *)
Theorem waitForIngredients_closing (id : Z) (w : world) :
  0 <= id < NUMSMOKERS ->
  reliable w = true ->
  closing (at_wake_up id w) = true ->
  exists w',
    runs_to (waitForIngredients id) w (Returned false w') /\
    fSt w' = set_status id CLOSING_S (at_wake_up id w) /\
    load (smokerStat (fSt w')) id = Some CLOSING_S /\
    (forall j, j <> id ->
       load (smokerStat (fSt w')) j = load (smokerStat (at_wake_up id w)) j) /\
    ingredients (fSt w') = ingredients (at_wake_up id w) /\
    nCigarettes (fSt w') = nCigarettes (at_wake_up id w) /\
    closing (fSt w') = true /\
    since w w' =
      [OSemDown mutex (rc_down 0 w);
       OStoreSmokerStat id WAITING_2ING;
       OSaveState (nFic w) (set_status id WAITING_2ING (others 0 w (fSt w)));
       OSemUp mutex (rc_up 0 w);
       OSemDown (wait2Ings id) (rc_down 1 w);
       OSemDown mutex (rc_down 2 w);
       OLoadClosing true;
       OStoreSmokerStat id CLOSING_S;
       OSaveState (nFic w) (set_status id CLOSING_S (at_wake_up id w));
       OSemUp mutex (rc_up 1 w)].
Proof.
  intros Hid Hrel Hc.
  destruct (@wait_run_closing id w Hid Hrel Hc) as [w' [Hrun [Hst Htr]]].
  exists w'.
  split; [exact Hrun|]. split; [exact Hst|].
  split; [rewrite Hst; apply load_set_status_same; exact Hid|].
  split; [intros j Hj; rewrite Hst; apply load_set_status_other; exact Hj|].
  split; [|split; [|split; [|rewrite (@since_app w w' _ Htr); apply rev_involutive]]].
  - rewrite Hst; unfold set_status; destruct (store _ _ _); reflexivity.
  - rewrite Hst; unfold set_status; destruct (store _ _ _); reflexivity.
  - rewrite Hst, <- Hc; unfold set_status; destruct (store _ _ _); reflexivity.
Qed.

Lemma waitForIngredients_closing_witness :
  exists w',
    runs_to (waitForIngredients 0) w_closing (Returned false w') /\
    fSt w' = set_status 0 CLOSING_S (at_wake_up 0 w_closing) /\
    load (smokerStat (fSt w')) 0 = Some CLOSING_S /\
    (forall j, j <> 0 ->
       load (smokerStat (fSt w')) j = load (smokerStat (at_wake_up 0 w_closing)) j) /\
    ingredients (fSt w') = ingredients (at_wake_up 0 w_closing) /\
    nCigarettes (fSt w') = nCigarettes (at_wake_up 0 w_closing) /\
    closing (fSt w') = true /\
    since w_closing w' =
      [OSemDown mutex (rc_down 0 w_closing);
       OStoreSmokerStat 0 WAITING_2ING;
       OSaveState (nFic w_closing)
         (set_status 0 WAITING_2ING (others 0 w_closing (fSt w_closing)));
       OSemUp mutex (rc_up 0 w_closing);
       OSemDown (wait2Ings 0) (rc_down 1 w_closing);
       OSemDown mutex (rc_down 2 w_closing);
       OLoadClosing true;
       OStoreSmokerStat 0 CLOSING_S;
       OSaveState (nFic w_closing) (set_status 0 CLOSING_S (at_wake_up 0 w_closing));
       OSemUp mutex (rc_up 1 w_closing)].
Proof.
  apply (@waitForIngredients_closing 0 w_closing).
  - unfold NUMSMOKERS. lia.
  - reflexivity.
  - reflexivity.
Defined.

(** C9: the value [waitForIngredients (id)] returns is decided by the
    closing flag it finds after the wake-up and by nothing else: it is
    [true] exactly when the flag is clear, whatever the ingredient
    counts are; and when the flag is clear both decrements are made
    without looking at the counts, so that counts of zero become -1. *)
Theorem waitForIngredients_result (id : Z) (w : world) :
  0 <= id < NUMSMOKERS ->
  reliable w = true ->
  (closing (at_wake_up id w) = false ->
   forall j v, j <> id -> load (ingredients (at_wake_up id w)) j = Some v ->
               INT_MIN < v <= INT_MAX) ->
  exists w',
    runs_to (waitForIngredients id) w (Returned (negb (closing (at_wake_up id w))) w') /\
    (closing (at_wake_up id w) = false ->
     forall j v, j <> id -> load (ingredients (at_wake_up id w)) j = Some v ->
                 load (ingredients (fSt w')) j = Some (v - 1)) /\
    (closing (at_wake_up id w) = false ->
     ingredients (at_wake_up id w) = mkArray3 0 0 0 ->
     forall j, 0 <= j < NUMINGREDIENTS -> j <> id ->
               load (ingredients (fSt w')) j = Some (-1)).
Proof.
  intros Hid Hrel Hr.
  destruct (closing (at_wake_up id w)) eqn:Hc.
  - destruct (@wait_run_closing id w Hid Hrel Hc) as [w' [Hrun _]].
    exists w'. split; [exact Hrun|]. split; discriminate.
  - destruct (@wait_run_proceeds id w Hid Hrel Hc (Hr eq_refl)) as [w' [Hrun [Hing _]]].
    exists w'. split; [exact Hrun|]. split.
    + intros _ j v Hj Hl. rewrite (Hing j v Hl).
      replace (j =? id) with false by (symmetry; apply Z.eqb_neq; exact Hj). reflexivity.
    + intros _ Hz j Hj Hne. unfold NUMINGREDIENTS in Hj.
      assert (load (ingredients (at_wake_up id w)) j = Some 0) as Hl.
      { rewrite Hz. assert (j = 0 \/ j = 1 \/ j = 2) as [-> | [-> | ->]] by lia; reflexivity. }
      rewrite (Hing j 0 Hl).
      replace (j =? id) with false by (symmetry; apply Z.eqb_neq; exact Hne). reflexivity.
Qed.

Lemma waitForIngredients_result_witness :
  exists w',
    runs_to (waitForIngredients 0) w_unsupplied
            (Returned (negb (closing (at_wake_up 0 w_unsupplied))) w') /\
    (closing (at_wake_up 0 w_unsupplied) = false ->
     forall j v, j <> 0 -> load (ingredients (at_wake_up 0 w_unsupplied)) j = Some v ->
                 load (ingredients (fSt w')) j = Some (v - 1)) /\
    (closing (at_wake_up 0 w_unsupplied) = false ->
     ingredients (at_wake_up 0 w_unsupplied) = mkArray3 0 0 0 ->
     forall j, 0 <= j < NUMINGREDIENTS -> j <> 0 ->
               load (ingredients (fSt w')) j = Some (-1)).
Proof.
  apply (@waitForIngredients_result 0 w_unsupplied).
  - unfold NUMSMOKERS. lia.
  - reflexivity.
  - intros _ j v _ Hj. apply load_cases in Hj as [[_ ->]|[[_ ->]|[_ ->]]];
      vm_compute; split; congruence.
Defined.

(** ** The claims about [rollingCigarette] and [smoke] *)

Lemma rolling_events (id : Z) (w : world) :
  0 <= id < NUMSMOKERS ->
  reliable w = true ->
  exists w',
    runs_to (rollingCigarette id) w (Returned tt w') /\
    since w w' =
      List.map ORandom (draws 0 12 w)
      ++ [OSemDown mutex (rc_down 0 w);
          OStoreSmokerStat id ROLLING;
          OSaveState (nFic w) (after_rolling id w)]
      ++ sleep_event (work_time (draws 0 12 w))
      ++ [OSemUp mutex (rc_up 0 w); OSemUp waitCigarette (rc_up 1 w)].
Proof.
  intros Hid Hrel.
  destruct (@rolling_run id w Hid Hrel) as [w' [Hrun [_ Htr]]].
  exists w'. split; [exact Hrun|].
  rewrite (@since_app w w'
             (OSemUp waitCigarette (rc_up 1 w)
              :: OSemUp mutex (rc_up 0 w)
              :: sleep_event (work_time (draws 0 12 w))
              ++ OSaveState (nFic w) (after_rolling id w)
              :: OStoreSmokerStat id ROLLING
              :: OSemDown mutex (rc_down 0 w)
              :: rev (List.map ORandom (draws 0 12 w)))).
  - unfold sleep_event. destruct (d_gt _ _); cbn [rev app List.map draws List.seq]; reflexivity.
  - rewrite Htr. cbn [app]. rewrite <- !app_assoc. reflexivity.
Qed.

Lemma not_failed_down (k : nat) (w : world) :
  reliable w = true -> (rc_down k w =? -1) = false.
Proof. intros H. apply Z.eqb_neq. now apply reliable_down. Qed.

Lemma not_failed_up (k : nat) (w : world) :
  reliable w = true -> (rc_up k w =? -1) = false.
Proof. intros H. apply Z.eqb_neq. now apply reliable_up. Qed.

(** C3, as the spec states it, fails: with every draw of [random()] at
    half of its range the rolling time is 100, and smoker 0 sleeps
    between acquiring the mutex and releasing it. *)
Lemma rollingCigarette_sleeps_with_mutex :
  exists w',
    runs_to (rollingCigarette 0) w_half (Returned tt w') /\
    sleeps_unlocked false (since w_half w') = false.
Proof.
  eexists. split.
  - apply (@run_runs_to _ 60); [vm_compute; reflexivity | exact I].
  - vm_compute. reflexivity.
Qed.

(** C3, amended: in [rollingCigarette] the timed rolling delay, when the
    drawn time is positive, is performed while the smoker holds the
    mutex: after the status is stored and the state saved, and before
    the mutex is released; the mutex is released before [waitCigarette]
    is signalled. *)
Theorem rollingCigarette_sleeps_holding_mutex (id : Z) (w : world) :
  0 <= id < NUMSMOKERS ->
  reliable w = true ->
  exists w',
    runs_to (rollingCigarette id) w (Returned tt w') /\
    since w w' =
      List.map ORandom (draws 0 12 w)
      ++ [OSemDown mutex (rc_down 0 w);
          OStoreSmokerStat id ROLLING;
          OSaveState (nFic w) (after_rolling id w)]
      ++ sleep_event (work_time (draws 0 12 w))
      ++ [OSemUp mutex (rc_up 0 w); OSemUp waitCigarette (rc_up 1 w)] /\
    sleeps_locked false (since w w') = true /\
    holds_mutex false (since w w') = false /\
    (d_gt (work_time (draws 0 12 w)) d_zero = true ->
     sleeps_unlocked false (since w w') = false).
Proof.
  intros Hid Hrel.
  destruct (@rolling_events id w Hid Hrel) as [w' [Hrun Hev]].
  exists w'. split; [exact Hrun|]. split; [exact Hev|].
  rewrite Hev. unfold sleep_event.
  destruct (d_gt (work_time (draws 0 12 w)) d_zero);
    cbn [draws List.map List.seq app sleeps_locked sleeps_unlocked holds_mutex mutex_after
         andb negb];
    rewrite ?(not_failed_down 0 w Hrel), ?(not_failed_up 0 w Hrel);
    cbn [andb negb]; repeat split; congruence.
Qed.

Lemma rollingCigarette_sleeps_holding_mutex_witness :
  exists w',
    runs_to (rollingCigarette 0) w_half (Returned tt w') /\
    since w_half w' =
      List.map ORandom (draws 0 12 w_half)
      ++ [OSemDown mutex (rc_down 0 w_half);
          OStoreSmokerStat 0 ROLLING;
          OSaveState (nFic w_half) (after_rolling 0 w_half)]
      ++ sleep_event (work_time (draws 0 12 w_half))
      ++ [OSemUp mutex (rc_up 0 w_half); OSemUp waitCigarette (rc_up 1 w_half)] /\
    sleeps_locked false (since w_half w') = true /\
    holds_mutex false (since w_half w') = false /\
    (d_gt (work_time (draws 0 12 w_half)) d_zero = true ->
     sleeps_unlocked false (since w_half w') = false).
Proof.
  apply (@rollingCigarette_sleeps_holding_mutex 0 w_half).
  - unfold NUMSMOKERS. lia.
  - reflexivity.
Defined.

Ltac index_cases j :=
  destruct j as [|j|j];
  [|destruct j as [j|j|]; [destruct j as [j|j|]|destruct j as [j|j|]|]|].

Lemma nCigarettes_set_status (id v : Z) (s : FULL_STAT) :
  nCigarettes (set_status id v s) = nCigarettes s.
Proof. unfold set_status. destruct (store _ _ _); reflexivity. Qed.

Lemma load_set_cigarettes_same (id v : Z) (s : FULL_STAT) :
  0 <= id < NUMSMOKERS -> load (nCigarettes (set_cigarettes id v s)) id = Some v.
Proof. intros Hid. three_ids id Hid; reflexivity. Qed.

Lemma load_set_cigarettes_other (id v : Z) (s : FULL_STAT) (j : Z) :
  j <> id -> load (nCigarettes (set_cigarettes id v s)) j = load (nCigarettes s) j.
Proof.
  intros Hj. unfold set_cigarettes, store.
  index_cases id; try reflexivity; cbn [nCigarettes set_nCigarettes];
    index_cases j; try reflexivity; congruence.
Qed.

(** C4: for every smoker id, each call of [smoke (id)] increments
    [nCigarettes[id]] by exactly one, so the count never decreases, and
    touches no other smoker's slot; over one cycle of rolling and
    smoking the count is stored once, one higher than it was, and only
    after the smoker has set its status to [ROLLING] and then to
    [SMOKING].  The semaphore operations are taken to succeed and the
    count to be an [int] below [INT_MAX]. *)
Theorem smoke_counts_one_cigarette (id : Z) (w : world) (v v' : Z) :
  0 <= id < NUMSMOKERS ->
  reliable w = true ->
  load (nCigarettes (others 0 w (fSt w))) id = Some v -> INT_MIN <= v < INT_MAX ->
  load (nCigarettes (at_smoke id w)) id = Some v' -> INT_MIN <= v' < INT_MAX ->
  (exists w',
     runs_to (smoke id) w (Returned tt w') /\
     load (nCigarettes (fSt w')) id = Some (v + 1) /\ v <= v + 1 /\
     (forall j, j <> id ->
        load (nCigarettes (fSt w')) j = load (nCigarettes (others 0 w (fSt w))) j) /\
     cigarette_stores (since w w') = [(id, v + 1)] /\
     statuses_before_count (since w w') = [(id, SMOKING)]) /\
  (exists w',
     runs_to (rollingCigarette id;; smoke id) w (Returned tt w') /\
     load (nCigarettes (fSt w')) id = Some (v' + 1) /\
     (forall j, j <> id ->
        load (nCigarettes (fSt w')) j = load (nCigarettes (at_smoke id w)) j) /\
     cigarette_stores (since w w') = [(id, v' + 1)] /\
     statuses_before_count (since w w') = [(id, ROLLING); (id, SMOKING)]).
Proof.
  intros Hid Hrel Hv Hr Hv' Hr'. split.
  - destruct (@smoke_run id w v Hid Hrel Hv Hr) as [w' [Hrun [Hst Htr]]].
    exists w'. split; [exact Hrun|].
    rewrite (@since_app w w' _ Htr), rev_involutive, Hst.
    unfold sleep_event. destruct (d_gt _ _).
    all: split; [apply load_set_cigarettes_same; exact Hid|]; split; [lia|]; split;
      [intros j Hj; rewrite load_set_cigarettes_other, nCigarettes_set_status by exact Hj;
       reflexivity|].
    all: cbn [draws List.map List.seq app rev cigarette_stores statuses_before_count];
      split; reflexivity.
  - destruct (@cycle_run id w v' Hid Hrel Hv' Hr') as [w' [Hrun [Hst [Htr _]]]].
    exists w'. split; [exact Hrun|].
    rewrite (@since_app w w' _ Htr), rev_involutive, Hst.
    unfold sleep_event. destruct (d_gt _ _); destruct (d_gt _ _).
    all: split; [apply load_set_cigarettes_same; exact Hid|]; split;
      [intros j Hj; rewrite load_set_cigarettes_other, nCigarettes_set_status by exact Hj;
       reflexivity|].
    all: cbn [draws List.map List.seq app rev cigarette_stores statuses_before_count];
      split; reflexivity.
Qed.

Lemma smoke_counts_one_cigarette_witness :
  (exists w',
     runs_to (smoke 0) w_half (Returned tt w') /\
     load (nCigarettes (fSt w')) 0 = Some (0 + 1) /\ 0 <= 0 + 1 /\
     (forall j, j <> 0 ->
        load (nCigarettes (fSt w')) j
        = load (nCigarettes (others 0 w_half (fSt w_half))) j) /\
     cigarette_stores (since w_half w') = [(0, 0 + 1)] /\
     statuses_before_count (since w_half w') = [(0, SMOKING)]) /\
  (exists w',
     runs_to (rollingCigarette 0;; smoke 0) w_half (Returned tt w') /\
     load (nCigarettes (fSt w')) 0 = Some (0 + 1) /\
     (forall j, j <> 0 ->
        load (nCigarettes (fSt w')) j = load (nCigarettes (at_smoke 0 w_half)) j) /\
     cigarette_stores (since w_half w') = [(0, 0 + 1)] /\
     statuses_before_count (since w_half w') = [(0, ROLLING); (0, SMOKING)]).
Proof.
  apply (@smoke_counts_one_cigarette 0 w_half 0 0).
  - unfold NUMSMOKERS. lia.
  - reflexivity.
  - reflexivity.
  - vm_compute. split; congruence.
  - reflexivity.
  - vm_compute. split; congruence.
Defined.

Lemma forallb_tl {A} (p : A -> bool) (l : list A) :
  forallb p l = true -> forallb p (tl l) = true.
Proof.
  destruct l as [|x l]; [auto|]. cbn [forallb tl]. intros H.
  apply andb_prop in H as [_ H]. exact H.
Qed.

(** After a cycle the semaphore operations to come still succeed. *)
Lemma reliable_later (w w' : world) :
  reliable w = true ->
  env_down w' = tl (tl (env_down w)) ->
  env_up w' = tl (tl (tl (env_up w))) ->
  reliable w' = true.
Proof.
  unfold reliable. intros H Hd Hu. apply andb_prop in H as [H1 H2].
  rewrite Hd, Hu. apply andb_true_intro. split; repeat apply forallb_tl; assumption.
Qed.

Lemma run_bind_assoc {A B C} (t : itree smokerE A) (k : A -> itree smokerE B)
    (h : B -> itree smokerE C) w o :
  runs_to (ITree.bind (ITree.bind t k) h) w o ->
  runs_to (ITree.bind t (fun x => ITree.bind (k x) h)) w o.
Proof.
  apply runs_to_ext. intros n. symmetry. apply run_bind_bind.
Qed.

(** C10: once [waitForIngredients (id)] has returned [true], the cycle
    [rollingCigarette (id); smoke (id)] never reads the closing flag: it
    runs to its end and counts the cigarette whatever the flag is and
    whenever it is set, and leaves the flag as the others set it.  A
    flag that is set by then is read for the first time by the next
    [waitForIngredients (id)], after the cigarette has been counted. *)
Theorem cycle_ignores_closing (id : Z) (w : world) (v : Z) :
  0 <= id < NUMSMOKERS ->
  reliable w = true ->
  load (nCigarettes (at_smoke id w)) id = Some v -> INT_MIN <= v < INT_MAX ->
  exists w1,
    runs_to (rollingCigarette id;; smoke id) w (Returned tt w1) /\
    forallb (fun o => negb (is_closing_read o)) (since w w1) = true /\
    load (nCigarettes (fSt w1)) id = Some (v + 1) /\
    closing (fSt w1) = closing (at_smoke id w) /\
    (closing (at_wake_up id w1) = true ->
     exists w2 later,
       runs_to (rollingCigarette id;; smoke id;; waitForIngredients id) w
               (Returned false w2) /\
       since w w2 = since w w1 ++ before_closing_read (since w1 w2)
                    ++ OLoadClosing true :: later /\
       cigarette_stores (since w w1) = [(id, v + 1)]).
Proof.
  intros Hid Hrel Hv Hr.
  destruct (@cycle_run id w v Hid Hrel Hv Hr) as [w1 [Hrun [Hst [Htr [Hd [Hu Hf]]]]]].
  exists w1. split; [exact Hrun|].
  pose proof (@since_app w w1 _ Htr) as Hev. rewrite rev_involutive in Hev.
  assert (forallb (fun o => negb (is_closing_read o)) (since w w1) = true
          /\ cigarette_stores (since w w1) = [(id, v + 1)]) as [Hno Hone].
  { rewrite Hev. unfold sleep_event. destruct (d_gt _ _); destruct (d_gt _ _);
      cbn [draws List.map List.seq app forallb is_closing_read negb andb cigarette_stores];
      split; reflexivity. }
  split; [exact Hno|].
  split; [rewrite Hst; apply load_set_cigarettes_same; exact Hid|].
  split.
  { rewrite Hst. unfold set_cigarettes, set_status.
    destruct (store _ _ _); destruct (store _ _ _); reflexivity. }
  intros Hc.
  destruct (@wait_run_closing id w1 Hid (reliable_later w w1 Hrel Hd Hu) Hc)
    as [w2 [Hrun2 [_ Htr2]]].
  pose proof (@since_app w1 w2 _ Htr2) as Hev2. rewrite rev_involutive in Hev2.
  exists w2. eexists. split; [|split; [|exact Hone]].
  - apply run_bind_assoc. eapply runs_to_bind; [exact Hrun|exact Hrun2].
  - assert (since w w2 = since w w1 ++ since w1 w2) as ->.
    { rewrite Hev, Hev2. rewrite Htr in Htr2. rewrite app_assoc in Htr2.
      rewrite (@since_app w w2 _ Htr2), rev_app_distr, !rev_involutive.
      reflexivity. }
    rewrite Hev2. cbn [before_closing_read is_closing_read app]. reflexivity.
Qed.

Lemma cycle_ignores_closing_witness :
  exists w1,
    runs_to (rollingCigarette 0;; smoke 0) w_half_closing (Returned tt w1) /\
    forallb (fun o => negb (is_closing_read o)) (since w_half_closing w1) = true /\
    load (nCigarettes (fSt w1)) 0 = Some (0 + 1) /\
    closing (fSt w1) = closing (at_smoke 0 w_half_closing) /\
    (closing (at_wake_up 0 w1) = true ->
     exists w2 later,
       runs_to (rollingCigarette 0;; smoke 0;; waitForIngredients 0) w_half_closing
               (Returned false w2) /\
       since w_half_closing w2
       = since w_half_closing w1 ++ before_closing_read (since w1 w2)
         ++ OLoadClosing true :: later /\
       cigarette_stores (since w_half_closing w1) = [(0, 0 + 1)]).
Proof.
  apply (@cycle_ignores_closing 0 w_half_closing 0).
  - unfold NUMSMOKERS. lia.
  - reflexivity.
  - reflexivity.
  - vm_compute. split; congruence.
Defined.

(** ** The claims about [main] *)

(** C5: the main loop repeats [waitForIngredients]; when it returns
    [false] the loop is over, and [main] detaches the shared region and
    returns [EXIT_SUCCESS]; when it returns [true], [rollingCigarette]
    and then [smoke] are run before the loop starts again; and a loop
    that is over was left that way, the closing flag having been read
    as set.  The shared resources are taken to connect and detach
    without error. *)
Theorem life_cycle_loop :
  (forall id w w1,
     runs_to (waitForIngredients id) w (Returned false w1) ->
     runs_to (life_cycle id) w (Returned tt w1)) /\
  (forall id w w1 w2 w3 o,
     runs_to (waitForIngredients id) w (Returned true w1) ->
     runs_to (rollingCigarette id) w1 (Returned tt w2) ->
     runs_to (smoke id) w2 (Returned tt w3) ->
     runs_to (life_cycle id) w3 o ->
     runs_to (life_cycle id) w o) /\
  (forall id w w',
     runs_to (life_cycle id) w (Returned tt w') ->
     exists w0 rc file snapshot older,
       runs_to (waitForIngredients id) w0 (Returned false w') /\
       trace w' =
         OSemUp mutex rc :: OSaveState file snapshot
         :: OStoreSmokerStat id CLOSING_S :: OLoadClosing true :: older) /\
  (forall argv w v1 v3 w1,
     List.length argv = 5%nat ->
     strtol (nth 1 argv EmptyString) = (v1, EmptyString) ->
     to_int (to_unsigned_int v1) < NUMSMOKERS ->
     (String.length (nth 2 argv EmptyString) < 51)%nat ->
     strtol (nth 3 argv EmptyString) = (v3, EmptyString) ->
     env_semConnect w <> -1 -> env_shmemConnect w <> -1 -> env_shmemAttach w <> -1 ->
     runs_to (life_cycle (to_int (to_unsigned_int v1)))
             (started argv (to_int (to_unsigned_int v3)) w) (Returned tt w1) ->
     env_shmemDettach w1 <> -1 ->
     runs_to (main argv) w
             (Returned EXIT_SUCCESS (log (OShmemDettach (env_shmemDettach w1)) w1))).
Proof.
  split; [|split; [|split]].
  - intros id w w1. apply life_cycle_exit.
  - intros id w w1 w2 w3 o. apply life_cycle_again.
  - intros id w w' H. destruct (runs_to_run H) as [n [Hn _]].
    destruct (@life_cycle_left id n w w' Hn) as [w0 Hw0].
    destruct (@wait_false_closing id w0 w' Hw0) as [rc [file [snapshot [older Htr]]]].
    exists w0, rc, file, snapshot, older. split; assumption.
  - intros argv w v1 v3 w1. apply main_run.
Qed.

Lemma life_cycle_loop_witness :
  exists w', runs_to (main (argv_of "0")) w_closing (Returned EXIT_SUCCESS w').
Proof.
  destruct life_cycle_loop as [Hexit [_ [_ Hmain]]].
  eexists.
  eapply (Hmain (argv_of "0") w_closing 0 1234).
  - reflexivity.
  - reflexivity.
  - vm_compute. reflexivity.
  - vm_compute. lia.
  - reflexivity.
  - vm_compute. congruence.
  - vm_compute. congruence.
  - vm_compute. congruence.
  - apply Hexit. apply (@run_runs_to _ 40); [vm_compute; reflexivity | exact I].
  - vm_compute. congruence.
Defined.

(** C7 fails on the code for negative identifiers: [n] is an [int], so
    the cast to [unsigned int] is undone by the assignment and the test
    [n >= NUMSMOKERS] compares signed values.  The identifier 3 is
    rejected before any IPC operation; the identifier -1 passes the
    test: [main] connects to the semaphore set and the shared region,
    enters the life cycle of smoker -1 and stores outside [smokerStat]. *)
Theorem main_accepts_negative_id :
  (exists w',
     runs_to (main (argv_of "3")) w_supplied (Returned EXIT_FAILURE w') /\
     since w_supplied w' =
       [OFreopen "smoker.err" "w"; OSetbufStderr;
        OFprintfStderr ("Smoker process identification is wrong!" ++ newline)%string]) /\
  strtol "-1" = (-1, EmptyString) /\
  to_int (to_unsigned_int (-1)) = -1 /\
  (exists w',
     runs_to (main (argv_of "-1")) w_supplied (Halted HUndefined w') /\
     since w_supplied w' =
       [OFreopen "smoker.err" "w"; OSetbufStderr; OStrcpyNFic "smoker.log";
        OSemConnect 1234 0; OShmemConnect 1234 0; OShmemAttach 0; OSrandom 1;
        OSemDown mutex 0; OUndefined]).
Proof.
  split; [|split; [|split]].
  - eexists. split.
    + apply (@run_runs_to _ 40); [vm_compute; reflexivity | exact I].
    + vm_compute. reflexivity.
  - reflexivity.
  - reflexivity.
  - eexists. split.
    + apply (@run_runs_to _ 40); [vm_compute; reflexivity | exact I].
    + vm_compute. reflexivity.
Qed.

(** ** The simulation: ingredient counts are never negative *)

(** The region entered after the wake-up, run on its own. *)
Lemma woken_run (id : Z) (w : world) :
  0 <= id < NUMSMOKERS ->
  (closing (fSt w) = false ->
   forall j v, j <> id -> load (ingredients (fSt w)) j = Some v -> INT_MIN < v <= INT_MAX) ->
  exists w',
    runs_to (woken id) w (Returned (negb (closing (fSt w))) w') /\
    fSt w' =
      if closing (fSt w)
      then set_status id CLOSING_S (fSt w)
      else set_ingredients (add_others id (-1) (ingredients (fSt w))) (fSt w).
Proof.
  intros Hid Hr. unfold set_status.
  destruct (closing (fSt w)) eqn:Hc.
  - three_ids id Hid.
    all: eexists; split;
      [apply (run_runs_to 20); [|exact I]; open_calls; run_steps; reflexivity|].
    all: world_simpl; reflexivity.
  - specialize (Hr eq_refl). three_ids id Hid.
    + pose proof (Hr 1 _ ltac:(lia) eq_refl) as H1.
      pose proof (Hr 2 _ ltac:(lia) eq_refl) as H2.
      eexists; split;
        [apply (run_runs_to 20); [|exact I]; open_calls; run_steps; int_facts; reflexivity|].
      world_simpl. unfold add_others, set_ingredients. cbn [Z.eqb].
      rewrite Z.add_0_r. reflexivity.
    + pose proof (Hr 0 _ ltac:(lia) eq_refl) as H1.
      pose proof (Hr 2 _ ltac:(lia) eq_refl) as H2.
      eexists; split;
        [apply (run_runs_to 20); [|exact I]; open_calls; run_steps; int_facts; reflexivity|].
      world_simpl. unfold add_others, set_ingredients. cbn [Z.eqb Pos.eqb].
      rewrite Z.add_0_r. reflexivity.
    + pose proof (Hr 0 _ ltac:(lia) eq_refl) as H1.
      pose proof (Hr 1 _ ltac:(lia) eq_refl) as H2.
      eexists; split;
        [apply (run_runs_to 20); [|exact I]; open_calls; run_steps; int_facts; reflexivity|].
      world_simpl. unfold add_others, set_ingredients. cbn [Z.eqb Pos.eqb].
      rewrite Z.add_0_r. reflexivity.
Qed.

Lemma backed_initial (st : simulation) : initial st -> backed st.
Proof.
  intros [Hr [Hp [Hi [H0 [H1 H2]]]]]. unfold backed, in_ints in *. rewrite Hr, Hp.
  cbn [cell0 cell1 cell2]. repeat split; try assumption; lia.
Qed.

Ltac open_backed :=
  unfold backed, in_ints, add_at, add_others, set_status, set_cigarettes, set_ingredients,
    set_closing, set_smokerStat, set_nCigarettes, INT_MIN, INT_MAX in *;
  cbn [shared ready woken_up ingredients closing cell0 cell1 cell2 Z.eqb Pos.eqb store] in *.

Lemma backed_agent (st st' : simulation) :
  backed st -> agent_step st st' -> backed st'.
Proof.
  intros Hb Hs. destruct Hs as [k st Hk Hin|st].
  - three_ids k Hk; open_backed; repeat split; try lia;
      destruct Hb as (_ & _ & _ & _ & _ & _ & _ & _ & _ & _ & Hb);
      specialize (Hb H); lia.
  - open_backed. repeat split; try lia; discriminate.
Qed.

Lemma backed_smoker (k : Z) (st st' : simulation) :
  0 <= k < NUMSMOKERS -> backed st -> smoker_step k st st' -> backed st'.
Proof.
  intros Hk Hb Hs. destruct Hs as [st|st r Hr Hpos|st p w w' b Hp Hpos Hw Hrun|st|st v Hv].
  - unfold set_status. destruct (store _ _ _); exact Hb.
  - three_ids k Hk; cbn [load] in Hr; injection Hr as <-;
      open_backed; repeat split; try lia;
      destruct Hb as (_ & _ & _ & _ & _ & _ & _ & _ & _ & _ & Hb);
      specialize (Hb H); lia.
  - assert (closing (fSt w) = false ->
            forall j v, j <> k -> load (ingredients (fSt w)) j = Some v ->
                        INT_MIN < v <= INT_MAX) as Hrange.
    { rewrite Hw. intros Hc j v Hj Hl.
      destruct Hb as (Hin & ? & ? & ? & ? & ? & ? & ? & ? & ? & Hb).
      specialize (Hb Hc). unfold in_ints, INT_MIN, INT_MAX in *.
      three_ids k Hk; cbn [load] in Hp; injection Hp as <-;
        apply load_cases in Hl as [[-> ->]|[[-> ->]|[-> ->]]]; lia. }
    destruct (@woken_run k w Hk Hrange) as [w1 [Hrun1 Hst]].
    pose proof (runs_to_unique Hrun Hrun1) as Heq.
    assert (w' = w1) by congruence. subst w1. clear Heq. rewrite Hw in Hst. clear Hrange Hrun Hrun1 Hw.
    destruct (closing (shared st)) eqn:Hc.
    + three_ids k Hk; cbn [load] in Hp; injection Hp as <-; rewrite Hst;
        open_backed; rewrite Hc; repeat split; try lia; congruence.
    + three_ids k Hk; cbn [load] in Hp; injection Hp as <-; rewrite Hst;
        open_backed; rewrite Hc in *; repeat split; try lia;
        destruct Hb as (_ & _ & _ & _ & _ & _ & _ & _ & _ & _ & Hb);
        specialize (Hb eq_refl); lia.
  - unfold set_status. destruct (store _ _ _); exact Hb.
  - unfold set_cigarettes, set_status.
    destruct (store (smokerStat _) _ _); cbn [nCigarettes set_smokerStat];
      destruct (store _ _ _); exact Hb.
Qed.

Lemma reachable_backed (st : simulation) : reachable st -> backed st.
Proof.
  induction 1 as [st Hi|st st' _ IH Hs].
  - now apply backed_initial.
  - destruct Hs as [Ha|k Hk Hs]; [eapply backed_agent | eapply backed_smoker]; eauto.
Qed.

(** C6: in every reachable state of the simulation every ingredient
    count is at least zero; in particular no decrement by a smoker
    takes a count below zero. *)
Theorem ingredients_never_negative (st : simulation) (k v : Z) :
  reachable st ->
  load (ingredients (shared st)) k = Some v ->
  0 <= v.
Proof.
  intros Hreach Hl. apply reachable_backed in Hreach.
  destruct Hreach as (_ & H0 & H1 & H2 & _).
  apply load_cases in Hl as [[_ ->]|[[_ ->]|[_ ->]]]; assumption.
Qed.

Lemma sim_consumed_reachable : reachable sim_consumed.
Proof.
  assert (step sim_start sim_supplied) as H1.
  { apply step_agent.
    exact (@agent_supplies 0 sim_start
             ltac:(unfold NUMSMOKERS; lia)
             ltac:(vm_compute; repeat split; congruence)). }
  assert (step sim_supplied sim_woken) as H2.
  { apply (@step_smoker _ _ 0); [unfold NUMSMOKERS; lia|].
    exact (@smoker_wakes 0 sim_supplied 1 eq_refl ltac:(lia)). }
  assert (step sim_woken sim_consumed) as H3.
  { apply (@step_smoker _ _ 0); [unfold NUMSMOKERS; lia|].
    assert (runs_to (woken 0) (world_of (supply_smoker0 st_empty) [] [])
              (Returned true
                 (final_world (run 20 (woken 0) (world_of (supply_smoker0 st_empty) [] [])))))
      as Hrun.
    { apply (@run_runs_to _ 20); [vm_compute; reflexivity | exact I]. }
    exact (@smoker_consumes 0 sim_woken 1 (world_of (supply_smoker0 st_empty) [] []) _ true
             eq_refl ltac:(lia) eq_refl Hrun). }
  refine (reachable_step _ H3). refine (reachable_step _ H2). refine (reachable_step _ H1).
  apply reachable_initial. vm_compute. repeat split; congruence.
Qed.

Lemma ingredients_never_negative_witness :
  reachable sim_consumed /\
  load (ingredients (shared sim_consumed)) 1 = Some 0 /\
  0 <= 0.
Proof.
  split; [exact sim_consumed_reachable|]. split; [reflexivity|].
  apply (@ingredients_never_negative sim_consumed 1 0).
  - exact sim_consumed_reachable.
  - reflexivity.
Defined.

(** ** The claim about [normalRand] *)

Lemma normalRand_run (w : world) (stddev : double) :
  exists w',
    runs_to (normalRand stddev) w (Returned (normal_of (draws 0 12 w) stddev) w') /\
    trace w' = rev (List.map ORandom (draws 0 12 w)) ++ trace w.
Proof.
  eexists; split;
    [apply (run_runs_to 40); [|exact I]; open_calls; run_steps; reflexivity|].
  world_simpl. reflexivity.
Qed.

(** C8: for every sequence of draws of [random()], [normalRand (stddev)]
    returns the sum of twelve samples, each the draw divided by
    [RAND_MAX + 1.0] and so in [[0, 1)], minus 6, multiplied by
    [stddev]; the sum and the subtraction are exact, only the product
    is rounded.  In particular [normalRand (0.0)] returns zero whatever
    the draws are (with the sign bit set when the sum is below 6, a
    value that compares equal to [0.0]). *)
Theorem normalRand_value (w : world) (stddev : double) :
  drawn (draws 0 12 w) ->
  (exists w',
     runs_to (normalRand stddev) w (Returned (normal_of (draws 0 12 w) stddev) w') /\
     since w w' = List.map ORandom (draws 0 12 w)) /\
  normal_of (draws 0 12 w) stddev
  = d_mul (d_sub (sum_samples (draws 0 12 w) d_zero) (of_long 6)) stddev /\
  Forall (fun x => SFleb d_zero (uniform x) = true /\ SFltb (uniform x) (of_long 1) = true)
         (draws 0 12 w) /\
  normal_of (draws 0 12 w) stddev
  = d_mul (dyadic (total (draws 0 12 w) - 6 * 2 ^ 31)) stddev /\
  (exists w',
     runs_to (normalRand d_zero) w
             (Returned (S754_zero (total (draws 0 12 w) <? 6 * 2 ^ 31)) w')) /\
  SFeqb (normal_of (draws 0 12 w) d_zero) d_zero = true.
Proof.
  intros Hd.
  assert (List.length (draws 0 12 w) = 12%nat) as Hlen by reflexivity.
  destruct (normal_of_zero (draws 0 12 w) Hd Hlen) as [Hz Heq].
  split; [|split; [|split; [|split; [|split]]]].
  - destruct (normalRand_run w stddev) as [w' [Hrun Htr]].
    exists w'. split; [exact Hrun|].
    rewrite (@since_app w w' _ Htr). apply rev_involutive.
  - reflexivity.
  - eapply Forall_impl; [|exact Hd]. intros x Hx. apply uniform_range. exact Hx.
  - apply normal_of_dyadic; assumption.
  - destruct (normalRand_run w d_zero) as [w' [Hrun _]].
    exists w'. rewrite <- Hz. exact Hrun.
  - exact Heq.
Qed.

Lemma normalRand_value_witness :
  (exists w',
     runs_to (normalRand (of_long 30)) w_half
             (Returned (normal_of (draws 0 12 w_half) (of_long 30)) w') /\
     since w_half w' = List.map ORandom (draws 0 12 w_half)) /\
  normal_of (draws 0 12 w_half) (of_long 30)
  = d_mul (d_sub (sum_samples (draws 0 12 w_half) d_zero) (of_long 6)) (of_long 30) /\
  Forall (fun x => SFleb d_zero (uniform x) = true /\ SFltb (uniform x) (of_long 1) = true)
         (draws 0 12 w_half) /\
  normal_of (draws 0 12 w_half) (of_long 30)
  = d_mul (dyadic (total (draws 0 12 w_half) - 6 * 2 ^ 31)) (of_long 30) /\
  (exists w',
     runs_to (normalRand d_zero) w_half
             (Returned (S754_zero (total (draws 0 12 w_half) <? 6 * 2 ^ 31)) w')) /\
  SFeqb (normal_of (draws 0 12 w_half) d_zero) d_zero = true.
Proof.
  apply (@normalRand_value w_half (of_long 30)).
  repeat constructor; vm_compute; congruence.
Defined.

(** ** Further properties of [main] *)

Ltac prefix_of l t :=
  lazymatch l with
  | t => constr:(@nil obs)
  | ?x :: ?l' => let p := prefix_of l' t in constr:(x :: p)
  end.

(** The events between two worlds of which the second is written out. *)
Ltac read_since :=
  match goal with
  | |- context [since ?w ?w'] =>
      let tr := eval cbn [trace log set_fSt set_nFic set_semgid set_shmid set_env_down
                          set_env_up set_env_random] in (trace w') in
      let p := prefix_of tr (trace w) in
      rewrite (@since_app w w' p) by reflexivity; cbn [rev app]
  end.

(** The identifier test of [main], on the value [strtol] returned: the
    low 32 bits, read as an [int], are compared with [NUMSMOKERS]. *)
Lemma id_check (v : Z) :
  to_int (to_unsigned_int v) < NUMSMOKERS <->
  v mod 2 ^ 32 < NUMSMOKERS \/ 2 ^ 31 <= v mod 2 ^ 32.
Proof.
  unfold to_int, to_unsigned_int, NUMSMOKERS.
  pose proof (Z.mod_pos_bound v (2 ^ 32) ltac:(lia)) as Hx.
  set (x := v mod 2 ^ 32) in *.
  destruct (Z.ltb_spec x (2 ^ 31)) as [Hlt|Hge].
  - rewrite Z.mod_small by lia. lia.
  - replace ((x + 2 ^ 31) mod 2 ^ 32) with (x - 2 ^ 31).
    + lia.
    + apply (Z.mod_unique_pos _ _ 1); lia.
Qed.

(** The first steps of [main] on a command line of five arguments whose
    identifier passes the test. *)
Ltac main_arguments Hlen H1 Hn :=
  unfold main; rewrite Hlen; change (negb (Z.of_nat 5 =? 5)) with false; cbv iota;
  eapply runs_to_trigger_bind; [reflexivity|];
  eapply runs_to_trigger_bind; [reflexivity|];
  rewrite H1; cbv iota beta;
  replace (NUMSMOKERS <=? to_int (to_unsigned_int _)) with false
    by (symmetry; apply Z.leb_gt; apply id_check; exact Hn);
  change (negb (EmptyString =? EmptyString)%string || false) with false; cbv iota.

Ltac main_copies H2 :=
  eapply runs_to_trigger_bind;
  [cbn [handle];
   replace (Z.of_nat (String.length _) <? 51) with true by (symmetry; apply Z.ltb_lt; lia);
   reflexivity|].

Ltac main_key H3 :=
  rewrite H3; cbv iota beta;
  change (negb (EmptyString =? EmptyString)%string) with false; cbv iota.

Ltac main_call H :=
  eapply runs_to_trigger_bind; [reflexivity|]; world_simpl;
  first [ replace (_ =? -1) with false by (symmetry; apply Z.eqb_neq; exact H)
        | rewrite H; change (-1 =? -1) with true ];
  cbv iota.

(** X1: called with a number of arguments other than five, [main]
    redirects the error stream to the file [error_SM], opened for
    appending, writes a diagnostic and returns [EXIT_FAILURE]; it does
    nothing else. *)
Theorem main_wrong_argument_count (argv : list string) (w : world) :
  List.length argv <> 5%nat ->
  exists w',
    runs_to (main argv) w (Returned EXIT_FAILURE w') /\
    since w w' =
      [OFreopen "error_SM" "a";
       OFprintfStderr ("Number of parameters is incorrect!" ++ newline)%string] /\
    fSt w' = fSt w.
Proof.
  intros Hlen. eexists. split; [|split].
  - unfold main.
    replace (negb (Z.of_nat (List.length argv) =? 5)) with true
      by (symmetry; apply negb_true_iff, Z.eqb_neq; lia).
    cbv iota.
    eapply runs_to_trigger_bind; [reflexivity|].
    eapply runs_to_trigger_bind; [reflexivity|].
    apply runs_to_ret.
  - read_since. reflexivity.
  - reflexivity.
Qed.

Lemma main_wrong_argument_count_witness :
  exists w',
    runs_to (main ["smoker"; "0"]) w_unsupplied (Returned EXIT_FAILURE w') /\
    since w_unsupplied w' =
      [OFreopen "error_SM" "a";
       OFprintfStderr ("Number of parameters is incorrect!" ++ newline)%string] /\
    fSt w' = fSt w_unsupplied.
Proof.
  apply (@main_wrong_argument_count ["smoker"; "0"] w_unsupplied).
  simpl. lia.
Defined.

(** X2: an identifier that is not a complete number, or whose low 32
    bits are at least [NUMSMOKERS] and below [2^31], is refused: [main]
    writes a diagnostic to the redirected error stream and returns
    [EXIT_FAILURE] before it copies the log file name or parses the
    key. *)
Theorem main_identifier_refused (argv : list string) (w : world) (v1 : Z) (tinp : string) :
  List.length argv = 5%nat ->
  strtol (nth 1 argv EmptyString) = (v1, tinp) ->
  tinp <> EmptyString \/ NUMSMOKERS <= v1 mod 2 ^ 32 < 2 ^ 31 ->
  exists w',
    runs_to (main argv) w (Returned EXIT_FAILURE w') /\
    since w w' =
      [OFreopen (nth 4 argv EmptyString) "w"; OSetbufStderr;
       OFprintfStderr ("Smoker process identification is wrong!" ++ newline)%string] /\
    fSt w' = fSt w /\ nFic w' = nFic w.
Proof.
  intros Hlen H1 Hbad. eexists. split; [|split; [|split]].
  - apply (main_rejects argv w Hlen H1).
    destruct Hbad as [Ht|Hv]; [left; exact Ht|right].
    destruct (Z.leb_spec NUMSMOKERS (to_int (to_unsigned_int v1))) as [|Hlt]; [assumption|].
    apply id_check in Hlt. lia.
  - read_since. reflexivity.
  - reflexivity.
  - reflexivity.
Qed.

Lemma main_identifier_refused_witness :
  exists w',
    runs_to (main (argv_of "7")) w_unsupplied (Returned EXIT_FAILURE w') /\
    since w_unsupplied w' =
      [OFreopen (nth 4 (argv_of "7") EmptyString) "w"; OSetbufStderr;
       OFprintfStderr ("Smoker process identification is wrong!" ++ newline)%string] /\
    fSt w' = fSt w_unsupplied /\ nFic w' = nFic w_unsupplied.
Proof.
  apply (@main_identifier_refused (argv_of "7") w_unsupplied 7 EmptyString).
  - reflexivity.
  - reflexivity.
  - right. vm_compute. split; [discriminate|reflexivity].
Defined.

(** X3: a key that is not a complete number is refused after the log
    file name has been copied into [nFic] and before any IPC operation:
    [main] writes a diagnostic and returns [EXIT_FAILURE]. *)
Theorem main_key_refused (argv : list string) (w : world) (v1 v3 : Z) (tinp : string) :
  List.length argv = 5%nat ->
  strtol (nth 1 argv EmptyString) = (v1, EmptyString) ->
  v1 mod 2 ^ 32 < NUMSMOKERS \/ 2 ^ 31 <= v1 mod 2 ^ 32 ->
  (String.length (nth 2 argv EmptyString) < 51)%nat ->
  strtol (nth 3 argv EmptyString) = (v3, tinp) ->
  tinp <> EmptyString ->
  exists w',
    runs_to (main argv) w (Returned EXIT_FAILURE w') /\
    since w w' =
      [OFreopen (nth 4 argv EmptyString) "w"; OSetbufStderr;
       OStrcpyNFic (nth 2 argv EmptyString);
       OFprintfStderr ("Error on the access key communication!" ++ newline)%string] /\
    nFic w' = nth 2 argv EmptyString /\ fSt w' = fSt w.
Proof.
  intros Hlen H1 Hn H2 H3 Ht. eexists. split; [|split; [|split]].
  - main_arguments Hlen H1 Hn. main_copies H2.
    rewrite H3. cbv iota beta.
    replace (negb (tinp =? EmptyString)%string) with true
      by (symmetry; apply negb_true_iff, String.eqb_neq; exact Ht).
    cbv iota.
    eapply runs_to_trigger_bind; [reflexivity|]. apply runs_to_ret.
  - read_since. reflexivity.
  - reflexivity.
  - reflexivity.
Qed.

Lemma main_key_refused_witness :
  exists w',
    runs_to (main ["smoker"; "0"; "smoker.log"; "12k"; "smoker.err"]) w_unsupplied
            (Returned EXIT_FAILURE w') /\
    since w_unsupplied w' =
      [OFreopen "smoker.err" "w"; OSetbufStderr; OStrcpyNFic "smoker.log";
       OFprintfStderr ("Error on the access key communication!" ++ newline)%string] /\
    nFic w' = "smoker.log" /\ fSt w' = fSt w_unsupplied.
Proof.
  apply (@main_key_refused ["smoker"; "0"; "smoker.log"; "12k"; "smoker.err"]
           w_unsupplied 0 12 "k").
  - reflexivity.
  - reflexivity.
  - left. vm_compute. reflexivity.
  - simpl. lia.
  - reflexivity.
  - discriminate.
Defined.

(** X4: [main] copies the log file name into the 51 bytes of [nFic]
    without looking at its length: a name of 51 characters or more is
    written beyond the end of [nFic]. *)
Theorem main_log_name_overflows (argv : list string) (w : world) (v1 : Z) :
  List.length argv = 5%nat ->
  strtol (nth 1 argv EmptyString) = (v1, EmptyString) ->
  v1 mod 2 ^ 32 < NUMSMOKERS \/ 2 ^ 31 <= v1 mod 2 ^ 32 ->
  (51 <= String.length (nth 2 argv EmptyString))%nat ->
  exists w',
    runs_to (main argv) w (Halted HUndefined w') /\
    since w w' = [OFreopen (nth 4 argv EmptyString) "w"; OSetbufStderr; OUndefined].
Proof.
  intros Hlen H1 Hn H2. eexists. split.
  - main_arguments Hlen H1 Hn.
    apply (@run_runs_to _ 2); [|exact I].
    rewrite run_bind_trigger. cbn [handle].
    replace (Z.of_nat (String.length (nth 2 argv EmptyString)) <? 51) with false
      by (symmetry; apply Z.ltb_ge; lia).
    reflexivity.
  - read_since. reflexivity.
Qed.

Lemma main_log_name_overflows_witness :
  exists w',
    runs_to (main ["smoker"; "0"; long_name; "1234"; "smoker.err"]) w_unsupplied
            (Halted HUndefined w') /\
    since w_unsupplied w' = [OFreopen "smoker.err" "w"; OSetbufStderr; OUndefined].
Proof.
  apply (@main_log_name_overflows ["smoker"; "0"; long_name; "1234"; "smoker.err"]
           w_unsupplied 0).
  - reflexivity.
  - reflexivity.
  - left. vm_compute. reflexivity.
  - vm_compute. repeat constructor.
Defined.

(** X5: when one of [semConnect], [shmemConnect] and [shmemAttach]
    fails, [main] reports it with [perror] and returns [EXIT_FAILURE]
    without making the calls that come after it: the shared region is
    not used and the life cycle is not started. *)
Theorem main_connection_fails (argv : list string) (w : world) (v1 v3 : Z) :
  List.length argv = 5%nat ->
  strtol (nth 1 argv EmptyString) = (v1, EmptyString) ->
  v1 mod 2 ^ 32 < NUMSMOKERS \/ 2 ^ 31 <= v1 mod 2 ^ 32 ->
  (String.length (nth 2 argv EmptyString) < 51)%nat ->
  strtol (nth 3 argv EmptyString) = (v3, EmptyString) ->
  env_semConnect w = -1 \/ env_shmemConnect w = -1 \/ env_shmemAttach w = -1 ->
  exists w',
    runs_to (main argv) w (Returned EXIT_FAILURE w') /\
    since w w' =
      [OFreopen (nth 4 argv EmptyString) "w"; OSetbufStderr;
       OStrcpyNFic (nth 2 argv EmptyString)]
      ++ (if env_semConnect w =? -1
          then [OSemConnect (to_int (to_unsigned_int v3)) (-1);
                OPerror "error on connecting to the semaphore set"]
          else OSemConnect (to_int (to_unsigned_int v3)) (env_semConnect w)
               :: (if env_shmemConnect w =? -1
                   then [OShmemConnect (to_int (to_unsigned_int v3)) (-1);
                         OPerror "error on connecting to the shared memory region"]
                   else [OShmemConnect (to_int (to_unsigned_int v3)) (env_shmemConnect w);
                         OShmemAttach (-1);
                         OPerror
                           "error on mapping the shared region on the process address space"]))
    /\ fSt w' = fSt w.
Proof.
  intros Hlen H1 Hn H2 H3 Hfail.
  destruct (env_semConnect w =? -1) eqn:E1;
    [|destruct (env_shmemConnect w =? -1) eqn:E2;
      [|destruct (env_shmemAttach w =? -1) eqn:E3]].
  4: { apply Z.eqb_neq in E1, E2, E3. exfalso. destruct Hfail as [?|[?|?]]; contradiction. }
  all: eexists; split;
    [main_arguments Hlen H1 Hn; main_copies H2; main_key H3;
     repeat (eapply runs_to_trigger_bind; [reflexivity|]; world_simpl;
             try rewrite E1; try rewrite E2; try rewrite E3; cbv iota);
     apply runs_to_ret
    |split; [|reflexivity]].
  all: read_since;
    repeat match goal with
           | H : (_ =? -1) = true |- _ => apply Z.eqb_eq in H; rewrite ?H
           end;
    reflexivity.
Qed.

Lemma main_connection_fails_witness :
  exists w',
    runs_to (main (argv_of "0")) (world_connecting 5 6 (-1) 0 []) (Returned EXIT_FAILURE w') /\
    since (world_connecting 5 6 (-1) 0 []) w' =
      [OFreopen "smoker.err" "w"; OSetbufStderr; OStrcpyNFic "smoker.log";
       OSemConnect 1234 5; OShmemConnect 1234 6; OShmemAttach (-1);
       OPerror "error on mapping the shared region on the process address space"]
    /\ fSt w' = fSt (world_connecting 5 6 (-1) 0 []).
Proof.
  apply (@main_connection_fails (argv_of "0") (world_connecting 5 6 (-1) 0 []) 0 1234).
  - reflexivity.
  - reflexivity.
  - left. vm_compute. reflexivity.
  - simpl. lia.
  - reflexivity.
  - right. right. reflexivity.
Defined.

(** X6: when the life cycle is over and [shmemDettach] fails, [main]
    reports it with [perror] and returns [EXIT_FAILURE]. *)
Theorem main_detach_fails (argv : list string) (w : world) (v1 v3 : Z) (w1 : world) :
  List.length argv = 5%nat ->
  strtol (nth 1 argv EmptyString) = (v1, EmptyString) ->
  v1 mod 2 ^ 32 < NUMSMOKERS \/ 2 ^ 31 <= v1 mod 2 ^ 32 ->
  (String.length (nth 2 argv EmptyString) < 51)%nat ->
  strtol (nth 3 argv EmptyString) = (v3, EmptyString) ->
  env_semConnect w <> -1 -> env_shmemConnect w <> -1 -> env_shmemAttach w <> -1 ->
  runs_to (life_cycle (to_int (to_unsigned_int v1)))
          (started argv (to_int (to_unsigned_int v3)) w) (Returned tt w1) ->
  env_shmemDettach w1 = -1 ->
  exists w',
    runs_to (main argv) w (Returned EXIT_FAILURE w') /\
    since w1 w' =
      [OShmemDettach (-1);
       OPerror "error on unmapping the shared region off the process address space"] /\
    fSt w' = fSt w1.
Proof.
  intros Hlen H1 Hn H2 H3 Hc1 Hc2 Hc3 Hlife Hd. eexists. split; [|split].
  - main_arguments Hlen H1 Hn. main_copies H2. main_key H3.
    main_call Hc1. main_call Hc2. main_call Hc3.
    eapply runs_to_trigger_bind; [reflexivity|]. world_simpl.
    eapply runs_to_bind; [exact Hlife|].
    eapply runs_to_trigger_bind; [reflexivity|]. cbn [env_shmemDettach log].
    rewrite Hd. change (-1 =? -1) with true. cbv iota.
    eapply runs_to_trigger_bind; [reflexivity|]. apply runs_to_ret.
  - read_since. reflexivity.
  - reflexivity.
Qed.

Lemma main_detach_fails_witness :
  exists w',
    runs_to (main (argv_of "0")) (world_connecting 5 6 0 (-1) [(0, idle); (0, set_closing true)])
            (Returned EXIT_FAILURE w') /\
    since (final_world
             (run 60 (life_cycle 0)
                (started (argv_of "0") 1234
                   (world_connecting 5 6 0 (-1) [(0, idle); (0, set_closing true)])))) w' =
      [OShmemDettach (-1);
       OPerror "error on unmapping the shared region off the process address space"] /\
    fSt w' =
      fSt (final_world
             (run 60 (life_cycle 0)
                (started (argv_of "0") 1234
                   (world_connecting 5 6 0 (-1) [(0, idle); (0, set_closing true)])))).
Proof.
  apply (@main_detach_fails (argv_of "0")
           (world_connecting 5 6 0 (-1) [(0, idle); (0, set_closing true)]) 0 1234).
  - reflexivity.
  - reflexivity.
  - left. vm_compute. reflexivity.
  - simpl. lia.
  - reflexivity.
  - vm_compute. discriminate.
  - vm_compute. discriminate.
  - vm_compute. discriminate.
  - apply (@run_runs_to _ 60); [vm_compute; reflexivity | exact I].
  - vm_compute. reflexivity.
Defined.

(** ** Every run of the operations *)

(** The results of the semaphore operations of a call, case by case in
    the order of the calls. *)
Ltac semaphore_cases w downs_ups :=
  lazymatch downs_ups with
  | nil => idtac
  | cons (inl ?k) ?rest =>
      let D := fresh "D" in
      destruct (rc_down k w =? -1) eqn:D; [|semaphore_cases w rest]
  | cons (inr ?k) ?rest =>
      let U := fresh "U" in
      destruct (rc_up k w =? -1) eqn:U; [|semaphore_cases w rest]
  end.

Ltac use_tests :=
  repeat match goal with
         | H : (rc_down _ _ =? -1) = _ |- _ => rewrite H
         | H : (rc_up _ _ =? -1) = _ |- _ => rewrite H
         end.

Ltac eval_events :=
  cbn [final_world]; read_since;
  repeat (cbn [disciplined mutex_after touches_region holds_mutex sleeps_locked
               andb negb app rev];
          try (progress use_tests)).

Ltac exited :=
  right; unfold exits_on_failure;
  lazymatch goal with
  | |- exists w' ev older, Halted _ ?w0 = _ /\ _ =>
      let tr := eval cbn [trace log set_fSt set_nFic set_semgid set_shmid set_env_down
                          set_env_up set_env_random] in (trace w0) in
      lazymatch tr with
      | _ :: _ :: ?ev :: ?older => exists w0, ev, older
      end
  end;
  split; [reflexivity|]; split; [reflexivity | cbn [failed]; assumption].

Lemma wait_paths (id : Z) (w : world) :
  0 <= id < NUMSMOKERS ->
  (closing (at_wake_up id w) = false ->
   forall j v, j <> id -> load (ingredients (at_wake_up id w)) j = Some v ->
               INT_MIN < v <= INT_MAX) ->
  exists o,
    runs_to (waitForIngredients id) w o /\
    ((exists w', o = Returned (negb (closing (at_wake_up id w))) w' /\
                 holds_mutex false (since w w') = false /\
                 rc_down 0 w <> -1 /\ rc_up 0 w <> -1 /\ rc_down 1 w <> -1 /\
                 rc_down 2 w <> -1 /\ rc_up 1 w <> -1) \/
     exits_on_failure o) /\
    disciplined false (since w (final_world o)) = true.
Proof.
  intros Hid Hr.
  destruct (closing (at_wake_up id w)) eqn:Hc.
  - clear Hr. unfold at_wake_up, set_status in Hc.
    semaphore_cases w [inl 0%nat; inr 0%nat; inl 1%nat; inl 2%nat; inr 1%nat].
    all: three_ids id Hid; world_simpl.
    all: eexists; split;
      [apply (run_runs_to 40); [open_calls; run_steps; reflexivity|exact I]|].
    all: split; [|eval_events; reflexivity].
    all: first [ exited
               | left; eexists; split; [reflexivity|]; split; [eval_events; reflexivity|];
                 repeat split; apply Z.eqb_neq; assumption ].
  - specialize (Hr eq_refl). unfold at_wake_up, set_status in Hc, Hr.
    semaphore_cases w [inl 0%nat; inr 0%nat; inl 1%nat; inl 2%nat; inr 1%nat].
    all: three_ids id Hid; world_simpl.
    all: try (pose proof (Hr 0 _ ltac:(lia) eq_refl));
      try (pose proof (Hr 1 _ ltac:(lia) eq_refl));
      try (pose proof (Hr 2 _ ltac:(lia) eq_refl)).
    all: eexists; split;
      [apply (run_runs_to 40); [open_calls; run_steps; int_facts; reflexivity|exact I]|].
    all: split; [|eval_events; reflexivity].
    all: first [ exited
               | left; eexists; split; [reflexivity|]; split; [eval_events; reflexivity|];
                 repeat split; apply Z.eqb_neq; assumption ].
Qed.

Lemma rolling_paths (id : Z) (w : world) :
  0 <= id < NUMSMOKERS ->
  exists o,
    runs_to (rollingCigarette id) w o /\
    ((exists w', o = Returned tt w' /\
                 holds_mutex false (since w w') = false /\
                 rc_down 0 w <> -1 /\ rc_up 0 w <> -1 /\ rc_up 1 w <> -1) \/
     exits_on_failure o) /\
    disciplined false (since w (final_world o)) = true.
Proof.
  intros Hid.
  destruct (d_gt (work_time (draws 0 12 w)) d_zero) eqn:Ht; open_times Ht.
  all: semaphore_cases w [inl 0%nat; inr 0%nat; inr 1%nat].
  all: three_ids id Hid; world_simpl.
  all: eexists; split;
    [apply (run_runs_to 60); [open_calls; run_steps; reflexivity|exact I]|].
  all: split; [|eval_events; reflexivity].
  all: first [ exited
             | left; eexists; split; [reflexivity|]; split; [eval_events; reflexivity|];
               repeat split; apply Z.eqb_neq; assumption ].
Qed.

Lemma smoke_paths (id : Z) (w : world) :
  0 <= id < NUMSMOKERS ->
  (forall v, load (nCigarettes (others 0 w (fSt w))) id = Some v -> INT_MIN <= v < INT_MAX) ->
  exists o,
    runs_to (smoke id) w o /\
    ((exists w', o = Returned tt w' /\
                 holds_mutex false (since w w') = false /\
                 rc_down 0 w <> -1 /\ rc_up 0 w <> -1) \/
     exits_on_failure o) /\
    disciplined false (since w (final_world o)) = true.
Proof.
  intros Hid Hr.
  destruct (d_gt (work_time (draws 0 12 w)) d_zero) eqn:Ht; open_times Ht.
  all: semaphore_cases w [inl 0%nat; inr 0%nat].
  all: three_ids id Hid; world_simpl; pose proof (Hr _ eq_refl).
  all: eexists; split;
    [apply (run_runs_to 60); [open_calls; run_steps; int_facts; reflexivity|exact I]|].
  all: split; [|eval_events; reflexivity].
  all: first [ exited
             | left; eexists; split; [reflexivity|]; split; [eval_events; reflexivity|];
               repeat split; apply Z.eqb_neq; assumption ].
Qed.

(** X7: when its three calls of [semDown] return (a [semDown] that is
    never signalled blocks for ever, and then the call has no outcome),
    [waitForIngredients (id)] comes to an end in one of two ways.
    Either all of its five semaphore operations succeed and it returns,
    [true] exactly when the closing flag is clear after the wake-up, no
    longer holding the mutex; or one of them fails, and then the
    process reports the failure with [perror] and calls
    [exit (EXIT_FAILURE)] at once, without doing anything else to the
    shared region. *)
Theorem waitForIngredients_ends (id : Z) (w : world) :
  0 <= id < NUMSMOKERS ->
  (closing (at_wake_up id w) = false ->
   forall j v, j <> id -> load (ingredients (at_wake_up id w)) j = Some v ->
               INT_MIN < v <= INT_MAX) ->
  answered 3 w ->
  exists o,
    runs_to (waitForIngredients id) w o /\
    ((exists w', o = Returned (negb (closing (at_wake_up id w))) w' /\
                 holds_mutex false (since w w') = false /\
                 rc_down 0 w <> -1 /\ rc_up 0 w <> -1 /\ rc_down 1 w <> -1 /\
                 rc_down 2 w <> -1 /\ rc_up 1 w <> -1) \/
     exits_on_failure o).
Proof.
  intros Hid Hr _. destruct (@wait_paths id w Hid Hr) as [o [Hrun [Hend _]]].
  exists o. split; assumption.
Qed.

Lemma waitForIngredients_ends_witness :
  exists o,
    runs_to (waitForIngredients 0) w_wait_fails_answered o /\
    ((exists w', o = Returned (negb (closing (at_wake_up 0 w_wait_fails_answered))) w' /\
                 holds_mutex false (since w_wait_fails_answered w') = false /\
                 rc_down 0 w_wait_fails_answered <> -1 /\ rc_up 0 w_wait_fails_answered <> -1 /\
                 rc_down 1 w_wait_fails_answered <> -1 /\
                 rc_down 2 w_wait_fails_answered <> -1 /\ rc_up 1 w_wait_fails_answered <> -1) \/
     exits_on_failure o).
Proof.
  apply (@waitForIngredients_ends 0 w_wait_fails_answered).
  - unfold NUMSMOKERS. lia.
  - intros _ j v _ Hj. apply load_cases in Hj as [[_ ->]|[[_ ->]|[_ ->]]];
      vm_compute; split; congruence.
  - unfold answered. simpl. lia.
Defined.

(** X8: when its call of [semDown] on the mutex returns (it blocks
    while another process holds the mutex, for ever if the mutex is
    never released), [rollingCigarette (id)] comes to an end in one of
    two ways: it returns, no longer holding the mutex, when its three
    semaphore operations succeed; when one of them fails the process
    reports it and calls [exit (EXIT_FAILURE)] at once. *)
Theorem rollingCigarette_ends (id : Z) (w : world) :
  0 <= id < NUMSMOKERS ->
  answered 1 w ->
  exists o,
    runs_to (rollingCigarette id) w o /\
    ((exists w', o = Returned tt w' /\
                 holds_mutex false (since w w') = false /\
                 rc_down 0 w <> -1 /\ rc_up 0 w <> -1 /\ rc_up 1 w <> -1) \/
     exits_on_failure o).
Proof.
  intros Hid _. destruct (@rolling_paths id w Hid) as [o [Hrun [Hend _]]].
  exists o. split; assumption.
Qed.

Lemma rollingCigarette_ends_witness :
  exists o,
    runs_to (rollingCigarette 0) w_signal_fails o /\
    ((exists w', o = Returned tt w' /\
                 holds_mutex false (since w_signal_fails w') = false /\
                 rc_down 0 w_signal_fails <> -1 /\ rc_up 0 w_signal_fails <> -1 /\
                 rc_up 1 w_signal_fails <> -1) \/
     exits_on_failure o).
Proof.
  apply (@rollingCigarette_ends 0 w_signal_fails).
  - unfold NUMSMOKERS. lia.
  - unfold answered. simpl. lia.
Defined.

(** X9: when its call of [semDown] on the mutex returns (it blocks
    while another process holds the mutex, for ever if the mutex is
    never released), [smoke (id)] comes to an end in one of two ways,
    the count of cigarettes being an [int] below [INT_MAX]: it returns,
    no longer holding the mutex, when its two semaphore operations
    succeed; when one of them fails the process reports it and calls
    [exit (EXIT_FAILURE)] at once. *)
Theorem smoke_ends (id : Z) (w : world) :
  0 <= id < NUMSMOKERS ->
  (forall v, load (nCigarettes (others 0 w (fSt w))) id = Some v -> INT_MIN <= v < INT_MAX) ->
  answered 1 w ->
  exists o,
    runs_to (smoke id) w o /\
    ((exists w', o = Returned tt w' /\
                 holds_mutex false (since w w') = false /\
                 rc_down 0 w <> -1 /\ rc_up 0 w <> -1) \/
     exits_on_failure o).
Proof.
  intros Hid Hr _. destruct (@smoke_paths id w Hid Hr) as [o [Hrun [Hend _]]].
  exists o. split; assumption.
Qed.

Lemma smoke_ends_witness :
  exists o,
    runs_to (smoke 0) w_half_answered o /\
    ((exists w', o = Returned tt w' /\
                 holds_mutex false (since w_half_answered w') = false /\
                 rc_down 0 w_half_answered <> -1 /\ rc_up 0 w_half_answered <> -1) \/
     exits_on_failure o).
Proof.
  apply (@smoke_ends 0 w_half_answered).
  - unfold NUMSMOKERS. lia.
  - intros v Hv. vm_compute in Hv. injection Hv as <-. vm_compute. split; congruence.
  - unfold answered. simpl. lia.
Defined.

(** X10: in every run of [waitForIngredients], of [rollingCigarette] and
    of [smoke], whether the semaphore operations succeed or one of them
    fails, the smoker keeps to the protocol of the mutex: it reads,
    writes and saves the shared region only while it holds the mutex,
    it never acquires the mutex while holding it, and it waits on
    [wait2Ings[id]] and signals [waitCigarette] only after it has
    released the mutex. *)
Theorem mutex_protocol (id : Z) (w : world) :
  0 <= id < NUMSMOKERS ->
  (closing (at_wake_up id w) = false ->
   forall j v, j <> id -> load (ingredients (at_wake_up id w)) j = Some v ->
               INT_MIN < v <= INT_MAX) ->
  (forall v, load (nCigarettes (others 0 w (fSt w))) id = Some v -> INT_MIN <= v < INT_MAX) ->
  (exists o, runs_to (waitForIngredients id) w o /\
             disciplined false (since w (final_world o)) = true) /\
  (exists o, runs_to (rollingCigarette id) w o /\
             disciplined false (since w (final_world o)) = true) /\
  (exists o, runs_to (smoke id) w o /\
             disciplined false (since w (final_world o)) = true).
Proof.
  intros Hid Hi Hc. split; [|split].
  - destruct (@wait_paths id w Hid Hi) as [o [Hrun [_ Hd]]]. exists o. split; assumption.
  - destruct (@rolling_paths id w Hid) as [o [Hrun [_ Hd]]]. exists o. split; assumption.
  - destruct (@smoke_paths id w Hid Hc) as [o [Hrun [_ Hd]]]. exists o. split; assumption.
Qed.

Lemma mutex_protocol_witness :
  (exists o, runs_to (waitForIngredients 0) w_supplied o /\
             disciplined false (since w_supplied (final_world o)) = true) /\
  (exists o, runs_to (rollingCigarette 0) w_supplied o /\
             disciplined false (since w_supplied (final_world o)) = true) /\
  (exists o, runs_to (smoke 0) w_supplied o /\
             disciplined false (since w_supplied (final_world o)) = true).
Proof.
  apply (@mutex_protocol 0 w_supplied).
  - unfold NUMSMOKERS. lia.
  - intros _ j v _ Hj. apply load_cases in Hj as [[_ ->]|[[_ ->]|[_ ->]]];
      vm_compute; split; congruence.
  - intros v Hv. vm_compute in Hv. injection Hv as <-. vm_compute. split; congruence.
Defined.

(** ** Identifiers outside the arrays *)

Lemma store_outside (a : array3) (id v : Z) :
  id < 0 \/ NUMSMOKERS <= id -> store a id v = None.
Proof.
  unfold NUMSMOKERS. intros Hid.
  destruct (store_cases a id v) as [H|H]; [lia|exact H].
Qed.

(** X11: none of the three operations looks at its identifier.  Called
    with an identifier outside [0, NUMSMOKERS), each of them acquires
    the mutex and then stores its status outside [smokerStat]. *)
Theorem operations_trust_id (id : Z) (w : world) :
  id < 0 \/ NUMSMOKERS <= id ->
  rc_down 0 w <> -1 ->
  (exists w', runs_to (waitForIngredients id) w (Halted HUndefined w') /\
              since w w' = [OSemDown mutex (rc_down 0 w); OUndefined]) /\
  (exists w', runs_to (rollingCigarette id) w (Halted HUndefined w') /\
              since w w' = List.map ORandom (draws 0 12 w)
                           ++ [OSemDown mutex (rc_down 0 w); OUndefined]) /\
  (exists w', runs_to (smoke id) w (Halted HUndefined w') /\
              since w w' = [OSemDown mutex (rc_down 0 w); OUndefined]).
Proof.
  intros Hid Hd. apply Z.eqb_neq in Hd.
  split; [|split].
  all: eexists; split;
    [apply (run_runs_to 60);
     [open_calls; run_steps; rewrite (store_outside _ _ Hid); reflexivity|exact I]|].
  all: read_since; reflexivity.
Qed.

Lemma operations_trust_id_witness :
  (exists w', runs_to (waitForIngredients (-1)) w_supplied (Halted HUndefined w') /\
              since w_supplied w' = [OSemDown mutex (rc_down 0 w_supplied); OUndefined]) /\
  (exists w', runs_to (rollingCigarette (-1)) w_supplied (Halted HUndefined w') /\
              since w_supplied w' = List.map ORandom (draws 0 12 w_supplied)
                           ++ [OSemDown mutex (rc_down 0 w_supplied); OUndefined]) /\
  (exists w', runs_to (smoke (-1)) w_supplied (Halted HUndefined w') /\
              since w_supplied w' = [OSemDown mutex (rc_down 0 w_supplied); OUndefined]).
Proof.
  apply (@operations_trust_id (-1) w_supplied).
  - left. lia.
  - vm_compute. discriminate.
Defined.

(** ** The working time and the sleep *)

Lemma sleeps_app (a b : list obs) : sleeps (a ++ b) = sleeps a ++ sleeps b.
Proof.
  induction a as [|o a IH]; [reflexivity|].
  destruct o; cbn [app sleeps]; rewrite ?IH; reflexivity.
Qed.

Lemma sleeps_random (xs : list Z) : sleeps (List.map ORandom xs) = [].
Proof. induction xs as [|x xs IH]; [reflexivity|exact IH]. Qed.

Lemma sleep_event_exact (xs : list Z) :
  drawn xs -> List.length xs = 12%nat ->
  sleep_event (work_time xs)
  = if 0 <? work_units xs then [OUsleep (dyadic (work_units xs))] else [].
Proof.
  intros Hxs Hlen. unfold sleep_event.
  pose proof (total_bounds xs Hxs) as Ht. rewrite Hlen in Ht. unfold RAND_MAX in Ht.
  rewrite (work_time_exact xs Hxs Hlen). fold (work_units xs).
  rewrite dyadic_gt_zero by (unfold work_units; lia). reflexivity.
Qed.

(** What [usleep] receives of a positive working time: its integral
    part. *)
Lemma to_useconds_dyadic (T : Z) :
  0 < T < 280 * 2 ^ 31 -> to_useconds (dyadic T) = Some (T / 2 ^ 31).
Proof.
  intros HT. destruct T as [|k|k]; try lia.
  assert (Zpos (digits2_pos k) <= 53) as Hd by (apply digits_le; lia).
  pose proof (digits_bounds k) as _. assert (0 < Zpos (digits2_pos k)) as Hd0 by lia.
  rewrite dyadic_pos by exact Hd. unfold to_useconds, truncate, normal.
  replace (0 <=? -31 + Zpos (digits2_pos k) - 53) with false
    by (symmetry; apply Z.leb_gt; lia).
  cbn [cond_Zopp]. rewrite (normal_mantissa k Hd).
  replace (- (-31 + Zpos (digits2_pos k) - 53)) with (31 + (53 - Zpos (digits2_pos k))) by lia.
  rewrite Z.pow_add_r by lia.
  rewrite Z.div_mul_cancel_r
    by (apply Z.pow_nonzero; lia).
  assert (0 <= Zpos k / 2 ^ 31) as Hlo by (apply Z.div_pos; lia).
  assert (Zpos k / 2 ^ 31 < 2 ^ 32) as Hhi by (apply Z.div_lt_upper_bound; lia).
  replace (0 <=? Zpos k / 2 ^ 31) with true by (symmetry; apply Z.leb_le; exact Hlo).
  replace (Zpos k / 2 ^ 31 <? 2 ^ 32) with true by (symmetry; apply Z.ltb_lt; exact Hhi).
  reflexivity.
Qed.

(** X12: the time a smoker takes to roll and to smoke,
    [100.0 + normalRand (30.0)], is computed without rounding: it is
    [100 + 30 * (s - 6)] for the sum [s] of the twelve samples, a
    multiple of [2^-31] that is at least -80 and less than 280.
    [rollingCigarette] and [smoke] call [usleep] once, passing that
    time, when it is positive, and not at all otherwise; the call
    converts the time to [useconds_t], so that [usleep] receives its
    integral part, between 0 and 279: 0 for a time below 1. *)
Theorem working_time (id : Z) (w : world) (v : Z) :
  0 <= id < NUMSMOKERS ->
  reliable w = true ->
  drawn (draws 0 12 w) ->
  load (nCigarettes (others 0 w (fSt w))) id = Some v -> INT_MIN <= v < INT_MAX ->
  work_time (draws 0 12 w) = dyadic (work_units (draws 0 12 w)) /\
  - 80 * 2 ^ 31 <= work_units (draws 0 12 w) < 280 * 2 ^ 31 /\
  (0 < work_units (draws 0 12 w) ->
   to_useconds (work_time (draws 0 12 w)) = Some (work_units (draws 0 12 w) / 2 ^ 31) /\
   0 <= work_units (draws 0 12 w) / 2 ^ 31 <= 279) /\
  (exists w',
     runs_to (rollingCigarette id) w (Returned tt w') /\
     sleeps (since w w') =
       (if 0 <? work_units (draws 0 12 w)
        then [dyadic (work_units (draws 0 12 w))] else []) /\
     List.map to_useconds (sleeps (since w w')) =
       (if 0 <? work_units (draws 0 12 w)
        then [Some (work_units (draws 0 12 w) / 2 ^ 31)] else [])) /\
  (exists w',
     runs_to (smoke id) w (Returned tt w') /\
     sleeps (since w w') =
       (if 0 <? work_units (draws 0 12 w)
        then [dyadic (work_units (draws 0 12 w))] else []) /\
     List.map to_useconds (sleeps (since w w')) =
       (if 0 <? work_units (draws 0 12 w)
        then [Some (work_units (draws 0 12 w) / 2 ^ 31)] else [])).
Proof.
  intros Hid Hrel Hd Hv Hr.
  assert (List.length (draws 0 12 w) = 12%nat) as Hlen by reflexivity.
  pose proof (total_bounds _ Hd) as Ht. rewrite Hlen in Ht. unfold RAND_MAX in Ht.
  assert (- 80 * 2 ^ 31 <= work_units (draws 0 12 w) < 280 * 2 ^ 31) as Hrange
    by (unfold work_units; lia).
  assert (forall ts : list double,
            ts = (if 0 <? work_units (draws 0 12 w)
                  then [dyadic (work_units (draws 0 12 w))] else []) ->
            List.map to_useconds ts =
              (if 0 <? work_units (draws 0 12 w)
               then [Some (work_units (draws 0 12 w) / 2 ^ 31)] else [])) as Hconv.
  { intros ts ->. destruct (Z.ltb_spec 0 (work_units (draws 0 12 w))) as [Hpos|_];
      [|reflexivity].
    cbn [List.map]. rewrite to_useconds_dyadic by lia. reflexivity. }
  split; [apply work_time_exact; assumption|].
  split; [exact Hrange|].
  split.
  { intros Hpos. rewrite (work_time_exact _ Hd Hlen). fold (work_units (draws 0 12 w)).
    split; [apply to_useconds_dyadic; lia|].
    split; [apply Z.div_pos; lia|].
    assert (work_units (draws 0 12 w) / 2 ^ 31 < 280)
      by (apply Z.div_lt_upper_bound; lia).
    lia. }
  split.
  - destruct (@rolling_events id w Hid Hrel) as [w' [Hrun Hev]].
    exists w'. split; [exact Hrun|].
    assert (sleeps (since w w') =
              (if 0 <? work_units (draws 0 12 w)
               then [dyadic (work_units (draws 0 12 w))] else [])) as Hs.
    { rewrite Hev, !sleeps_app, sleeps_random, (sleep_event_exact Hd Hlen).
      destruct (0 <? work_units (draws 0 12 w)); reflexivity. }
    split; [exact Hs|apply Hconv; exact Hs].
  - destruct (@smoke_run id w v Hid Hrel Hv Hr) as [w' [Hrun [_ Htr]]].
    exists w'. split; [exact Hrun|].
    assert (sleeps (since w w') =
              (if 0 <? work_units (draws 0 12 w)
               then [dyadic (work_units (draws 0 12 w))] else [])) as Hs.
    { rewrite (@since_app w w' _ Htr), rev_involutive.
      rewrite !sleeps_app, sleeps_random, (sleep_event_exact Hd Hlen).
      destruct (0 <? work_units (draws 0 12 w)); reflexivity. }
    split; [exact Hs|apply Hconv; exact Hs].
Qed.

Lemma working_time_witness :
  work_time (draws 0 12 w_most) = dyadic (work_units (draws 0 12 w_most)) /\
  - 80 * 2 ^ 31 <= work_units (draws 0 12 w_most) < 280 * 2 ^ 31 /\
  (0 < work_units (draws 0 12 w_most) ->
   to_useconds (work_time (draws 0 12 w_most))
   = Some (work_units (draws 0 12 w_most) / 2 ^ 31) /\
   0 <= work_units (draws 0 12 w_most) / 2 ^ 31 <= 279) /\
  (exists w',
     runs_to (rollingCigarette 0) w_most (Returned tt w') /\
     sleeps (since w_most w') =
       (if 0 <? work_units (draws 0 12 w_most)
        then [dyadic (work_units (draws 0 12 w_most))] else []) /\
     List.map to_useconds (sleeps (since w_most w')) =
       (if 0 <? work_units (draws 0 12 w_most)
        then [Some (work_units (draws 0 12 w_most) / 2 ^ 31)] else [])) /\
  (exists w',
     runs_to (smoke 0) w_most (Returned tt w') /\
     sleeps (since w_most w') =
       (if 0 <? work_units (draws 0 12 w_most)
        then [dyadic (work_units (draws 0 12 w_most))] else []) /\
     List.map to_useconds (sleeps (since w_most w')) =
       (if 0 <? work_units (draws 0 12 w_most)
        then [Some (work_units (draws 0 12 w_most) / 2 ^ 31)] else [])).
Proof.
  apply (@working_time 0 w_most 0).
  - unfold NUMSMOKERS. lia.
  - reflexivity.
  - repeat constructor; vm_compute; congruence.
  - reflexivity.
  - vm_compute. split; congruence.
Defined.

(** X13: [smoke] holds the mutex from its first store to its last: the
    status is stored and saved, the time is drawn, the smoker sleeps
    when the time is positive, and the cigarette is counted and saved,
    all between acquiring the mutex and releasing it; the sleep is made
    while the mutex is held. *)
Theorem smoke_sleeps_holding_mutex (id : Z) (w : world) (v : Z) :
  0 <= id < NUMSMOKERS ->
  reliable w = true ->
  load (nCigarettes (others 0 w (fSt w))) id = Some v -> INT_MIN <= v < INT_MAX ->
  exists w',
    runs_to (smoke id) w (Returned tt w') /\
    since w w' =
      [OSemDown mutex (rc_down 0 w);
       OStoreSmokerStat id SMOKING;
       OSaveState (nFic w) (set_status id SMOKING (others 0 w (fSt w)))]
      ++ List.map ORandom (draws 0 12 w)
      ++ sleep_event (work_time (draws 0 12 w))
      ++ [OLoadCigarettes id v;
          OStoreCigarettes id (v + 1);
          OSaveState (nFic w)
            (set_cigarettes id (v + 1) (set_status id SMOKING (others 0 w (fSt w))));
          OSemUp mutex (rc_up 0 w)] /\
    sleeps_locked false (since w w') = true /\
    holds_mutex false (since w w') = false /\
    (d_gt (work_time (draws 0 12 w)) d_zero = true ->
     sleeps_unlocked false (since w w') = false).
Proof.
  intros Hid Hrel Hv Hr.
  destruct (@smoke_run id w v Hid Hrel Hv Hr) as [w' [Hrun [_ Htr]]].
  exists w'. split; [exact Hrun|].
  pose proof (@since_app w w' _ Htr) as Hev. rewrite rev_involutive in Hev.
  split; [exact Hev|].
  rewrite Hev. unfold sleep_event.
  destruct (d_gt (work_time (draws 0 12 w)) d_zero);
    cbn [draws List.map List.seq app sleeps_locked sleeps_unlocked holds_mutex mutex_after
         andb negb];
    rewrite ?(not_failed_down 0 w Hrel), ?(not_failed_up 0 w Hrel);
    cbn [andb negb]; repeat split; congruence.
Qed.

Lemma smoke_sleeps_holding_mutex_witness :
  exists w',
    runs_to (smoke 0) w_half (Returned tt w') /\
    since w_half w' =
      [OSemDown mutex (rc_down 0 w_half);
       OStoreSmokerStat 0 SMOKING;
       OSaveState (nFic w_half) (set_status 0 SMOKING (others 0 w_half (fSt w_half)))]
      ++ List.map ORandom (draws 0 12 w_half)
      ++ sleep_event (work_time (draws 0 12 w_half))
      ++ [OLoadCigarettes 0 0;
          OStoreCigarettes 0 (0 + 1);
          OSaveState (nFic w_half)
            (set_cigarettes 0 (0 + 1) (set_status 0 SMOKING (others 0 w_half (fSt w_half))));
          OSemUp mutex (rc_up 0 w_half)] /\
    sleeps_locked false (since w_half w') = true /\
    holds_mutex false (since w_half w') = false /\
    (d_gt (work_time (draws 0 12 w_half)) d_zero = true ->
     sleeps_unlocked false (since w_half w') = false).
Proof.
  apply (@smoke_sleeps_holding_mutex 0 w_half 0).
  - unfold NUMSMOKERS. lia.
  - reflexivity.
  - reflexivity.
  - vm_compute. split; congruence.
Defined.

(** ** What is saved *)

Lemma last_saved_app (a b : list obs) :
  last_saved (a ++ b) =
  match last_saved b with
  | Some s => Some s
  | None => last_saved a
  end.
Proof.
  induction a as [|o a IH]; cbn [app last_saved].
  - destruct (last_saved b); reflexivity.
  - destruct o; try exact IH.
    rewrite IH. destruct (last_saved b); [reflexivity|]. reflexivity.
Qed.

(** X14: whenever one of the three operations returns, the snapshot it
    gave last to [saveState] is the shared region as it leaves it: the
    log is up to date each time the smoker releases the mutex. *)
Theorem saved_state_is_current (id : Z) (w : world) (v : Z) :
  0 <= id < NUMSMOKERS ->
  reliable w = true ->
  (closing (at_wake_up id w) = false ->
   forall j u, j <> id -> load (ingredients (at_wake_up id w)) j = Some u ->
               INT_MIN < u <= INT_MAX) ->
  load (nCigarettes (others 0 w (fSt w))) id = Some v -> INT_MIN <= v < INT_MAX ->
  (exists b w', runs_to (waitForIngredients id) w (Returned b w') /\
                last_saved (since w w') = Some (fSt w')) /\
  (exists w', runs_to (rollingCigarette id) w (Returned tt w') /\
              last_saved (since w w') = Some (fSt w')) /\
  (exists w', runs_to (smoke id) w (Returned tt w') /\
              last_saved (since w w') = Some (fSt w')).
Proof.
  intros Hid Hrel Hi Hv Hr. split; [|split].
  - destruct (closing (at_wake_up id w)) eqn:Hc.
    + destruct (@wait_run_closing id w Hid Hrel Hc) as [w' [Hrun [Hst Htr]]].
      exists false, w'. split; [exact Hrun|].
      rewrite (@since_app w w' _ Htr), rev_involutive, Hst. reflexivity.
    + destruct (@wait_run_proceeds id w Hid Hrel Hc (Hi eq_refl))
        as [w' [Hrun [_ [_ [_ [_ Htr]]]]]].
      exists true, w'. split; [exact Hrun|].
      rewrite (@since_app w w' _ Htr), rev_involutive.
      rewrite !last_saved_app. reflexivity.
  - destruct (@rolling_run id w Hid Hrel) as [w' [Hrun [Hst _]]].
    destruct (@rolling_events id w Hid Hrel) as [w2 [Hrun2 Hev]].
    pose proof (runs_to_unique Hrun Hrun2) as Heq. injection Heq as <-.
    exists w'. split; [exact Hrun|].
    rewrite Hev, Hst, !last_saved_app. unfold sleep_event.
    destruct (d_gt _ _); reflexivity.
  - destruct (@smoke_run id w v Hid Hrel Hv Hr) as [w' [Hrun [Hst Htr]]].
    exists w'. split; [exact Hrun|].
    rewrite (@since_app w w' _ Htr), rev_involutive, Hst, !last_saved_app. reflexivity.
Qed.

Lemma saved_state_is_current_witness :
  (exists b w', runs_to (waitForIngredients 0) w_half (Returned b w') /\
                last_saved (since w_half w') = Some (fSt w')) /\
  (exists w', runs_to (rollingCigarette 0) w_half (Returned tt w') /\
              last_saved (since w_half w') = Some (fSt w')) /\
  (exists w', runs_to (smoke 0) w_half (Returned tt w') /\
              last_saved (since w_half w') = Some (fSt w')).
Proof.
  apply (@saved_state_is_current 0 w_half 0).
  - unfold NUMSMOKERS. lia.
  - reflexivity.
  - intros _ j u _ Hj. apply load_cases in Hj as [[_ ->]|[[_ ->]|[_ ->]]];
      vm_compute; split; congruence.
  - reflexivity.
  - vm_compute. split; congruence.
Defined.

(** ** Every finished run *)

Ltac exited_now :=
  unfold exits_on_failure;
  lazymatch goal with
  | |- exists w' ev older, Halted _ ?w0 = _ /\ _ =>
      let tr := eval cbn [trace log set_fSt set_nFic set_semgid set_shmid set_env_down
                          set_env_up set_env_random] in (trace w0) in
      lazymatch tr with
      | _ :: _ :: ?ev :: ?older => exists w0, ev, older
      end
  end;
  split; [reflexivity|]; split; [reflexivity | cbn [failed]; assumption].

Ltac returned_now :=
  lazymatch goal with
  | |- exists new, trace ?w' = new ++ trace ?w /\ _ =>
      let tr := eval cbn [trace log set_fSt set_nFic set_semgid set_shmid set_env_down
                          set_env_up set_env_random] in (trace w') in
      let p := prefix_of tr (trace w) in
      exists p; split; reflexivity
  end.

Ltac account :=
  intros <-; cbn [accounted];
  first [ exact I | exited_now | returned_now ].

Lemma more_fuel {R} (k n : nat) (t : itree smokerE R) (w : world) (o : outcome R) :
  run n t w = o -> finished o -> run (k + n) t w = o.
Proof. intros H Hf. rewrite Nat.add_comm. now apply run_more. Qed.

Lemma wait_accounted (id : Z) (n : nat) (w : world) (o : outcome bool) :
  run n (waitForIngredients id) w = o -> finished o ->
  accounted w (fun b : bool => if b then [0; 1; 2; 0; 0] else [1; 0; 0; 0; 0])%nat o.
Proof.
  intros Hn Hf. apply (more_fuel 40) in Hn; [|exact Hf]. clear Hf. revert Hn.
  cbn [Nat.add].
  assert (0 <= id < NUMSMOKERS \/ (id < 0 \/ NUMSMOKERS <= id)) as [Hid|Hid]
    by (unfold NUMSMOKERS; lia).
  - three_ids id Hid; open_calls; repeat run_step; account.
  - open_calls; repeat run_step; rewrite ?(store_outside _ _ Hid); cbn [stored]; account.
Qed.

Lemma rolling_accounted (id : Z) (n : nat) (w : world) (o : outcome unit) :
  run n (rollingCigarette id) w = o -> finished o ->
  accounted w (fun _ : unit => [0; 0; 0; 1; 0])%nat o.
Proof.
  intros Hn Hf. apply (more_fuel 60) in Hn; [|exact Hf]. clear Hf. revert Hn.
  cbn [Nat.add].
  assert (0 <= id < NUMSMOKERS \/ (id < 0 \/ NUMSMOKERS <= id)) as [Hid|Hid]
    by (unfold NUMSMOKERS; lia).
  - three_ids id Hid; open_calls; repeat run_step; account.
  - open_calls; repeat run_step; rewrite ?(store_outside _ _ Hid); cbn [stored]; account.
Qed.

Lemma smoke_accounted (id : Z) (n : nat) (w : world) (o : outcome unit) :
  run n (smoke id) w = o -> finished o ->
  accounted w (fun _ : unit => [0; 0; 0; 0; 1])%nat o.
Proof.
  intros Hn Hf. apply (more_fuel 60) in Hn; [|exact Hf]. clear Hf. revert Hn.
  cbn [Nat.add].
  assert (0 <= id < NUMSMOKERS \/ (id < 0 \/ NUMSMOKERS <= id)) as [Hid|Hid]
    by (unfold NUMSMOKERS; lia).
  - three_ids id Hid; open_calls; repeat run_step; account.
  - open_calls; repeat run_step; rewrite ?(store_outside _ _ Hid); cbn [stored]; account.
Qed.

Lemma count_app (p : obs -> bool) (a b : list obs) :
  count p (a ++ b) = (count p a + count p b)%nat.
Proof. unfold count. rewrite filter_app, length_app. reflexivity. Qed.

Lemma tally_app (a b : list obs) (x y : list nat) :
  tally a = x -> tally b = y ->
  tally (a ++ b) = List.map (fun p => (fst p + snd p)%nat) (combine x y).
Proof.
  intros <- <-. unfold tally. rewrite !count_app. reflexivity.
Qed.

Lemma halted_accounted {A B} (w : world) (e : A -> list nat) (h : halt) (w1 : world) :
  accounted w e (Halted h w1 : outcome A) ->
  match h with
  | HExit _ => exits_on_failure (Halted h w1 : outcome B)
  | HUndefined => True
  end.
Proof.
  destruct h as [s|]; [|exact (fun _ => I)]. cbn [accounted].
  intros (w' & ev & older & Heq & Htr & Hfl). injection Heq as -> ->.
  exists w', ev, older. repeat split; assumption.
Qed.

(** The life cycle, whatever the world it runs in: when it returns it
    has read the closing flag as set once, and as clear as many times as
    it has signalled [waitCigarette] and stored a count of cigarettes,
    with two stores to [ingredients] each time; when the process exits,
    it does so on a failed semaphore operation. *)
Lemma life_cycle_accounted (id : Z) (n : nat) :
  forall (w : world) (o : outcome unit),
    run n (life_cycle id) w = o -> finished o ->
    match o with
    | Returned _ w' =>
        exists new k, trace w' = new ++ trace w /\
                      tally (rev new) = [1; k; 2 * k; k; k]%nat
    | Halted (HExit _) _ => exits_on_failure o
    | _ => True
    end.
Proof.
  induction n as [n IH] using lt_wf_ind. intros w o Hrun Hf.
  rewrite life_cycle_turn in Hrun.
  destruct (run_bind_inv _ _ _ _ Hrun Hf) as [[b [w1 [Hw Hk]]]|[h [w1 [Hw ->]]]].
  2: { exact (@halted_accounted bool unit _ _ _ _ (wait_accounted id n w Hw I)). }
  pose proof (wait_accounted id n w Hw I) as [new1 [Ht1 Hc1]].
  destruct b.
  - destruct (run_bind_inv _ _ _ _ Hk Hf) as [[[] [w2 [Hr Hk2]]]|[h [w2 [Hr ->]]]].
    2: { exact (@halted_accounted unit unit _ _ _ _ (rolling_accounted id n w1 Hr I)). }
    pose proof (rolling_accounted id n w1 Hr I) as [new2 [Ht2 Hc2]].
    destruct (run_bind_inv _ _ _ _ Hk2 Hf) as [[[] [w3 [Hs Hk3]]]|[h [w3 [Hs ->]]]].
    2: { exact (@halted_accounted unit unit _ _ _ _ (smoke_accounted id n w2 Hs I)). }
    pose proof (smoke_accounted id n w2 Hs I) as [new3 [Ht3 Hc3]].
    destruct n as [|n]; [discriminate Hw|].
    rewrite run_tau in Hk3.
    pose proof (IH n ltac:(lia) w3 o Hk3 Hf) as Hrest.
    destruct o as [[] w'|[s|] w'|w']; try exact Hrest; [].
    destruct Hrest as [new4 [k [Ht4 Hc4]]].
    exists (new4 ++ new3 ++ new2 ++ new1), (S k). split.
    + rewrite Ht4, Ht3, Ht2, Ht1, <- !app_assoc. reflexivity.
    + rewrite !rev_app_distr, <- !app_assoc.
      rewrite (tally_app Hc1 (tally_app Hc2 (tally_app Hc3 Hc4))).
      cbn [combine List.map fst snd].
      repeat (apply f_equal2; [lia|]). reflexivity.
  - destruct n as [|n]; [discriminate Hw|].
    rewrite run_ret in Hk. rewrite <- Hk.
    exists new1, 0%nat. split; [exact Ht1|exact Hc1].
Qed.

Lemma exits_on_failure_any {A B} (h : halt) (w : world) :
  exits_on_failure (Halted h w : outcome A) -> exits_on_failure (Halted h w : outcome B).
Proof.
  intros (w' & ev & older & Heq & Htr & Hfl). injection Heq as -> ->.
  exists w', ev, older. repeat split; assumption.
Qed.

(** X15: the life cycle never calls [exit] but with [EXIT_FAILURE], and
    only right after a semaphore operation has failed and has been
    reported with [perror]: whenever the process exits during the life
    cycle, its last three events are the failed operation, the report
    and the exit. *)
Theorem life_cycle_exits_on_failure (id : Z) (w : world) (s : Z) (w' : world) :
  runs_to (life_cycle id) w (Halted (HExit s) w') ->
  s = EXIT_FAILURE /\
  exists ev older,
    trace w' = OExit EXIT_FAILURE :: OPerror (complaint ev) :: ev :: older /\
    failed ev = true.
Proof.
  intros H. destruct (runs_to_run H) as [n [Hn Hf]].
  pose proof (life_cycle_accounted id n w Hn Hf) as (w1 & ev & older & Heq & Htr & Hfl).
  injection Heq as -> ->. split; [reflexivity|]. exists ev, older. split; assumption.
Qed.

Lemma life_cycle_exits_on_failure_witness :
  EXIT_FAILURE = EXIT_FAILURE /\
  exists ev older,
    trace (final_world (run 40 (life_cycle 0) w_wait_fails))
    = OExit EXIT_FAILURE :: OPerror (complaint ev) :: ev :: older /\
    failed ev = true.
Proof.
  apply (@life_cycle_exits_on_failure 0 w_wait_fails).
  apply (@run_runs_to _ 40); [vm_compute; reflexivity | exact I].
Defined.

(** X16: when the life cycle returns, the smoker has read the closing
    flag as set exactly once, at the end; and for each of the times it
    read the flag as clear it has made two stores to [ingredients], one
    signal of [waitCigarette] and one store to [nCigarettes]: as many
    cigarettes are counted, and as many times the agent is notified, as
    the smoker was woken to proceed. *)
Theorem life_cycle_counts (id : Z) (w w' : world) :
  runs_to (life_cycle id) w (Returned tt w') ->
  exists k,
    count (reads_closing true) (since w w') = 1%nat /\
    count (reads_closing false) (since w w') = k /\
    count is_ingredient_store (since w w') = (2 * k)%nat /\
    count is_signal (since w w') = k /\
    count is_cigarette_store (since w w') = k.
Proof.
  intros H. destruct (runs_to_run H) as [n [Hn Hf]].
  pose proof (life_cycle_accounted id n w Hn Hf) as (new & k & Htr & Hc).
  exists k. rewrite (@since_app w w' _ Htr).
  unfold tally in Hc. injection Hc as H1 H2 H3 H4 H5.
  repeat split; assumption.
Qed.

Lemma life_cycle_counts_witness :
  exists k,
    count (reads_closing true)
      (since w_one_cycle (final_world (run 200 (life_cycle 0) w_one_cycle))) = 1%nat /\
    count (reads_closing false)
      (since w_one_cycle (final_world (run 200 (life_cycle 0) w_one_cycle))) = k /\
    count is_ingredient_store
      (since w_one_cycle (final_world (run 200 (life_cycle 0) w_one_cycle))) = (2 * k)%nat /\
    count is_signal
      (since w_one_cycle (final_world (run 200 (life_cycle 0) w_one_cycle))) = k /\
    count is_cigarette_store
      (since w_one_cycle (final_world (run 200 (life_cycle 0) w_one_cycle))) = k.
Proof.
  apply (@life_cycle_counts 0 w_one_cycle).
  apply (@run_runs_to _ 200); [vm_compute; reflexivity | exact I].
Defined.

(** ** Every finished run of [main] *)

(** X17: [main] returns [EXIT_SUCCESS] only when the life cycle is over,
    the smoker having read the closing flag as set and recorded
    [CLOSING_S], and [shmemDettach] has succeeded; whenever it returns
    otherwise it returns [EXIT_FAILURE]; and the process never exits
    but with [EXIT_FAILURE], right after a semaphore operation has
    failed and has been reported. *)
Theorem main_status (argv : list string) (w : world) (o : outcome Z) :
  runs_to (main argv) w o ->
  match o with
  | Returned s w' =>
      s = EXIT_FAILURE \/
      (s = EXIT_SUCCESS /\
       exists rc rc' file snapshot id older,
         rc <> -1 /\
         trace w' =
           OShmemDettach rc :: OSemUp mutex rc' :: OSaveState file snapshot
           :: OStoreSmokerStat id CLOSING_S :: OLoadClosing true :: older)
  | Halted (HExit _) _ => exits_on_failure o
  | Halted HUndefined _ => True
  | Running _ => False
  end.
Proof.
  intros H. destruct (runs_to_run H) as [n [Hn Hf]].
  apply (more_fuel 20) in Hn; [|exact Hf]. revert Hn. cbn [Nat.add].
  unfold main.
  destruct (strtol (nth 1 argv EmptyString)) as [v1 t1].
  destruct (strtol (nth 3 argv EmptyString)) as [v3 t3].
  destruct (Z.of_nat (String.length (nth 2 argv EmptyString)) <? 51) eqn:Hlen.
  all: repeat (first [run_step | rewrite Hlen; cbv iota]).
  all: try (intros <-; first [left; reflexivity | exact I]).
  intros Hn.
  destruct (run_bind_inv _ _ _ _ Hn Hf) as [[[] [w1 [Hl Hk]]]|[h [w1 [Hl ->]]]].
  - destruct (@life_cycle_left _ _ _ _ Hl) as [w0 Hw0].
    destruct (@wait_false_closing _ _ _ Hw0) as [rc [file [snapshot [older Htr]]]].
    revert Hk. repeat run_step; intros <-; [left; reflexivity|right].
    split; [reflexivity|].
    exists (env_shmemDettach w1), rc, file, snapshot, (to_int (to_unsigned_int v1)), older.
    split; [apply Z.eqb_neq; assumption|]. cbn [trace log]. rewrite Htr. reflexivity.
  - pose proof (@life_cycle_accounted _ _ _ _ Hl I) as Hacc.
    destruct h as [s|]; [|exact I].
    apply (@exits_on_failure_any unit Z). exact Hacc.
Qed.

Lemma main_status_witness :
  match run 200 (main (argv_of "0")) w_one_cycle with
  | Returned s w' =>
      s = EXIT_FAILURE \/
      (s = EXIT_SUCCESS /\
       exists rc rc' file snapshot id older,
         rc <> -1 /\
         trace w' =
           OShmemDettach rc :: OSemUp mutex rc' :: OSaveState file snapshot
           :: OStoreSmokerStat id CLOSING_S :: OLoadClosing true :: older)
  | Halted (HExit _) _ => exits_on_failure (run 200 (main (argv_of "0")) w_one_cycle)
  | Halted HUndefined _ => True
  | Running _ => False
  end.
Proof.
  apply (@main_status (argv_of "0") w_one_cycle).
  apply (@run_runs_to _ 200); [reflexivity | vm_compute; exact I].
Defined.

(** ** Before the smoker blocks *)

(** X18: before [waitForIngredients (id)] blocks on [wait2Ings[id]] it
    has, holding the mutex, stored [WAITING_2ING] as its status and
    saved the state, and it has released the mutex: whatever happens
    afterwards, every run in which the first two operations on the
    mutex succeed begins with these five events. *)
Theorem waitForIngredients_announces (id : Z) (w : world) :
  0 <= id < NUMSMOKERS ->
  (closing (at_wake_up id w) = false ->
   forall j v, j <> id -> load (ingredients (at_wake_up id w)) j = Some v ->
               INT_MIN < v <= INT_MAX) ->
  rc_down 0 w <> -1 -> rc_up 0 w <> -1 ->
  exists o later,
    runs_to (waitForIngredients id) w o /\
    since w (final_world o) =
      [OSemDown mutex (rc_down 0 w);
       OStoreSmokerStat id WAITING_2ING;
       OSaveState (nFic w) (set_status id WAITING_2ING (others 0 w (fSt w)));
       OSemUp mutex (rc_up 0 w);
       OSemDown (wait2Ings id) (rc_down 1 w)]
      ++ later.
Proof.
  intros Hid Hr D0 U0. apply Z.eqb_neq in D0, U0.
  destruct (closing (at_wake_up id w)) eqn:Hc.
  - clear Hr. unfold at_wake_up, set_status in *.
    semaphore_cases w [inl 1%nat; inl 2%nat; inr 1%nat].
    all: three_ids id Hid; world_simpl.
    all: eexists; eexists; split;
      [apply (run_runs_to 40); [open_calls; run_steps; reflexivity|exact I]|].
    all: cbn [final_world]; read_since; reflexivity.
  - specialize (Hr eq_refl). unfold at_wake_up, set_status in *.
    semaphore_cases w [inl 1%nat; inl 2%nat; inr 1%nat].
    all: three_ids id Hid; world_simpl.
    all: try (pose proof (Hr 0 _ ltac:(lia) eq_refl));
      try (pose proof (Hr 1 _ ltac:(lia) eq_refl));
      try (pose proof (Hr 2 _ ltac:(lia) eq_refl)).
    all: eexists; eexists; split;
      [apply (run_runs_to 40); [open_calls; run_steps; int_facts; reflexivity|exact I]|].
    all: cbn [final_world]; read_since; reflexivity.
Qed.

Lemma waitForIngredients_announces_witness :
  exists o later,
    runs_to (waitForIngredients 0) w_wait_fails o /\
    since w_wait_fails (final_world o) =
      [OSemDown mutex (rc_down 0 w_wait_fails);
       OStoreSmokerStat 0 WAITING_2ING;
       OSaveState (nFic w_wait_fails)
         (set_status 0 WAITING_2ING (others 0 w_wait_fails (fSt w_wait_fails)));
       OSemUp mutex (rc_up 0 w_wait_fails);
       OSemDown (wait2Ings 0) (rc_down 1 w_wait_fails)]
      ++ later.
Proof.
  apply (@waitForIngredients_announces 0 w_wait_fails).
  - unfold NUMSMOKERS. lia.
  - intros _ j v _ Hj. apply load_cases in Hj as [[_ ->]|[[_ ->]|[_ ->]]];
      vm_compute; split; congruence.
  - vm_compute. discriminate.
  - vm_compute. discriminate.
Defined.

(** ** The conduct of the life cycle *)

Ltac conduct :=
  intros <-; unfold conducted; cbn [final_world];
  lazymatch goal with
  | |- exists new, trace ?w' = new ++ trace ?w /\ _ =>
      let tr := eval cbn [trace log set_fSt set_nFic set_semgid set_shmid set_env_down
                          set_env_up set_env_random] in (trace w') in
      let p := prefix_of tr (trace w) in
      exists p; split; [reflexivity|]
  end;
  repeat (cbn [rev app disciplined mutex_after touches_region holds_mutex forallb
               writes_own andb negb];
          try (progress use_tests));
  repeat split; first [reflexivity | solve [repeat constructor]].

Lemma wait_conducted (id : Z) (n : nat) (w : world) (o : outcome bool) :
  run n (waitForIngredients id) w = o -> finished o -> conducted id w o.
Proof.
  intros Hn Hf. apply (more_fuel 40) in Hn; [|exact Hf]. clear Hf. revert Hn.
  cbn [Nat.add].
  assert (0 <= id < NUMSMOKERS \/ (id < 0 \/ NUMSMOKERS <= id)) as [Hid|Hid]
    by (unfold NUMSMOKERS; lia).
  - three_ids id Hid; open_calls; repeat run_step; conduct.
  - open_calls; repeat run_step; rewrite ?(store_outside _ _ Hid); cbn [stored]; conduct.
Qed.

Lemma rolling_conducted (id : Z) (n : nat) (w : world) (o : outcome unit) :
  run n (rollingCigarette id) w = o -> finished o -> conducted id w o.
Proof.
  intros Hn Hf. apply (more_fuel 60) in Hn; [|exact Hf]. clear Hf. revert Hn.
  cbn [Nat.add].
  assert (0 <= id < NUMSMOKERS \/ (id < 0 \/ NUMSMOKERS <= id)) as [Hid|Hid]
    by (unfold NUMSMOKERS; lia).
  - three_ids id Hid; open_calls; repeat run_step; conduct.
  - open_calls; repeat run_step; rewrite ?(store_outside _ _ Hid); cbn [stored]; conduct.
Qed.

Lemma smoke_conducted (id : Z) (n : nat) (w : world) (o : outcome unit) :
  run n (smoke id) w = o -> finished o -> conducted id w o.
Proof.
  intros Hn Hf. apply (more_fuel 60) in Hn; [|exact Hf]. clear Hf. revert Hn.
  cbn [Nat.add].
  assert (0 <= id < NUMSMOKERS \/ (id < 0 \/ NUMSMOKERS <= id)) as [Hid|Hid]
    by (unfold NUMSMOKERS; lia).
  - three_ids id Hid; open_calls; repeat run_step; conduct.
  - open_calls; repeat run_step; rewrite ?(store_outside _ _ Hid); cbn [stored]; conduct.
Qed.

Lemma holds_mutex_app (a b : list obs) :
  forall held, holds_mutex held (a ++ b) = holds_mutex (holds_mutex held a) b.
Proof. induction a as [|o a IH]; intros held; [reflexivity|apply IH]. Qed.

Lemma disciplined_app (a b : list obs) :
  forall held,
    disciplined held (a ++ b) = disciplined held a && disciplined (holds_mutex held a) b.
Proof.
  induction a as [|o a IH]; intros held; [reflexivity|].
  cbn [app disciplined holds_mutex]. rewrite IH, andb_assoc. reflexivity.
Qed.

(** A call that returned, followed by a call that finished. *)
Lemma conducted_then {A B} (id : Z) (w w1 : world) (r : A) (o : outcome B) :
  conducted id w (Returned r w1) -> conducted id w1 o -> conducted id w o.
Proof.
  intros (new1 & Ht1 & Hd1 & Ho1 & Hn1 & Hs1 & Hh1) (new2 & Ht2 & Hd2 & Ho2 & Hn2 & Hs2 & Hh2).
  cbn [final_world] in Ht1, Hn1. rewrite Hn1 in Hn2, Hs2.
  exists (new2 ++ new1). rewrite Ht2, Ht1, app_assoc, rev_app_distr.
  split; [reflexivity|].
  rewrite disciplined_app, forallb_app, holds_mutex_app, Hd1, Ho1, Hh1, Hd2, Ho2.
  repeat split; [exact Hn2| |exact Hh2].
  apply Forall_app. split; assumption.
Qed.

Lemma conducted_halted {A B} (id : Z) (w : world) (h : halt) (w1 : world) :
  conducted id w (Halted h w1 : outcome A) -> conducted id w (Halted h w1 : outcome B).
Proof. intros H. exact H. Qed.

Lemma life_cycle_conducted (id : Z) (n : nat) :
  forall (w : world) (o : outcome unit),
    run n (life_cycle id) w = o -> finished o -> conducted id w o.
Proof.
  induction n as [n IH] using lt_wf_ind. intros w o Hrun Hf.
  rewrite life_cycle_turn in Hrun.
  destruct (run_bind_inv _ _ _ _ Hrun Hf) as [[b [w1 [Hw Hk]]]|[h [w1 [Hw ->]]]].
  2: { exact (@conducted_halted bool unit _ _ _ _ (wait_conducted id n w Hw I)). }
  apply (conducted_then (wait_conducted id n w Hw I)).
  destruct n as [|n]; [discriminate Hw|].
  destruct b.
  - destruct (run_bind_inv _ _ _ _ Hk Hf) as [[[] [w2 [Hr Hk2]]]|[h [w2 [Hr ->]]]].
    2: { exact (rolling_conducted id _ w1 Hr I). }
    apply (conducted_then (rolling_conducted id _ w1 Hr I)).
    destruct (run_bind_inv _ _ _ _ Hk2 Hf) as [[[] [w3 [Hs Hk3]]]|[h [w3 [Hs ->]]]].
    2: { exact (smoke_conducted id _ w2 Hs I). }
    apply (conducted_then (smoke_conducted id _ w2 Hs I)).
    rewrite run_tau in Hk3. exact (IH n ltac:(lia) w3 o Hk3 Hf).
  - rewrite run_ret in Hk. rewrite <- Hk.
    exists []. repeat split; first [reflexivity | constructor].
Qed.

(** X19: in every finished run of the life cycle, whatever its
    identifier and whatever the environment does, the smoker reads,
    writes and saves the shared region only while it holds the mutex
    and waits for its ingredients and signals the agent only while it
    does not; and the only things it stores are its own status, its own
    count of cigarettes and the counts of ingredients other than its
    own. *)
Theorem life_cycle_conduct (id : Z) (w : world) (o : outcome unit) :
  runs_to (life_cycle id) w o ->
  disciplined false (since w (final_world o)) = true /\
  forallb (writes_own id) (since w (final_world o)) = true.
Proof.
  intros H. destruct (runs_to_run H) as [n [Hn Hf]].
  destruct (life_cycle_conducted id n w Hn Hf) as (new & Htr & Hd & Ho & _).
  rewrite (@since_app w _ _ Htr). split; assumption.
Qed.

Lemma life_cycle_conduct_witness :
  disciplined false
    (since w_one_cycle (final_world (run 200 (life_cycle 0) w_one_cycle))) = true /\
  forallb (writes_own 0)
    (since w_one_cycle (final_world (run 200 (life_cycle 0) w_one_cycle))) = true.
Proof.
  apply (@life_cycle_conduct 0 w_one_cycle).
  apply (@run_runs_to _ 200); [reflexivity | vm_compute; exact I].
Defined.

(** ** The log file *)

(** X20: in every finished run of [main], whatever the command line and
    whatever the environment does, every snapshot of the shared region
    that the process saves is saved under the name given as the second
    argument: [nFic] is set once and is not changed afterwards. *)
Theorem main_logs_under_argument (argv : list string) (w : world) (o : outcome Z) :
  runs_to (main argv) w o ->
  Forall (saved_under (nth 2 argv EmptyString)) (since w (final_world o)).
Proof.
  intros H. destruct (runs_to_run H) as [n [Hn Hf]].
  apply (more_fuel 20) in Hn; [|exact Hf]. revert Hn. cbn [Nat.add].
  unfold main.
  destruct (strtol (nth 1 argv EmptyString)) as [v1 t1].
  destruct (strtol (nth 3 argv EmptyString)) as [v3 t3].
  destruct (Z.of_nat (String.length (nth 2 argv EmptyString)) <? 51) eqn:Hlen.
  all: repeat (first [run_step | rewrite Hlen; cbv iota]).
  all: try (intros <-; cbn [final_world]; read_since; solve [repeat constructor]).
  intros Hn.
  destruct (run_bind_inv _ _ _ _ Hn Hf) as [[[] [w1 [Hl Hk]]]|[h [w1 [Hl ->]]]].
  all: destruct (@life_cycle_conducted _ _ _ _ Hl I) as (new & Htr & _ & _ & _ & Hs & _).
  all: cbn [final_world trace log set_semgid set_shmid set_nFic nFic] in Htr, Hs.
  all: apply Forall_rev in Hs; rewrite rev_involutive in Hs.
  all: set (pre := [OSrandom (env_pid w mod 2 ^ 32);
                    OShmemAttach (env_shmemAttach w);
                    OShmemConnect (to_int (to_unsigned_int v3)) (env_shmemConnect w);
                    OSemConnect (to_int (to_unsigned_int v3)) (env_semConnect w);
                    OStrcpyNFic (nth 2 argv EmptyString);
                    OSetbufStderr;
                    OFreopen (nth 4 argv EmptyString) "w"]).
  all: change (trace w1 = new ++ pre ++ trace w) in Htr.
  all: assert (Forall (saved_under (nth 2 argv EmptyString)) (new ++ pre)) as Hall
    by (apply Forall_app; split; [exact Hs|repeat constructor]).
  - revert Hk. repeat run_step; intros <-; cbn [final_world].
    + rewrite (@since_app w _ (OPerror _ :: OShmemDettach _ :: new ++ pre))
        by (cbn [trace log app]; rewrite Htr, <- app_assoc; reflexivity).
      apply Forall_rev. repeat constructor. exact Hall.
    + rewrite (@since_app w _ (OShmemDettach _ :: new ++ pre))
        by (cbn [trace log app]; rewrite Htr, <- app_assoc; reflexivity).
      apply Forall_rev. repeat constructor. exact Hall.
  - cbn [final_world].
    rewrite (@since_app w w1 (new ++ pre)) by (rewrite Htr, <- app_assoc; reflexivity).
    apply Forall_rev. exact Hall.
Qed.

Lemma main_logs_under_argument_witness :
  Forall (saved_under (nth 2 (argv_of "0") EmptyString))
         (since w_one_cycle (final_world (run 200 (main (argv_of "0")) w_one_cycle))).
Proof.
  apply (@main_logs_under_argument (argv_of "0") w_one_cycle).
  apply (@run_runs_to _ 200); [reflexivity | vm_compute; exact I].
Defined.
